(** * pytorch_playground: the training loop and the language-model batcher

    A shallow embedding of [core/loop.py] ([Loop], [Phase], [Stepper]) and of
    the [SequenceIterator] class of [rnn/rnn_classify.py], together with the
    properties the specification states about them.

    Conventions.
    - Python [int] is [Z]; [//] is [Z.div] (both round towards minus
      infinity), guarded by a [ZeroDivisionError].
    - A Python exception is a value of [exn]; a call that may raise returns a
      [result].
    - Object state is threaded explicitly: a method that mutates [self] takes
      the object and returns the updated one.
    - The draws of [np.random] are rationals: [np.random] is an interface
      ([NumpyRandom]) over an explicit generator state.
    - A loss is a value of a type with the float operations the loop uses
      ([PyFloat]), read either exactly, as a rational, or as IEEE binary64.
    - A tensor of token ids is its shape and its items in row-major order.
    - A data source of the loop is the finite list of the batches that one
      traversal yields.
    - [core/callbacks.py] is not among the sources; its [CallbackGroup] is
      written after the specification, and marked so. *)

From Stdlib Require Import String ZArith QArith Qpower Floats.
From Stdlib Require Import List Sorted Bool Lia.
Import ListNotations.

Set Implicit Arguments.
Local Open Scope Z_scope.

(** ** Python values and exceptions *)

Module Py.

Inductive exn : Type :=
| ZeroDivisionError
| RuntimeError
| StopIteration.

Inductive result (A : Type) : Type :=
| Ok (a : A)
| Raise (e : exn).
Arguments Ok {A} a.
Arguments Raise {A} e.

Definition bind {A B : Type} (r : result A) (k : A -> result B) : result B :=
  match r with
  | Ok a => k a
  | Raise e => Raise e
  end.

(** [a // b] *)
Definition floordiv (a b : Z) : result Z :=
  if b =? 0 then Raise ZeroDivisionError else Ok (a / b).

(** [len(l)] *)
Definition len {A : Type} (l : list A) : Z := Z.of_nat (length l).

(** One bound of a slice over a sequence of [n] items: a negative bound
    counts from the end, and the result is clamped to [0..n]. *)
Definition slice_bound (n i : Z) : nat :=
  Z.to_nat (if i <? 0 then Z.max 0 (i + n) else Z.min i n).

(** [l[start:stop]] *)
Definition slice {A : Type} (l : list A) (start stop : Z) : list A :=
  let lo := slice_bound (len l) start in
  let hi := slice_bound (len l) stop in
  firstn (hi - lo) (skipn lo l).

(** [l[:stop]] *)
Definition slice_to {A : Type} (l : list A) (stop : Z) : list A :=
  slice l 0 stop.

(** [int(x)] of a float: truncation towards zero. *)
Definition int (x : Q) : Z := Z.quot (Qnum x) (Zpos (Qden x)).

End Py.

Notation "x <- r ;; k" := (Py.bind r (fun x => k))
  (at level 61, r at next level, right associativity).

(** ** Tensors of token ids *)

Module Torch.

(** A one-dimensional [LongTensor] is the list of its items. A
    two-dimensional one is its shape and its items in row-major order. *)
Record Tensor2 : Type := mkTensor2 {
  rows : nat;
  cols : nat;
  data : list Z
}.

Inductive Tensor : Type :=
| T1 (v : list Z)
| T2 (m : Tensor2).

Definition get (m : Tensor2) (i j : nat) : Z :=
  nth (i * cols m + j) (data m) 0.

(** The items stored are as many as the shape says. *)
Definition wf (m : Tensor2) : Prop :=
  length (data m) = (rows m * cols m)%nat.

(** [v.view(d0, -1)]: the second dimension is inferred. A negative [d0] is
    an invalid shape, [d0 = 0] leaves the inferred dimension ambiguous or
    does not match, and so does a [d0] that does not divide the number of
    items. *)
Definition view (v : list Z) (d0 : Z) : Py.result Tensor2 :=
  if d0 <=? 0 then Py.Raise Py.RuntimeError
  else if Py.len v mod d0 =? 0
       then Py.Ok (mkTensor2 (Z.to_nat d0) (Z.to_nat (Py.len v / d0)) v)
       else Py.Raise Py.RuntimeError.

(** [m.t().contiguous()]: item [(i, j)] of the result is item [(j, i)] of
    [m], and the result is laid out row-major again. *)
Definition t (m : Tensor2) : Tensor2 :=
  mkTensor2 (cols m) (rows m)
    (flat_map (fun i => map (fun j => get m j i) (seq 0 (rows m)))
              (seq 0 (cols m))).

(** [m[start:stop].contiguous()]: a slice of rows. *)
Definition row_slice (m : Tensor2) (start stop : Z) : Tensor2 :=
  let lo := Py.slice_bound (Z.of_nat (rows m)) start in
  let hi := Py.slice_bound (Z.of_nat (rows m)) stop in
  mkTensor2 (hi - lo) (cols m)
    (firstn ((hi - lo) * cols m) (skipn (lo * cols m) (data m))).

(** [m.view(-1)] *)
Definition flatten (m : Tensor2) : list Z := data m.

(** The items of [m] read column by column. *)
Definition flatten_column_major (m : Tensor2) : list Z :=
  flat_map (fun j => map (fun i => get m i j) (seq 0 (rows m)))
           (seq 0 (cols m)).

End Torch.

(** ** The random source *)

(** [np.random.random()] and [np.random.normal(loc, scale)] over the state
    [G] of the generator. *)
Class NumpyRandom (G : Type) : Type := {
  random : G -> Q * G;
  normal : Q -> Q -> G -> Q * G
}.

(** A generator that replays a script: a uniform draw is the next item as it
    is, a normal draw is [loc + scale * z] for the next item [z]. It gives the
    draws of a run in examples. *)
#[export] Instance scripted : NumpyRandom (list Q) := {
  random g := match g with
              | [] => (0%Q, [])
              | u :: g' => (u, g')
              end;
  normal loc scale g := match g with
                        | [] => (loc, [])
                        | z :: g' => ((loc + scale * z)%Q, g')
                        end
}.

(** ** rnn/rnn_classify.py: SequenceIterator *)

Module SequenceIterator.
Import Torch.

Record t : Type := mk {
  bptt : Z;
  split_size : Z;
  random_length : option bool;   (* [None] is Python's [None] *)
  flatten_target : bool;
  batches : Tensor2;
  curr_iter : Z;
  curr_line : Z;
  total_lines : Z;
  total_iters : Z
}.

Definition __init__ (seq : list Z) (bptt split_size : Z)
    (random_length : option bool) (flatten_target : bool) : Py.result t :=
  n_batches <- Py.floordiv (Py.len seq) split_size ;;
  let truncated := Py.slice_to seq (n_batches * split_size) in
  viewed <- Torch.view truncated split_size ;;
  let batches := Torch.t viewed in
  let total_lines := Z.of_nat (rows batches) in
  q <- Py.floordiv total_lines bptt ;;
  Py.Ok (mk bptt split_size random_length flatten_target batches
            0 0 total_lines (q - 1)).

Definition completed (self : t) : bool :=
  if curr_line self >=? total_lines self - 1 then true
  else if curr_iter self >=? total_iters self then true
  else false.

Definition __iter__ (self : t) : t :=
  mk (bptt self) (split_size self) (random_length self)
     (flatten_target self) (batches self) 0 0
     (total_lines self) (total_iters self).

Definition get_sequence_length {G} {R : NumpyRandom G} (self : t) (g : G)
    : Z * G :=
  match random_length self with
  | None => (bptt self, g)
  | Some _ =>
      let (u, g1) := random g in
      let bptt' := if Qle_bool (95 # 100) u
                   then (inject_Z (bptt self) / 2)%Q
                   else inject_Z (bptt self) in
      let (x, g2) := normal bptt' 5 g1 in
      (Z.max 5 (Py.int x), g2)
  end.

Definition get_batch (self : t) (seq_len : Z) : Tensor2 * Tensor :=
  let i := curr_line self in
  let source := batches self in
  let seq_len := Z.min seq_len (total_lines self - 1 - i) in
  let X := row_slice source i (i + seq_len) in
  let y := row_slice source (i + 1) ((i + 1) + seq_len) in
  (X, if flatten_target self then T1 (flatten y) else T2 y).

Definition advance (self : t) (seq_len : Z) : t :=
  mk (bptt self) (split_size self) (random_length self)
     (flatten_target self) (batches self)
     (curr_iter self + 1) (curr_line self + seq_len)
     (total_lines self) (total_iters self).

Definition next {G} {R : NumpyRandom G} (self : t) (g : G)
    : Py.result (Tensor2 * Tensor) * t * G :=
  if completed self then (Py.Raise Py.StopIteration, self, g)
  else
    let (seq_len, g') := get_sequence_length self g in
    let batch := get_batch self seq_len in
    (Py.Ok batch, advance self seq_len, g').

Definition __next__ {G} {R : NumpyRandom G} (self : t) (g : G) := next self g.

(** The state after [n] calls of [next]. *)
Fixpoint nexts {G} {R : NumpyRandom G} (n : nat) (self : t) (g : G) : t * G :=
  match n with
  | O => (self, g)
  | S n' => let '(_, self', g') := next self g in nexts n' self' g'
  end.

(** [for X, y in self]: the batches of one pass, taken until
    [StopIteration]; [fuel] bounds the number of calls. *)
Fixpoint drain {G} {R : NumpyRandom G} (fuel : nat) (self : t) (g : G)
    : option (list (Tensor2 * Tensor)) * t * G :=
  match next self g with
  | (Py.Raise _, self', g') => (Some [], self', g')
  | (Py.Ok b, self', g') =>
      match fuel with
      | O => (None, self', g')
      | S fuel' =>
          let '(r, self'', g'') := drain fuel' self' g' in
          (option_map (cons b) r, self'', g'')
      end
  end.

(** One pass needs no more calls than the cap on its iterations. *)
Definition traverse {G} {R : NumpyRandom G} (self : t) (g : G) :=
  drain (Z.to_nat (total_iters self)) (__iter__ self) g.

End SequenceIterator.

(** ** Floating-point numbers *)

(** The arithmetic that [core/loop.py] does on losses, over the type [F] of
    Python's [float]: the literals [0.0], [1] and [0.98], and [+], [-], [*]. *)
Class PyFloat (F : Type) : Type := {
  f0 : F;
  f1 : F;
  f098 : F;
  fadd : F -> F -> F;
  fsub : F -> F -> F;
  fmul : F -> F -> F
}.

(** Exact arithmetic: a float read as the rational it denotes, with no
    rounding. *)
#[export] Instance exact_float : PyFloat Q := {
  f0 := 0%Q;
  f1 := 1%Q;
  f098 := (98 # 100)%Q;
  fadd := Qplus;
  fsub := Qminus;
  fmul := Qmult
}.

(** IEEE 754 binary64, rounding to nearest: the arithmetic of CPython. *)
#[export] Instance binary64 : PyFloat PrimFloat.float := {
  f0 := 0%float;
  f1 := 1%float;
  f098 := 0x1.f5c28f5c28f5cp-1%float;
  fadd := PrimFloat.add;
  fsub := PrimFloat.sub;
  fmul := PrimFloat.mul
}.

(** ** The collaborators of the training loop *)

(** The model, the optimizer, the schedule and the loss function that a
    [Stepper] wraps, as the operations the loop calls on them. The parameters
    and their gradients live in the model; the optimizer and the backward
    pass update them there. The model is a callable with a state of its own,
    which a forward pass may change too. *)
Class Collaborators (X Y F : Type) : Type := {
  Model : Type;
  Optimizer : Type;
  Schedule : Type;
  Output : Type;
  LossTensor : Type;
  (** [model(x)], under [torch.set_grad_enabled(grad)] *)
  model_call : bool -> Model -> X -> Output * Model;
  (** [loss(out, y)] *)
  loss_call : Output -> Y -> LossTensor;
  (** [loss.item()] *)
  item : LossTensor -> F;
  (** [optimizer.zero_grad()] *)
  zero_grad : Optimizer -> Model -> Model;
  (** [loss.backward()] *)
  backward : LossTensor -> Model -> Model;
  (** [optimizer.step()] *)
  optimizer_step : Optimizer -> Model -> Optimizer * Model;
  (** [schedule.step()] *)
  schedule_step : Schedule -> Optimizer -> Schedule * Optimizer;
  (** [schedule.last_epoch] *)
  last_epoch : Schedule -> Z
}.

(** The calls that change a collaborator, as [Stepper.step] makes them. *)
Inductive mutation : Type :=
| ZeroGrad
| Backward
| OptimizerStep
| ScheduleStep.

(** ** core/loop.py: Stepper *)

Module Stepper.
Section WithCollaborators.
Context {X Y F : Type} {K : Collaborators X Y F}.

Record t : Type := mk {
  model : Model;
  optimizer : Optimizer;
  schedule : Schedule
}.

Definition __init__ (model : Model) (optimizer : Optimizer)
    (schedule : Schedule) : t :=
  if last_epoch schedule =? -1
  then let (schedule', optimizer') := schedule_step schedule optimizer in
       mk model optimizer' schedule'
  else mk model optimizer schedule.

(** [step] returns the loss of the batch, a float, with the stepper as the
    call leaves it and the mutating calls it made, in order. *)
Definition step (self : t) (x : X) (y : Y) (train : bool)
    : F * t * list mutation :=
  let (out, m0) := model_call train (model self) x in
  let loss := loss_call out y in
  if train then
    let m1 := zero_grad (optimizer self) m0 in
    let m2 := backward loss m1 in
    let (o3, m3) := optimizer_step (optimizer self) m2 in
    let (s4, o4) := schedule_step (schedule self) o3 in
    (item loss, mk m3 o4 s4, [ZeroGrad; Backward; OptimizerStep; ScheduleStep])
  else
    (item loss, mk m0 (optimizer self) (schedule self), []).

End WithCollaborators.
End Stepper.

(** ** core/loop.py: Phase *)

Module Phase.
Section WithData.
Context {X Y F : Type} {P : PyFloat F}.

Record t : Type := mk {
  name : string;
  dataset : list (X * Y);
  batch_num : Z;
  avg_loss : F
}.

Definition __init__ (name : string) (dataset : list (X * Y)) : t :=
  mk name dataset 0 f0.

End WithData.
Arguments t : clear implicits.
End Phase.

(** ** core/callbacks.py: CallbackGroup *)

(** The lifecycle events, with the epoch and the phase that the loop passes
    to the hook. *)
Inductive event (X Y F : Type) : Type :=
| training_start
| epoch_start (epoch : Z) (phase : Phase.t X Y F)
| batch_start (epoch : Z) (phase : Phase.t X Y F)
| batch_end (epoch : Z) (phase : Phase.t X Y F)
| epoch_end (epoch : Z) (phase : Phase.t X Y F)
| training_end.
Arguments training_start {X Y F}.
Arguments epoch_start {X Y F} epoch phase.
Arguments batch_start {X Y F} epoch phase.
Arguments batch_end {X Y F} epoch phase.
Arguments epoch_end {X Y F} epoch phase.
Arguments training_end {X Y F}.

Module CallbackGroup.
Section WithObservers.
Context {X Y F C : Type}.

(** Modelled from the spec: the [CallbackGroup] class of [core/callbacks.py],
    which [core/loop.py] imports and which is not among the sources. An
    observer has a state of its own and a handler; on an event the handler
    answers [None] when the observer does not implement the hook, and
    otherwise the observer's next state with its stop signal. *)
Record observer : Type := mk_observer {
  state : C;
  handler : event X Y F -> C -> option (C * bool)
}.

Definition t : Type := list observer.

(** Modelled from the spec: [CallbackGroup(callbacks)]; [None] is no
    observer. *)
Definition __init__ (callbacks : option (list observer)) : t :=
  match callbacks with
  | Some cbs => cbs
  | None => []
  end.

(** Modelled from the spec: the dispatch of one event to every observer, in
    registration order; an observer without the hook is skipped. The result
    is the group afterwards and whether any handler returned a stop signal. *)
Fixpoint invoke (ev : event X Y F) (self : t) : t * bool :=
  match self with
  | [] => ([], false)
  | o :: rest =>
      let (o', s) := match handler o ev (state o) with
                     | None => (o, false)
                     | Some (c', s) => (mk_observer c' (handler o), s)
                     end in
      let (rest', s') := invoke ev rest in
      (o' :: rest', s || s')
  end.

End WithObservers.
Arguments observer : clear implicits.
Arguments t : clear implicits.
End CallbackGroup.

(** ** core/loop.py: Loop *)

Module Loop.
Section WithCollaborators.
Context {X Y F C : Type} {P : PyFloat F} {K : Collaborators X Y F}.

Record t : Type := mk {
  stepper : Stepper.t;
  alpha : F;
  stop : bool
}.

(** [Loop(stepper, alpha=0.98)] *)
Definition __init__ (stepper : Stepper.t) (alpha : option F) : t :=
  mk stepper (match alpha with Some a => a | None => f098 end) false.

(** What [run] works on besides its phases: the loop itself, the callback
    group bound to it, and a journal of the events fired so far, each with
    the [stop] flag as the dispatch left it. *)
Record world : Type := mk_world {
  self : t;
  cb : CallbackGroup.t X Y F C;
  journal : list (event X Y F * bool)
}.

(** One call of a hook of the group. Modelled from the spec: when a handler
    returned a stop signal the group sets the [stop] flag of its loop. *)
Definition fire (ev : event X Y F) (w : world) : world :=
  let (cb', signal) := CallbackGroup.invoke ev (cb w) in
  let stop' := if signal then true else stop (self w) in
  mk_world (mk (stepper (self w)) (alpha (self w)) stop') cb'
           (journal w ++ [(ev, stop')]).

(** The body of [for x, y in phase.dataset]. *)
Definition run_batch (a : F) (epoch : Z) (is_training : bool)
    (st : Phase.t X Y F * world) (xy : X * Y) : Phase.t X Y F * world :=
  let (phase, w) := st in
  let (x, y) := xy in
  let phase := Phase.mk (Phase.name phase) (Phase.dataset phase)
                        (Phase.batch_num phase + 1) (Phase.avg_loss phase) in
  let w := fire (batch_start epoch phase) w in
  let '(loss, stepper', _) := Stepper.step (stepper (self w)) x y is_training in
  let w := mk_world (mk stepper' (alpha (self w)) (stop (self w)))
                    (cb w) (journal w) in
  let phase := Phase.mk (Phase.name phase) (Phase.dataset phase)
                        (Phase.batch_num phase)
                        (fadd (fmul (Phase.avg_loss phase) a)
                              (fmul loss (fsub f1 a))) in
  let w := fire (batch_end epoch phase) w in
  (phase, w).

(** The body of [for phase in phases]. *)
Definition run_phase (a : F) (epoch : Z) (phase : Phase.t X Y F) (w : world)
    : Phase.t X Y F * world :=
  let w := fire (epoch_start epoch phase) w in
  let is_training := String.eqb (Phase.name phase) "train" in
  let (phase, w) :=
    fold_left (run_batch a epoch is_training) (Phase.dataset phase)
              (phase, w) in
  let w := fire (epoch_end epoch phase) w in
  (phase, w).

(** [for phase in phases]: each phase is updated in place. *)
Fixpoint run_phases (a : F) (epoch : Z) (phases : list (Phase.t X Y F))
    (w : world) : list (Phase.t X Y F) * world :=
  match phases with
  | [] => ([], w)
  | phase :: rest =>
      let (phase', w) := run_phase a epoch phase w in
      let (rest', w) := run_phases a epoch rest w in
      (phase' :: rest', w)
  end.

(** [for epoch in range(epochs)], over the epochs still to run; a set
    [stop] flag breaks out of the loop. *)
Fixpoint run_epochs (a : F) (epochs : list Z)
    (st : list (Phase.t X Y F) * world) : list (Phase.t X Y F) * world :=
  match epochs with
  | [] => st
  | epoch :: rest =>
      if stop (self (snd st)) then st
      else run_epochs a rest (run_phases a epoch (fst st) (snd st))
  end.

(** [range(n)] *)
Definition range (n : Z) : list Z := map Z.of_nat (seq 0 (Z.to_nat n)).

(** [run] returns the phases and the world as it leaves them.
    [cb.set_loop(self)] binds the group to the loop: here the group and the
    loop travel together in the world that [fire] works on. *)
Definition run (self : t) (train_data valid_data : list (X * Y))
    (epochs : Z) (callbacks : option (list (CallbackGroup.observer X Y F C)))
    : list (Phase.t X Y F) * world :=
  let phases := [Phase.__init__ "train" train_data;
                 Phase.__init__ "valid" valid_data] in
  let cb := CallbackGroup.__init__ callbacks in
  let w := fire training_start (mk_world self cb []) in
  let a := alpha self in
  let (phases, w) := run_epochs a (range epochs) (phases, w) in
  let w := fire training_end w in
  (phases, w).

End WithCollaborators.
Arguments t {X Y F} {_}.
Arguments world {X Y F} C {_}.
End Loop.

(** ** Reading a journal *)

Inductive hook : Type :=
| TrainingStart
| EpochStart
| BatchStart
| BatchEnd
| EpochEnd
| TrainingEnd.

Section Journal.
Context {X Y F : Type}.

Definition hook_of (ev : event X Y F) : hook :=
  match ev with
  | training_start => TrainingStart
  | epoch_start _ _ => EpochStart
  | batch_start _ _ => BatchStart
  | batch_end _ _ => BatchEnd
  | epoch_end _ _ => EpochEnd
  | training_end => TrainingEnd
  end.

Definition epoch_of (ev : event X Y F) : option Z :=
  match ev with
  | epoch_start e _ | batch_start e _ | batch_end e _ | epoch_end e _ => Some e
  | training_start | training_end => None
  end.

Definition phase_of (ev : event X Y F) : option string :=
  match ev with
  | epoch_start _ p | batch_start _ p | batch_end _ p | epoch_end _ p =>
      Some (Phase.name p)
  | training_start | training_end => None
  end.

(** An event without the data of its phase: the hook, the epoch and the
    name of the phase. *)
Definition tag (ev : event X Y F) : hook * option Z * option string :=
  (hook_of ev, epoch_of ev, phase_of ev).

Definition tags (journal : list (event X Y F * bool))
    : list (hook * option Z * option string) :=
  map (fun entry => tag (fst entry)) journal.

(** The entries of a journal that belong to [epoch]. *)
Definition in_epoch (epoch : Z) (entry : event X Y F * bool) : bool :=
  match epoch_of (fst entry) with
  | Some e => e =? epoch
  | None => false
  end.

End Journal.

(** The events of one whole phase of [epoch] over [batches] batches: the
    start of the phase, a start and an end for each batch, the end of the
    phase. *)
Definition phase_tags (epoch : Z) (name : string) (batches : nat)
    : list (hook * option Z * option string) :=
  (EpochStart, Some epoch, Some name)
  :: concat (List.repeat [(BatchStart, Some epoch, Some name);
                          (BatchEnd, Some epoch, Some name)] batches)
  ++ [(EpochEnd, Some epoch, Some name)].

(** One step of the running loss: [avg_loss*a + loss*(1 - a)]. *)
Definition ema {F : Type} {P : PyFloat F} (a avg_loss loss : F) : F :=
  fadd (fmul avg_loss a) (fmul loss (fsub f1 a)).

(** ** Collaborators and observers for examples *)

(** Collaborators over batches with no content: the model, the optimizer and
    the schedule count the updates they received, and the loss of every
    batch is [c]. *)
Definition constant_loss {F : Type} (c : F) : Collaborators unit unit F := {|
  Model := Z;
  Optimizer := Z;
  Schedule := Z;
  Output := unit;
  LossTensor := unit;
  model_call := fun _ m _ => (tt, m);
  loss_call := fun _ _ => tt;
  item := fun _ => c;
  zero_grad := fun _ m => m;
  backward := fun _ m => m;
  optimizer_step := fun o m => (o + 1, m + 1);
  schedule_step := fun s o => (s + 1, o);
  last_epoch := fun s => s
|}.

(** A stepper over them, nothing updated yet. *)
Definition fresh_stepper {F : Type} (c : F)
    : @Stepper.t unit unit F (constant_loss c) :=
  @Stepper.mk unit unit F (constant_loss c) 0 0 0.

(** Collaborators whose model has a state of its own that every forward
    pass advances, as a layer that keeps running statistics does: the model
    is the number of forward passes made so far, and the loss of a batch is
    that number. The optimizer and the schedule count their updates. *)
Definition counting_forward : Collaborators unit unit Q := {|
  Model := Z;
  Optimizer := Z;
  Schedule := Z;
  Output := Z;
  LossTensor := Z;
  model_call := fun _ m _ => (m, m + 1);
  loss_call := fun out _ => out;
  item := fun t => inject_Z t;
  zero_grad := fun _ m => m;
  backward := fun _ m => m;
  optimizer_step := fun o m => (o + 1, m);
  schedule_step := fun s o => (s + 1, o);
  last_epoch := fun s => s
|}.

(** An observer with the batch-end hook only, which returns a stop signal at
    the end of every batch of [epoch]. *)
Definition stop_in_epoch {X Y F : Type} (epoch : Z)
    : CallbackGroup.observer X Y F unit :=
  CallbackGroup.mk_observer tt
    (fun ev _ => match ev with
                 | batch_end e _ => Some (tt, e =? epoch)
                 | _ => None
                 end).

(** ** Invariants *)

(** The lane matrix that the constructor of [SequenceIterator] builds from
    [seq] for [lanes > 0]. *)
Definition lane_matrix (seq : list Z) (lanes : Z) : Torch.Tensor2 :=
  let lines := Py.len seq / lanes in
  Torch.t (Torch.mkTensor2 (Z.to_nat lanes) (Z.to_nat lines)
                           (firstn (Z.to_nat (lines * lanes)) seq)).

(** What the constructor of [SequenceIterator] establishes and [__iter__]
    and [next] keep. *)
Record constructed (it : SequenceIterator.t) : Prop := {
  c_wf : Torch.wf (SequenceIterator.batches it);
  c_lines : SequenceIterator.total_lines it
            = Z.of_nat (Torch.rows (SequenceIterator.batches it));
  c_bptt : SequenceIterator.bptt it <> 0;
  c_iters : SequenceIterator.total_iters it
            = SequenceIterator.total_lines it / SequenceIterator.bptt it - 1;
  c_iter : 0 <= SequenceIterator.curr_iter it;
  c_line : 0 <= SequenceIterator.curr_line it
}.

Section LoopInvariants.
Context {X Y F C : Type} {P : PyFloat F} {K : Collaborators X Y F}.

(** Every entry recorded with a set flag is followed by a set flag: the
    flag, once set, is still set. *)
Definition flagged (w : Loop.world C) : Prop :=
  forall ev, In (ev, true) (Loop.journal w) -> Loop.stop (Loop.self w) = true.

(** [w'] comes from [w] by firing, within [epoch], events with the tags
    [tgs]; a set flag stays set. *)
Definition fires (epoch : Z) (tgs : list (hook * option Z * option string))
    (w w' : Loop.world C) : Prop :=
  (exists J,
     Loop.journal w' = Loop.journal w ++ J /\
     Forall (fun entry => epoch_of (fst entry) = Some epoch) J /\
     tags J = tgs) /\
  (flagged w -> flagged w') /\
  (Loop.stop (Loop.self w) = true -> Loop.stop (Loop.self w') = true).

(** Two lists of phases with the same names over the same datasets. *)
Definition same_shape (ps ps' : list (Phase.t X Y F)) : Prop :=
  map (fun p => (Phase.name p, Phase.dataset p)) ps
  = map (fun p => (Phase.name p, Phase.dataset p)) ps'.

(** The events of one whole epoch: each phase in turn, whole. *)
Definition epoch_tags (epoch : Z) (ps : list (Phase.t X Y F))
    : list (hook * option Z * option string) :=
  concat (map (fun p => phase_tags epoch (Phase.name p)
                          (length (Phase.dataset p))) ps).

End LoopInvariants.

(** * The rest of rnn/rnn_classify.py *)

(** ** More of Python *)

Module Exc.

(** The exceptions that the functions below can raise. *)
Inductive t : Type :=
| ZeroDivisionError
| ValueError
| IndexError
| AssertionError
| AttributeError.

Inductive result (A : Type) : Type :=
| Done (a : A)
| Fail (e : t).
Arguments Done {A} a.
Arguments Fail {A} e.

Definition bind {A B : Type} (r : result A) (k : A -> result B) : result B :=
  match r with
  | Done a => k a
  | Fail e => Fail e
  end.

(** [[f(x) for x in l]], for an [f] that may raise: the first exception ends
    the comprehension. *)
Fixpoint for_each {A B : Type} (f : A -> result B) (l : list A)
    : result (list B) :=
  match l with
  | [] => Done []
  | x :: rest =>
      bind (f x) (fun y => bind (for_each f rest) (fun ys => Done (y :: ys)))
  end.

(** [a // b] *)
Definition floordiv (a b : Z) : result Z :=
  if b =? 0 then Fail ZeroDivisionError else Done (a / b).

(** [list(range(start, stop, step))] *)
Definition range (start stop step : Z) : result (list Z) :=
  if step =? 0 then Fail ValueError
  else
    let n := if 0 <? step then (stop - start + step - 1) / step
             else (start - stop - step - 1) / (- step) in
    Done (map (fun k => start + Z.of_nat k * step) (seq 0 (Z.to_nat n))).

(** [l[i]] for a list: a negative index counts from the end. *)
Definition getitem {A : Type} (l : list A) (i : Z) : result A :=
  let j := if i <? 0 then i + Py.len l else i in
  if j <? 0 then Fail IndexError
  else match nth_error l (Z.to_nat j) with
       | Some x => Done x
       | None => Fail IndexError
       end.

End Exc.

(** ** split_into, tokenize, tokenize_in_parallel *)

(** [[arr[i:i + n] for i in range(0, len(arr), n)]] *)
Definition split_into {A : Type} (arr : list A) (n : Z)
    : Exc.result (list (list A)) :=
  Exc.bind (Exc.range 0 (Py.len arr) n)
           (fun starts => Exc.Done (map (fun i => Py.slice arr i (i + n)) starts)).

Module SpacyTokenizer.

(** The rules rewrite a text in turn; [tokenizer] is spaCy's, with the
    special tokens registered, from a text to the texts of its tokens. *)
Record t : Type := mk {
  rules : list (string -> string);
  tokenizer : string -> list string
}.

(** [SpacyTokenizer(lang, rules, special_tokens)], given the tokenizer that
    [spacy.load(lang)] provides: [rules or []]. *)
Definition __init__ (spacy : string -> list string)
    (rules : option (list (string -> string))) : t :=
  mk (match rules with Some rs => rs | None => [] end) spacy.

Definition tokenize (self : t) (text : string) : list string :=
  tokenizer self (fold_left (fun text rule => rule text) (rules self) text).

End SpacyTokenizer.

(** [tokenize(texts)], with [tok] the [SpacyTokenizer()] it builds. *)
Definition tokenize (tok : SpacyTokenizer.t) (texts : list string)
    : list (list string) :=
  map (SpacyTokenizer.tokenize tok) texts.

(** [tokenize_in_parallel(texts)], for [cpu_count() = n_workers]. [Pool(n)]
    refuses [n < 1]; [pool.map] keeps the order of the parts; [sum(results,
    [])] chains them. *)
Definition tokenize_in_parallel (tok : SpacyTokenizer.t) (n_workers : Z)
    (texts : list string) : Exc.result (list (list string)) :=
  Exc.bind (Exc.floordiv (Py.len texts) n_workers) (fun q =>
  Exc.bind (split_into texts (q + 1)) (fun parts =>
  if n_workers <? 1 then Exc.Fail Exc.ValueError
  else
    let results := map (tokenize tok) parts in
    Exc.Done (concat results))).

(** ** Dictionaries with string keys *)

Module Dict.

(** The items of a [dict], in insertion order; a key occurs once. *)
Definition t (V : Type) : Type := list (string * V).

Fixpoint get {V : Type} (d : t V) (k : string) : option V :=
  match d with
  | [] => None
  | (k', v) :: rest => if String.eqb k' k then Some v else get rest k
  end.

(** [d[k] = v]: a new key goes last, a known key keeps its place. *)
Fixpoint set {V : Type} (k : string) (v : V) (d : t V) : t V :=
  match d with
  | [] => [(k, v)]
  | (k', v') :: rest =>
      if String.eqb k' k then (k', v) :: rest else (k', v') :: set k v rest
  end.

End Dict.

(** ** Vocab *)

Definition BOS : string := "xxbox".
Definition FLD : string := "xxfld".
Definition UNK : string := "xxunk".
Definition PAD : string := "xxpad".
Definition SPECIAL_TOKENS : list string := [BOS; FLD; UNK; PAD].

(** [list(enumerate(l))] *)
Definition enumerate {A : Type} (l : list A) : list (Z * A) :=
  combine (map Z.of_nat (seq 0 (length l))) l.

(** [Counter(items)]: the count of each item, in order of first
    occurrence. *)
Definition Counter (items : list string) : Dict.t Z :=
  fold_left (fun d x => Dict.set x (match Dict.get d x with
                                    | Some c => c + 1
                                    | None => 1
                                    end) d)
            items [].

(** One step of a stable sort by decreasing count: [x], which comes before
    all of [l] in the input, goes before the first item that does not have a
    greater count. *)
Fixpoint insert_by_count (x : string * Z) (l : list (string * Z))
    : list (string * Z) :=
  match l with
  | [] => [x]
  | y :: rest =>
      if snd y <=? snd x then x :: y :: rest
      else y :: insert_by_count x rest
  end.

(** [sorted(items, key=itemgetter(1), reverse=True)]: the sort is stable,
    so its result is the one of any stable sort. *)
Definition sorted_by_count (items : list (string * Z)) : list (string * Z) :=
  fold_right insert_by_count [] items.

(** [counter.most_common(n)] for an integer [n]: the [n] first items of the
    sorted list, none for [n <= 0]. *)
Definition most_common (counter : Dict.t Z) (n : Z) : list (string * Z) :=
  firstn (Z.to_nat n) (sorted_by_count counter).

(** [l.remove(x)] for an [x] that is in [l]: the first occurrence goes. *)
Fixpoint remove_first (x : string) (l : list string) : list string :=
  match l with
  | [] => []
  | y :: rest => if String.eqb y x then rest else y :: remove_first x rest
  end.

Module Vocab.

(** [stoi] is a [defaultdict(int)]. *)
Record t : Type := mk {
  itos : list string;
  stoi : Dict.t Z;
  size : Z
}.

Definition __init__ (itos : list string) : t :=
  mk itos
     (fold_left (fun d kv => Dict.set (snd kv) (fst kv) d) (enumerate itos) [])
     (Py.len itos).

(** [self.stoi[token]]: a missing key is entered with the value [int()],
    which is 0, and that value is returned. *)
Definition lookup (self : t) (token : string) : Z * t :=
  match Dict.get (stoi self) token with
  | Some i => (i, self)
  | None => (0, mk (itos self) (Dict.set token 0 (stoi self)) (size self))
  end.

(** [[self.stoi[token] for token in text]] *)
Fixpoint numericalize_text (self : t) (text : list string) : list Z * t :=
  match text with
  | [] => ([], self)
  | token :: rest =>
      let (i, self) := lookup self token in
      let (ids, self) := numericalize_text self rest in
      (i :: ids, self)
  end.

(** [numericalize(texts)]: one array of ids for each text. *)
Fixpoint numericalize (self : t) (texts : list (list string))
    : list (list Z) * t :=
  match texts with
  | [] => ([], self)
  | text :: rest =>
      let (ids, self) := numericalize_text self text in
      let (arrays, self) := numericalize self rest in
      (ids :: arrays, self)
  end.

(** [textify(tokens)] *)
Definition textify (self : t) (tokens : list Z) : Exc.result string :=
  Exc.bind (Exc.for_each (Exc.getitem (itos self)) tokens)
           (fun words => Exc.Done (String.concat " " words)).

Definition textify_all (self : t) (samples : list (list Z))
    : Exc.result (list string) :=
  Exc.for_each (textify self) samples.

(** [make_vocab(tokens, min_freq, max_vocab, pad, unknown)]; the defaults
    are 3, 60000, [PAD] and [UNK]. *)
Definition make_vocab (tokens : list (list string)) (min_freq max_vocab : Z)
    (pad unknown : string) : t :=
  let freq := Counter (concat tokens) in
  let most_common := most_common freq max_vocab in
  let itos := map fst (filter (fun tc => min_freq <? snd tc) most_common) in
  let itos := pad :: itos in
  let itos := if existsb (String.eqb unknown) itos
              then remove_first unknown itos
              else itos in
  let itos := unknown :: itos in
  __init__ itos.

End Vocab.

(** The id that a vocabulary over [itos] gives to [token]: the last place of
    the token in [itos], and 0 for a token that is not there. *)
Definition id_of (itos : list string) (token : string) : Z :=
  fold_left (fun acc kv => if String.eqb (snd kv) token then fst kv else acc)
            (enumerate itos) 0.

(** The value that a [defaultdict(int)] answers for [k], entered or not. *)
Definition answer (d : Dict.t Z) (k : string) : Z :=
  match Dict.get d k with
  | Some i => i
  | None => 0
  end.

(** The dictionary of a vocabulary answers [id_of] for every token. *)
Definition tracks (v : Vocab.t) : Prop :=
  forall token, answer (Vocab.stoi v) token = id_of (Vocab.itos v) token.

(** The number of times [token] occurs in the tokenized texts. *)
Definition occurrences (tokens : list (list string)) (token : string) : Z :=
  Z.of_nat (count_occ string_dec (concat tokens) token).

(** By decreasing count. *)
Definition by_count (x y : string * Z) : Prop := snd y <= snd x.

(** The frequent tokens that [make_vocab] keeps, before it adds [pad] and
    [unknown]: the tokens of the [max_vocab] most common items that occur
    more than [min_freq] times. *)
Definition frequent (tokens : list (list string)) (min_freq max_vocab : Z)
    : list string :=
  map fst (filter (fun tc => min_freq <? snd tc)
                  (most_common (Counter (concat tokens)) max_vocab)).

(** ** ImdbDataset *)

Definition CLASSES : list string := ["neg"; "pos"; "unsup"]%string.

(** What the constructor needs of [pathlib]: [path / name], and the texts
    [[f.open('r').read() for f in folder.glob('*.txt')]] of a folder, in the
    order of [glob]. *)
Class FileSystem (Path : Type) : Type := {
  joinpath : Path -> string -> Path;
  read_txt : Path -> list string
}.

(** [list(text)] for a [str]: its characters, each a string. *)
Definition chars (text : string) : list string :=
  map (fun ch => String ch EmptyString) (list_ascii_of_string text).

(** [obj.name] for an attribute that only some paths of the constructor
    set. *)
Definition attr {A : Type} (o : option A) : Exc.result A :=
  match o with
  | Some a => Exc.Done a
  | None => Exc.Fail Exc.AttributeError
  end.

Module ImdbDataset.

Section WithFiles.
Context {Path : Type} {FS : FileSystem Path}.

Record t : Type := mk {
  root : Path;
  train : bool;
  supervised : bool;
  train_labels : option (list Z);
  test_labels : option (list Z);
  vocab : Vocab.t;
  train_data : option (list (list Z));
  test_data : option (list (list Z))
}.

(** What [__getitem__] returns: a pair of an array and a label, or an
    array. *)
Inductive item : Type :=
| Labelled (ids : list Z) (label : Z)
| Plain (ids : list Z).

(** The loop over [enumerate(CLASSES)] of the supervised case. *)
Definition labelled_texts (subfolder : Path) : list string * list Z :=
  fold_left
    (fun (acc : list string * list Z) (il : Z * string) =>
       let (texts, labels) := acc in
       let (index, label) := il in
       if String.eqb label "unsup" then (texts, labels)
       else
         let files := read_txt (joinpath subfolder label) in
         (texts ++ files, labels ++ map (fun _ => index) files))
    (enumerate CLASSES) ([], []).

(** The loop over [CLASSES] of the other case. *)
Definition plain_texts (subfolder : Path) : list string :=
  fold_left (fun texts label => texts ++ read_txt (joinpath subfolder label))
            CLASSES [].

(** [tokenizer], or [lambda x: x] for [None]: the vocabulary then reads each
    text character by character. *)
Definition tokenizer_or_default
    (tokenizer : option (list string -> Exc.result (list (list string))))
    : list string -> Exc.result (list (list string)) :=
  match tokenizer with
  | Some f => f
  | None => fun texts => Exc.Done (map chars texts)
  end.

(** [ImdbDataset(root, train, supervised, tokenizer, vocab, make_vocab)]. A
    [Vocab] and a function are both true for [assert] and [if]. *)
Definition __init__ (root : Path) (train supervised : bool)
    (tokenizer : option (list string -> Exc.result (list (list string))))
    (vocab : option Vocab.t)
    (make_vocab : option (list (list string) -> Vocab.t)) : Exc.result t :=
  if match vocab, make_vocab with None, None => false | _, _ => true end
  then
    let subfolder := joinpath root (if train then "train" else "test") in
    let tokenizer := tokenizer_or_default tokenizer in
    let (texts, labels) :=
      if supervised then labelled_texts subfolder
      else (plain_texts subfolder, []) in
    Exc.bind (tokenizer texts) (fun tokens =>
    let vocab := match make_vocab with
                 | Some f => Some (f tokens)
                 | None => vocab
                 end in
    Exc.bind (attr vocab) (fun vocab =>
    let (num_tokens, vocab) := Vocab.numericalize vocab tokens in
    Exc.Done
      (mk root train supervised
          (if supervised && train then Some labels else None)
          (if supervised && negb train then Some labels else None)
          vocab
          (if train then Some num_tokens else None)
          (if train then None else Some num_tokens))))
  else Exc.Fail Exc.AssertionError.

Definition __getitem__ (self : t) (index : Z) : Exc.result item :=
  if train self && supervised self then
    Exc.bind (attr (train_data self)) (fun data =>
    Exc.bind (Exc.getitem data index) (fun ids =>
    Exc.bind (attr (train_labels self)) (fun labels =>
    Exc.bind (Exc.getitem labels index) (fun label =>
    Exc.Done (Labelled ids label)))))
  else if train self && negb (supervised self) then
    Exc.bind (attr (train_data self)) (fun data =>
    Exc.bind (Exc.getitem data index) (fun ids => Exc.Done (Plain ids)))
  else if negb (train self) && supervised self then
    Exc.bind (attr (test_data self)) (fun data =>
    Exc.bind (Exc.getitem data index) (fun ids =>
    Exc.bind (attr (test_labels self)) (fun labels =>
    Exc.bind (Exc.getitem labels index) (fun label =>
    Exc.Done (Labelled ids label)))))
  else
    Exc.bind (attr (test_data self)) (fun data =>
    Exc.bind (Exc.getitem data index) (fun ids => Exc.Done (Plain ids))).

Definition __len__ (self : t) : Exc.result Z :=
  Exc.bind (attr (if train self then train_data self else test_data self))
           (fun data => Exc.Done (Py.len data)).

End WithFiles.

End ImdbDataset.

(** ** to_sequence, concat *)

Module Sequences.

(** [concat(arrays)]: [arrays[0].dtype] is read first. *)
Definition concat (arrays : list (list Z)) : Exc.result (list Z) :=
  Exc.bind (Exc.getitem arrays 0) (fun _ =>
  Exc.Done (fold_left (fun seq arr => seq ++ arr) arrays [])).

(** [to_sequence(dataset)] *)
Definition to_sequence {Path : Type} (dataset : @ImdbDataset.t Path)
    : Exc.result (list Z) :=
  Exc.bind (attr (if ImdbDataset.train dataset
                  then ImdbDataset.train_data dataset
                  else ImdbDataset.test_data dataset))
           concat.

End Sequences.

(** A file system for examples: under any root, two negative reviews, one
    positive review and one review without a label in [train], and nothing
    in [test]. A path is the list of its parts. *)
#[export] Instance four_reviews : FileSystem (list string) := {
  joinpath := fun path name => path ++ [name];
  read_txt := fun folder =>
    match rev folder with
    | "neg" :: "train" :: _ => ["bad"; "dull"]
    | "pos" :: "train" :: _ => ["good"]
    | "unsup" :: "train" :: _ => ["odd"]
    | _ => []
    end%string
}.

(** ** Reading a batch *)

(** Item [(k, j)] of a target of [c] lanes, flattened or not. *)
Definition target_item (y : Torch.Tensor) (c k j : nat) : Z :=
  match y with
  | Torch.T1 v => nth (k * c + j) v 0
  | Torch.T2 m => Torch.get m k j
  end.

(** The rows of the inputs of a list of batches, chained. *)
Definition input_rows (bs : list (Torch.Tensor2 * Torch.Tensor)) : list Z :=
  concat (map (fun b => Torch.data (fst b)) bs).

(** The number of rows of the inputs of a list of batches. *)
Definition input_height (bs : list (Torch.Tensor2 * Torch.Tensor)) : Z :=
  fold_right (fun b n => Z.of_nat (Torch.rows (fst b)) + n) 0 bs.

(** ** Observers that never ask to stop *)

(** No handler of the group ever returns a stop signal. *)
Definition quiet {X Y F C : Type} (cbs : CallbackGroup.t X Y F C) : Prop :=
  Forall (fun o => forall ev c c' s,
                     CallbackGroup.handler o ev c = Some (c', s) -> s = false)
         cbs.

(** The events of the epochs [epochs], each with a whole train phase over
    [n_train] batches and a whole valid phase over [n_valid] batches. *)
Definition epochs_tags (epochs : list Z) (n_train n_valid : nat)
    : list (hook * option Z * option string) :=
  concat (map (fun e => phase_tags e "train" n_train
                        ++ phase_tags e "valid" n_valid) epochs).

(** The loop has not been asked to stop, and will not be. *)
Definition calm {X Y F C : Type} {K : Collaborators X Y F}
    (w : Loop.world C) : Prop :=
  quiet (Loop.cb w) /\ Loop.stop (Loop.self w) = false.




(** [p'] is the phase [p] after [n] more batches of loss [c] each. *)
Definition averaged {X Y F : Type} {P : PyFloat F} (a c : F) (n : nat)
    (p p' : Phase.t X Y F) : Prop :=
  Phase.name p' = Phase.name p /\
  Phase.dataset p' = Phase.dataset p /\
  Phase.avg_loss p' = Nat.iter n (fun r => ema a r c) (Phase.avg_loss p).

(** * Properties *)

(** ** Lists laid out as grids *)

Section Grid.
Local Open Scope nat_scope.
Variable A : Type.

Lemma nth_map_seq (g : nat -> A) (a c j : nat) (d : A) :
  j < c -> nth j (map g (seq a c)) d = g (a + j).
Proof.
  intros Hj.
  rewrite (nth_indep _ d (g 0)) by (rewrite length_map, length_seq; exact Hj).
  rewrite map_nth, seq_nth by exact Hj.
  reflexivity.
Qed.

Lemma grid_length (f : nat -> nat -> A) (c r a : nat) :
  length (flat_map (fun i => map (f i) (seq 0 c)) (seq a r)) = r * c.
Proof.
  revert a; induction r as [|r IH]; intros a; simpl.
  - reflexivity.
  - rewrite length_app, length_map, length_seq, IH. reflexivity.
Qed.

Lemma grid_nth_from (f : nat -> nat -> A) (c r a i j : nat) (d : A) :
  i < r -> j < c ->
  nth (i * c + j) (flat_map (fun i => map (f i) (seq 0 c)) (seq a r)) d
  = f (a + i) j.
Proof.
  revert a i; induction r as [|r IH]; intros a i Hi Hj; [lia|].
  simpl. destruct i as [|i].
  - rewrite app_nth1 by (rewrite length_map, length_seq; simpl; lia).
    simpl. rewrite nth_map_seq by exact Hj. f_equal; lia.
  - rewrite app_nth2 by (rewrite length_map, length_seq; simpl; lia).
    rewrite length_map, length_seq.
    replace (S i * c + j - c) with (i * c + j) by (simpl; lia).
    rewrite IH by lia. f_equal; lia.
Qed.

Lemma grid_nth (f : nat -> nat -> A) (c r i j : nat) (d : A) :
  i < r -> j < c ->
  nth (i * c + j) (flat_map (fun i => map (f i) (seq 0 c)) (seq 0 r)) d
  = f i j.
Proof. intros Hi Hj. rewrite grid_nth_from by assumption. reflexivity. Qed.

(** A position [k] of a grid of [r] rows of [c] items, as a row and a
    column. *)
Lemma grid_position (c r k : nat) :
  k < r * c -> k = (k / c) * c + k mod c /\ k / c < r /\ k mod c < c.
Proof.
  intros Hk.
  assert (Hc : c <> 0) by (intros ->; lia).
  split; [|split].
  - pose proof (Nat.div_mod_eq k c). lia.
  - apply Nat.Div0.div_lt_upper_bound. lia.
  - apply Nat.mod_upper_bound. exact Hc.
Qed.

End Grid.

(** ** Slices and tensors *)

Lemma slice_bound_inside (n i : Z) :
  0 <= i <= n -> Py.slice_bound n i = Z.to_nat i.
Proof.
  intros Hi. unfold Py.slice_bound.
  destruct (Z.ltb_spec i 0); [lia|]. f_equal; lia.
Qed.

Lemma slice_to_firstn (A : Type) (l : list A) (k : Z) :
  0 <= k <= Py.len l -> Py.slice_to l k = firstn (Z.to_nat k) l.
Proof.
  intros Hk. unfold Py.slice_to, Py.slice.
  rewrite !slice_bound_inside by (unfold Py.len in *; lia).
  simpl. rewrite Nat.sub_0_r. reflexivity.
Qed.

Lemma t_wf (m : Torch.Tensor2) : Torch.wf (Torch.t m).
Proof. unfold Torch.wf, Torch.t; simpl. apply grid_length. Qed.

Lemma get_t (m : Torch.Tensor2) (i j : nat) :
  (i < Torch.cols m)%nat -> (j < Torch.rows m)%nat ->
  Torch.get (Torch.t m) i j = Torch.get m j i.
Proof.
  intros Hi Hj. unfold Torch.get at 1, Torch.t; simpl.
  rewrite (grid_nth (fun i j => Torch.get m j i)) by assumption.
  reflexivity.
Qed.

Section RowSlice.
Variable m : Torch.Tensor2.
Variables a b : Z.
Hypothesis m_wf : Torch.wf m.
Hypothesis a_b : 0 <= a <= b.
Hypothesis b_rows : b <= Z.of_nat (Torch.rows m).

Lemma row_slice_rows :
  Torch.rows (Torch.row_slice m a b) = Z.to_nat (b - a).
Proof.
  unfold Torch.row_slice; simpl.
  rewrite !slice_bound_inside by lia. lia.
Qed.

Lemma row_slice_cols : Torch.cols (Torch.row_slice m a b) = Torch.cols m.
Proof. reflexivity. Qed.

Lemma row_slice_wf : Torch.wf (Torch.row_slice m a b).
Proof.
  unfold Torch.wf. rewrite row_slice_rows, row_slice_cols.
  unfold Torch.row_slice; simpl.
  rewrite !slice_bound_inside by lia.
  rewrite length_firstn, length_skipn, m_wf. nia.
Qed.

Lemma get_row_slice (k j : nat) :
  (k < Z.to_nat (b - a))%nat -> (j < Torch.cols m)%nat ->
  Torch.get (Torch.row_slice m a b) k j = Torch.get m (Z.to_nat a + k) j.
Proof.
  intros Hk Hj. unfold Torch.get, Torch.row_slice; simpl.
  rewrite !slice_bound_inside by lia.
  rewrite nth_firstn.
  destruct (Nat.ltb_spec (k * Torch.cols m + j)
              ((Z.to_nat b - Z.to_nat a) * Torch.cols m)) as [_|Hge];
    [|nia].
  rewrite nth_skipn. f_equal. lia.
Qed.

End RowSlice.

(** ** SequenceIterator: construction *)

Module SI := SequenceIterator.

Lemma lines_bounds (n lanes : Z) :
  0 <= n -> 0 < lanes -> 0 <= n / lanes /\ 0 <= n / lanes * lanes <= n.
Proof.
  intros Hn Hl.
  pose proof (Z.div_pos n lanes Hn Hl).
  pose proof (Z.mul_div_le n lanes Hl). lia.
Qed.

(** The constructor, case by case: which call raises, and the object built
    when none does. *)
Lemma init_cases (seq : list Z) (bptt lanes : Z) (rl : option bool)
    (ft : bool) :
  SI.__init__ seq bptt lanes rl ft =
  if lanes =? 0 then Py.Raise Py.ZeroDivisionError
  else if lanes <? 0 then Py.Raise Py.RuntimeError
  else if bptt =? 0 then Py.Raise Py.ZeroDivisionError
  else Py.Ok (SI.mk bptt lanes rl ft (lane_matrix seq lanes) 0 0
                (Py.len seq / lanes) (Py.len seq / lanes / bptt - 1)).
Proof.
  unfold SI.__init__, Py.floordiv.
  destruct (Z.eqb_spec lanes 0) as [|Hl0]; [reflexivity|].
  cbn [Py.bind]. unfold Torch.view.
  destruct (Z.ltb_spec lanes 0) as [Hneg|Hpos].
  - destruct (Z.leb_spec lanes 0); [reflexivity|lia].
  - destruct (Z.leb_spec lanes 0); [lia|].
    assert (Hlen : 0 <= Py.len seq) by (unfold Py.len; lia).
    destruct (lines_bounds Hlen (lanes := lanes)) as [Hq Hql]; [lia|].
    rewrite slice_to_firstn by lia.
    assert (Htr : Py.len (firstn (Z.to_nat (Py.len seq / lanes * lanes)) seq)
                  = Py.len seq / lanes * lanes).
    { unfold Py.len in *. rewrite length_firstn. lia. }
    rewrite Htr, Z.mod_mul by lia. cbn [Z.eqb Py.bind].
    rewrite Z.div_mul by lia.
    cbn [Torch.rows Torch.cols Torch.t]. rewrite Z2Nat.id by lia.
    destruct (Z.eqb_spec bptt 0); reflexivity.
Qed.

Lemma lane_matrix_rows (seq : list Z) (lanes : Z) :
  Torch.rows (lane_matrix seq lanes) = Z.to_nat (Py.len seq / lanes).
Proof. reflexivity. Qed.

Lemma lane_matrix_cols (seq : list Z) (lanes : Z) :
  Torch.cols (lane_matrix seq lanes) = Z.to_nat lanes.
Proof. reflexivity. Qed.

Lemma lane_matrix_wf (seq : list Z) (lanes : Z) :
  Torch.wf (lane_matrix seq lanes).
Proof. apply t_wf. Qed.

(** Read column by column, the lane matrix is the truncated sequence. *)
Lemma lane_matrix_column_major (seq : list Z) (lanes : Z) :
  0 < lanes ->
  Torch.flatten_column_major (lane_matrix seq lanes)
  = firstn (Z.to_nat (Py.len seq / lanes * lanes)) seq.
Proof.
  intros Hl.
  assert (Hlen : 0 <= Py.len seq) by (unfold Py.len; lia).
  destruct (lines_bounds Hlen Hl) as [Hq Hql].
  set (n := Z.to_nat (Py.len seq / lanes)).
  set (L := Z.to_nat lanes).
  set (tr := firstn (Z.to_nat (Py.len seq / lanes * lanes)) seq).
  assert (Htr : length tr = (L * n)%nat).
  { unfold tr, L, n, Py.len in *. rewrite length_firstn. nia. }
  unfold Torch.flatten_column_major.
  rewrite lane_matrix_rows, lane_matrix_cols. fold n L.
  apply (nth_ext _ _ 0 0).
  - rewrite grid_length. symmetry. exact Htr.
  - intros k Hk. rewrite grid_length in Hk.
    destruct (@grid_position n L k Hk) as (Hkeq & Hrow & Hcol).
    rewrite Hkeq at 1.
    rewrite (grid_nth (fun j i => Torch.get (lane_matrix seq lanes) i j))
      by assumption.
    unfold lane_matrix. rewrite get_t by (simpl; assumption).
    unfold Torch.get; simpl. fold n tr. rewrite <- Hkeq. reflexivity.
Qed.

(** ** SequenceIterator: the invariant of a constructed iterator *)

Lemma init_inversion (seq : list Z) (bptt lanes : Z) (rl : option bool)
    (ft : bool) (it : SI.t) :
  SI.__init__ seq bptt lanes rl ft = Py.Ok it ->
  0 < lanes /\ bptt <> 0 /\
  it = SI.mk bptt lanes rl ft (lane_matrix seq lanes) 0 0
         (Py.len seq / lanes) (Py.len seq / lanes / bptt - 1).
Proof.
  rewrite init_cases.
  destruct (Z.eqb_spec lanes 0); [discriminate|].
  destruct (Z.ltb_spec lanes 0); [discriminate|].
  destruct (Z.eqb_spec bptt 0); [discriminate|].
  intros [= <-]. repeat split; [lia|assumption].
Qed.

Lemma init_constructed (seq : list Z) (bptt lanes : Z) (rl : option bool)
    (ft : bool) (it : SI.t) :
  SI.__init__ seq bptt lanes rl ft = Py.Ok it -> constructed it.
Proof.
  intros Hinit. apply init_inversion in Hinit as (Hl & Hb & ->).
  assert (Hlen : 0 <= Py.len seq) by (unfold Py.len; lia).
  destruct (lines_bounds Hlen Hl) as [Hq _].
  constructor; cbn [SI.batches SI.total_lines SI.bptt SI.total_iters
                    SI.curr_iter SI.curr_line]; try lia.
  - apply t_wf.
  - rewrite lane_matrix_rows. lia.
Qed.

Lemma iter_constructed (it : SI.t) :
  constructed it -> constructed (SI.__iter__ it).
Proof. intros []; constructor; simpl; auto; lia. Qed.

Lemma completed_true_iff (it : SI.t) :
  SI.completed it = true <->
  SI.curr_line it >= SI.total_lines it - 1 \/
  SI.curr_iter it >= SI.total_iters it.
Proof.
  unfold SI.completed.
  destruct (Z.geb_spec (SI.curr_line it) (SI.total_lines it - 1));
    destruct (Z.geb_spec (SI.curr_iter it) (SI.total_iters it));
    split; intros; try discriminate; try reflexivity; lia.
Qed.

Lemma completed_false_iff (it : SI.t) :
  SI.completed it = false <->
  SI.curr_line it < SI.total_lines it - 1 /\
  SI.curr_iter it < SI.total_iters it.
Proof.
  pose proof (completed_true_iff it) as Ht.
  destruct (SI.completed it); split; intros H.
  - discriminate.
  - destruct Ht as [Ht _]. specialize (Ht eq_refl). lia.
  - destruct (Z_lt_ge_dec (SI.curr_line it) (SI.total_lines it - 1));
      destruct (Z_lt_ge_dec (SI.curr_iter it) (SI.total_iters it));
      try lia; destruct Ht as [_ Ht]; discriminate Ht; auto.
  - reflexivity.
Qed.

(** While the cap on iterations is not reached, the base window is positive:
    a quotient of at least 2 needs a positive divisor. *)
Lemma bptt_positive (it : SI.t) :
  constructed it -> SI.curr_iter it < SI.total_iters it -> 0 < SI.bptt it.
Proof.
  intros [_ Hlines Hb Hit Hci _] Hlt.
  destruct (Z_lt_ge_dec 0 (SI.bptt it)) as [|Hle]; [assumption|].
  assert (Hneg : SI.bptt it < 0) by lia.
  assert (H0 : 0 <= SI.total_lines it) by lia.
  pose proof (Z.div_mod (SI.total_lines it) (SI.bptt it) Hb) as Hdm.
  pose proof (Z.mod_neg_bound (SI.total_lines it) (SI.bptt it) Hneg).
  nia.
Qed.

Section Traversal.
Context {G : Type} {R : NumpyRandom G}.

(** The drawn length is at least 5 whenever it is drawn at random. *)
Lemma sampled_length_min (it : SI.t) (g : G) (b : bool) :
  SI.random_length it = Some b -> 5 <= fst (SI.get_sequence_length it g).
Proof.
  intros Hrl. unfold SI.get_sequence_length. rewrite Hrl.
  destruct (random g) as [u g1].
  destruct (normal _ 5 g1) as [x g2]. simpl. lia.
Qed.

(** The length of a window that [next] goes on to emit is positive. *)
Lemma emitted_length_positive (it : SI.t) (g : G) :
  constructed it -> SI.completed it = false ->
  0 < fst (SI.get_sequence_length it g).
Proof.
  intros Hc Hcomp. apply completed_false_iff in Hcomp as [_ Hit].
  destruct (SI.random_length it) as [b|] eqn:Hrl.
  - pose proof (sampled_length_min it g Hrl). lia.
  - unfold SI.get_sequence_length. rewrite Hrl. simpl.
    apply bptt_positive; assumption.
Qed.

Lemma next_stop (it : SI.t) (g : G) :
  SI.completed it = true ->
  SI.next it g = (Py.Raise Py.StopIteration, it, g).
Proof. intros Hc. unfold SI.next. rewrite Hc. reflexivity. Qed.

Lemma next_emit (it : SI.t) (g : G) :
  SI.completed it = false ->
  SI.next it g =
  (Py.Ok (SI.get_batch it (fst (SI.get_sequence_length it g))),
   SI.advance it (fst (SI.get_sequence_length it g)),
   snd (SI.get_sequence_length it g)).
Proof.
  intros Hc. unfold SI.next. rewrite Hc.
  destruct (SI.get_sequence_length it g); reflexivity.
Qed.

Lemma next_constructed (it : SI.t) (g : G) :
  constructed it -> constructed (snd (fst (SI.next it g))).
Proof.
  intros Hc. destruct (SI.completed it) eqn:Hcomp.
  - rewrite next_stop by assumption. exact Hc.
  - rewrite next_emit by assumption. cbn [fst snd].
    pose proof (emitted_length_positive g Hc Hcomp).
    destruct Hc; constructor; simpl; auto; lia.
Qed.

Lemma nexts_constructed (n : nat) (it : SI.t) (g : G) :
  constructed it -> constructed (fst (SI.nexts n it g)).
Proof.
  revert it g; induction n as [|n IH]; intros it g Hc; simpl; [assumption|].
  pose proof (next_constructed g Hc) as Hn.
  destruct (SI.next it g) as [[r it'] g']. apply IH. exact Hn.
Qed.

End Traversal.

Section Passes.
Context {G : Type} {R : NumpyRandom G}.

(** [next] moves the two cursors only. *)
Lemma next_frame (it : SI.t) (g : G) :
  let it' := snd (fst (SI.next it g)) in
  SI.bptt it' = SI.bptt it /\
  SI.random_length it' = SI.random_length it /\
  SI.flatten_target it' = SI.flatten_target it /\
  SI.batches it' = SI.batches it /\
  SI.total_lines it' = SI.total_lines it /\
  SI.total_iters it' = SI.total_iters it.
Proof.
  destruct (SI.completed it) eqn:Hcomp.
  - rewrite next_stop by assumption. simpl. auto 10.
  - rewrite next_emit by assumption. simpl. auto 10.
Qed.

(** With enough fuel a pass ends: [drain] returns its batches, and the
    iterator it leaves is exhausted. *)
Lemma drain_ends (fuel : nat) (it : SI.t) (g : G) :
  constructed it ->
  SI.total_iters it - SI.curr_iter it <= Z.of_nat fuel ->
  exists bs,
    fst (fst (SI.drain fuel it g)) = Some bs /\
    (length bs <= fuel)%nat /\
    SI.completed (snd (fst (SI.drain fuel it g))) = true.
Proof.
  revert it g; induction fuel as [|fuel IH]; intros it g Hc Hfuel.
  - assert (Hcomp : SI.completed it = true).
    { apply completed_true_iff. right. lia. }
    simpl. rewrite next_stop by assumption.
    exists []. simpl. auto.
  - destruct (SI.completed it) eqn:Hcomp.
    + simpl. rewrite next_stop by assumption.
      exists []. simpl. split; [reflexivity|split; [lia|assumption]].
    + pose proof (next_constructed g Hc) as Hc'.
      pose proof (next_frame it g) as Hfr.
      simpl. rewrite next_emit in * by assumption. cbn [fst snd] in *.
      set (it' := SI.advance it _) in *. set (g' := snd _) in *.
      destruct (IH it' g' Hc') as (bs & Hbs & Hlen & Hfin).
      { destruct Hfr as (_ & _ & _ & _ & _ & ->). unfold it'. simpl. lia. }
      destruct (SI.drain fuel it' g') as [[r it''] g''].
      cbn [fst snd] in *. subst r.
      eexists. split; [reflexivity|]. simpl. split; [lia|assumption].
Qed.

(** A pass from [__iter__] always ends. *)
Lemma traverse_ends (it : SI.t) (g : G) :
  constructed it ->
  exists bs,
    fst (fst (SI.traverse it g)) = Some bs /\
    Z.of_nat (length bs) <= Z.max 0 (SI.total_iters it) /\
    SI.completed (snd (fst (SI.traverse it g))) = true.
Proof.
  intros Hc. unfold SI.traverse.
  destruct (@drain_ends (Z.to_nat (SI.total_iters it)) (SI.__iter__ it) g)
    as (bs & Hbs & Hlen & Hfin).
  - apply iter_constructed; assumption.
  - simpl. lia.
  - exists bs. repeat split; try assumption. lia.
Qed.

End Passes.

(** ** SequenceIterator: the claims *)

(** C5: for a sequence of [N] tokens and [L >= 1] lanes (and a base window
    other than 0, which the constructor divides by), construction succeeds
    with [total_lines = N // L]; the lane matrix has shape [(N // L, L)] and
    holds exactly [(N // L) * L] items; read column by column it is the
    sequence cut to its first [(N // L) * L] tokens, in order. *)
Theorem lanes_hold_truncated_sequence (seq : list Z) (bptt lanes : Z)
    (rl : option bool) (ft : bool) :
  1 <= lanes -> bptt <> 0 ->
  exists it,
    SI.__init__ seq bptt lanes rl ft = Py.Ok it /\
    SI.total_lines it = Py.len seq / lanes /\
    Z.of_nat (Torch.rows (SI.batches it)) = Py.len seq / lanes /\
    Z.of_nat (Torch.cols (SI.batches it)) = lanes /\
    Py.len (Torch.data (SI.batches it)) = Py.len seq / lanes * lanes /\
    Torch.flatten_column_major (SI.batches it)
      = Py.slice_to seq (Py.len seq / lanes * lanes) /\
    Py.slice_to seq (Py.len seq / lanes * lanes)
      = firstn (Z.to_nat (Py.len seq / lanes * lanes)) seq.
Proof.
  intros Hl Hb.
  assert (Hlen : 0 <= Py.len seq) by (unfold Py.len; lia).
  destruct (lines_bounds Hlen (lanes := lanes)) as [Hq Hql]; [lia|].
  eexists. split.
  { rewrite init_cases.
    destruct (Z.eqb_spec lanes 0); [lia|].
    destruct (Z.ltb_spec lanes 0); [lia|].
    destruct (Z.eqb_spec bptt 0); [contradiction|]. reflexivity. }
  cbn [SI.total_lines SI.batches].
  rewrite lane_matrix_rows, lane_matrix_cols, !Z2Nat.id by lia.
  rewrite slice_to_firstn by lia.
  rewrite lane_matrix_column_major by lia.
  repeat split.
  pose proof (lane_matrix_wf seq lanes) as Hwf. unfold Torch.wf in Hwf.
  rewrite lane_matrix_rows, lane_matrix_cols in Hwf.
  unfold Py.len at 1. rewrite Hwf. unfold Py.len in *. nia.
Qed.

Lemma lanes_hold_truncated_sequence_witness :
  exists it,
    SI.__init__ [1; 2; 3; 4; 5; 6; 7] 2 3 (Some true) true = Py.Ok it /\
    SI.total_lines it = 2 /\
    Z.of_nat (Torch.rows (SI.batches it)) = 2 /\
    Z.of_nat (Torch.cols (SI.batches it)) = 3 /\
    Py.len (Torch.data (SI.batches it)) = 6 /\
    Torch.flatten_column_major (SI.batches it)
      = Py.slice_to [1; 2; 3; 4; 5; 6; 7] 6 /\
    Py.slice_to [1; 2; 3; 4; 5; 6; 7] 6 = [1; 2; 3; 4; 5; 6].
Proof.
  apply (@lanes_hold_truncated_sequence [1; 2; 3; 4; 5; 6; 7] 2 3
           (Some true) true); lia.
Defined.

(** C7: a sequence shorter than the lane count (with a base window other
    than 0) is accepted by the constructor, which raises nothing and leaves
    zero lines; the first request for a batch then raises [StopIteration],
    before or after [__iter__], and a pass yields no batch. *)
Theorem short_sequence_yields_no_batch (G : Type) (R : NumpyRandom G)
    (seq : list Z) (bptt lanes : Z) (rl : option bool) (ft : bool) (g : G) :
  Py.len seq < lanes -> bptt <> 0 ->
  exists it,
    SI.__init__ seq bptt lanes rl ft = Py.Ok it /\
    SI.total_lines it = 0 /\
    SI.next it g = (Py.Raise Py.StopIteration, it, g) /\
    SI.next (SI.__iter__ it) g
      = (Py.Raise Py.StopIteration, SI.__iter__ it, g) /\
    SI.traverse it g = (Some [], SI.__iter__ it, g).
Proof.
  intros Hshort Hb.
  assert (Hlen : 0 <= Py.len seq) by (unfold Py.len; lia).
  assert (Hq : Py.len seq / lanes = 0) by (apply Z.div_small; lia).
  eexists. split.
  { rewrite init_cases.
    destruct (Z.eqb_spec lanes 0); [lia|].
    destruct (Z.ltb_spec lanes 0); [lia|].
    destruct (Z.eqb_spec bptt 0); [contradiction|]. reflexivity. }
  rewrite Hq. cbn [SI.total_lines].
  split; [reflexivity|].
  assert (Hstop : forall it, SI.curr_line it = 0 -> SI.total_lines it = 0 ->
                             SI.next it g = (Py.Raise Py.StopIteration, it, g)).
  { intros it Hline Hlines. apply next_stop, completed_true_iff. lia. }
  split; [apply Hstop; reflexivity|].
  split; [apply Hstop; reflexivity|].
  unfold SI.traverse. cbn [SI.total_iters].
  rewrite Z.div_0_l by assumption.
  change (Z.to_nat (0 - 1)) with 0%nat. cbn [SI.drain].
  rewrite Hstop by reflexivity. reflexivity.
Qed.

Lemma short_sequence_yields_no_batch_witness :
  exists it,
    SI.__init__ [42] 10 4 (Some true) true = Py.Ok it /\
    SI.total_lines it = 0 /\
    SI.next it [] = (Py.Raise Py.StopIteration, it, []) /\
    SI.next (SI.__iter__ it) []
      = (Py.Raise Py.StopIteration, SI.__iter__ it, []) /\
    SI.traverse it [] = (Some [], SI.__iter__ it, []).
Proof.
  apply (@short_sequence_yields_no_batch (list Q) scripted [42] 10 4
           (Some true) true []).
  - reflexivity.
  - discriminate.
Defined.

(** C2: in a pass over a constructed iterator, at the state reached after any
    number of calls of [next]: the cap is [total_lines // bptt - 1]; once
    [curr_line >= total_lines - 1] or [curr_iter] has reached the cap, [next]
    raises [StopIteration] and emits nothing; otherwise it emits a batch and
    [curr_line] strictly increases. The pass ends: it yields at most as many
    batches as the cap, and then [next] raises [StopIteration]. *)
Theorem pass_advances_until_exhausted (G : Type) (R : NumpyRandom G)
    (seq : list Z) (bptt lanes : Z) (rl : option bool) (ft : bool)
    (it0 : SI.t) (g0 : G) (n : nat) :
  SI.__init__ seq bptt lanes rl ft = Py.Ok it0 ->
  let it := fst (SI.nexts n (SI.__iter__ it0) g0) in
  let g := snd (SI.nexts n (SI.__iter__ it0) g0) in
  SI.total_iters it = SI.total_lines it / SI.bptt it - 1 /\
  (SI.curr_line it >= SI.total_lines it - 1 \/
   SI.curr_iter it >= SI.total_iters it ->
   SI.next it g = (Py.Raise Py.StopIteration, it, g)) /\
  (SI.curr_line it < SI.total_lines it - 1 ->
   SI.curr_iter it < SI.total_iters it ->
   exists batch it' g',
     SI.next it g = (Py.Ok batch, it', g') /\
     SI.curr_line it < SI.curr_line it' /\
     SI.curr_iter it' = SI.curr_iter it + 1) /\
  (exists bs it_end g_end,
     SI.traverse it0 g0 = (Some bs, it_end, g_end) /\
     Z.of_nat (length bs) <= Z.max 0 (SI.total_iters it0) /\
     SI.next it_end g_end = (Py.Raise Py.StopIteration, it_end, g_end)).
Proof.
  intros Hinit it g.
  pose proof (init_constructed _ _ _ _ _ Hinit) as Hc0.
  assert (Hc : constructed it).
  { apply nexts_constructed, iter_constructed, Hc0. }
  split; [apply Hc|].
  split; [|split].
  - intros Hdone. apply next_stop, completed_true_iff, Hdone.
  - intros Hline Hiter.
    assert (Hcomp : SI.completed it = false).
    { apply completed_false_iff. split; assumption. }
    pose proof (emitted_length_positive g Hc Hcomp) as Hpos.
    do 3 eexists. split; [apply next_emit, Hcomp|].
    simpl. split; [lia|reflexivity].
  - destruct (traverse_ends g0 Hc0) as (bs & Hbs & Hlen & Hfin).
    destruct (SI.traverse it0 g0) as [[r it_end] g_end].
    cbn [fst snd] in *. subst r.
    exists bs, it_end, g_end.
    split; [reflexivity|]. split; [assumption|].
    apply next_stop, Hfin.
Qed.

Lemma pass_advances_until_exhausted_witness :
  let seq := List.repeat 7 60 in
  exists it0,
    SI.__init__ seq 10 2 None true = Py.Ok it0 /\
    let it := fst (SI.nexts 1 (SI.__iter__ it0) []) in
    let g := snd (SI.nexts 1 (SI.__iter__ it0) []) in
    SI.total_iters it = SI.total_lines it / SI.bptt it - 1 /\
    (SI.curr_line it >= SI.total_lines it - 1 \/
     SI.curr_iter it >= SI.total_iters it ->
     SI.next it g = (Py.Raise Py.StopIteration, it, g)) /\
    (SI.curr_line it < SI.total_lines it - 1 ->
     SI.curr_iter it < SI.total_iters it ->
     exists batch it' g',
       SI.next it g = (Py.Ok batch, it', g') /\
       SI.curr_line it < SI.curr_line it' /\
       SI.curr_iter it' = SI.curr_iter it + 1) /\
    (exists bs it_end g_end,
       SI.traverse it0 [] = (Some bs, it_end, g_end) /\
       Z.of_nat (length bs) <= Z.max 0 (SI.total_iters it0) /\
       SI.next it_end g_end = (Py.Raise Py.StopIteration, it_end, g_end)).
Proof.
  intros seq. eexists. split; [reflexivity|].
  apply (@pass_advances_until_exhausted (list Q) scripted seq 10 2 None true
           _ [] 1%nat).
  reflexivity.
Defined.

(** ** SequenceIterator: the emitted window *)

Section Window.
Context {G : Type} {R : NumpyRandom G}.

(** The window that [get_batch] cuts for a batch that [next] emits: at least
    one row, and the target's last row is a row of the matrix. *)
Lemma emitted_window (it : SI.t) (g : G) :
  constructed it -> SI.completed it = false ->
  let w := Z.min (fst (SI.get_sequence_length it g))
                 (SI.total_lines it - 1 - SI.curr_line it) in
  1 <= w /\
  SI.curr_line it + 1 + w <= Z.of_nat (Torch.rows (SI.batches it)).
Proof.
  intros Hc Hcomp w.
  pose proof (emitted_length_positive g Hc Hcomp) as Hpos.
  apply completed_false_iff in Hcomp as [Hline _].
  destruct Hc as [_ Hlines _ _ _ _]. unfold w. lia.
Qed.

(** What [next] returns when it emits: the batch, by its window. *)
Lemma next_emits (it it' : SI.t) (g g' : G) (X : Torch.Tensor2)
    (y : Torch.Tensor) :
  constructed it ->
  SI.next it g = (Py.Ok (X, y), it', g') ->
  let i := SI.curr_line it in
  let w := Z.min (fst (SI.get_sequence_length it g))
                 (SI.total_lines it - 1 - i) in
  let Y := Torch.row_slice (SI.batches it) (i + 1) (i + 1 + w) in
  SI.completed it = false /\
  X = Torch.row_slice (SI.batches it) i (i + w) /\
  y = (if SI.flatten_target it then Torch.T1 (Torch.flatten Y)
       else Torch.T2 Y) /\
  Z.of_nat (Torch.rows X) = w /\
  Z.of_nat (Torch.rows Y) = w.
Proof.
  intros Hc Hnext i w Y.
  destruct (SI.completed it) eqn:Hcomp.
  { rewrite next_stop in Hnext by assumption. discriminate. }
  rewrite next_emit in Hnext by assumption.
  injection Hnext as HX Hy _ _.
  destruct (emitted_window g Hc Hcomp) as [Hw1 Hw2]. fold i w in Hw1, Hw2.
  pose proof (c_line Hc) as Hi. fold i in Hi.
  pose proof (c_wf Hc) as Hwf.
  split; [reflexivity|]. split; [symmetry; exact HX|].
  split; [symmetry; exact Hy|]. subst X.
  unfold Y. rewrite !row_slice_rows by (try assumption; lia).
  split; lia.
Qed.

End Window.

(** C3: a batch [(X, y)] that [next] emits at row cursor [i], with [w] the
    number of rows of [X]: [w] is the drawn length capped at
    [total_lines - 1 - i]; [X = matrix[i : i+w]]; the target is
    [Y = matrix[i+1 : i+1+w]], flattened row-major when [flatten_target] is
    set; [X] and [Y] have the same shape [(w, lanes)]; row [k] of [X] is row
    [i+k] of the matrix and row [k] of [Y] is row [i+k+1], lane by lane, so
    row [k] of the target is row [k+1] of the input; and item [k*lanes + j]
    of the flattened target is item [(i+1+k, j)] of the matrix. *)
Theorem target_is_input_shifted_one_row (G : Type) (R : NumpyRandom G)
    (seq : list Z) (bptt lanes : Z) (rl : option bool) (ft : bool)
    (it0 it' : SI.t) (g0 g' : G) (n : nat) (X : Torch.Tensor2)
    (y : Torch.Tensor) :
  SI.__init__ seq bptt lanes rl ft = Py.Ok it0 ->
  let it := fst (SI.nexts n (SI.__iter__ it0) g0) in
  let g := snd (SI.nexts n (SI.__iter__ it0) g0) in
  SI.next it g = (Py.Ok (X, y), it', g') ->
  let i := SI.curr_line it in
  let w := Z.of_nat (Torch.rows X) in
  let Y := Torch.row_slice (SI.batches it) (i + 1) (i + 1 + w) in
  let c := Torch.cols (SI.batches it) in
  w = Z.min (fst (SI.get_sequence_length it g)) (SI.total_lines it - 1 - i) /\
  X = Torch.row_slice (SI.batches it) i (i + w) /\
  y = (if SI.flatten_target it then Torch.T1 (Torch.flatten Y)
       else Torch.T2 Y) /\
  Torch.rows Y = Torch.rows X /\
  Torch.cols X = c /\ Torch.cols Y = c /\
  Torch.wf X /\ Torch.wf Y /\
  (forall k j : nat, (k < Torch.rows X)%nat -> (j < c)%nat ->
     Torch.get X k j = Torch.get (SI.batches it) (Z.to_nat i + k) j /\
     Torch.get Y k j = Torch.get (SI.batches it) (Z.to_nat i + k + 1) j) /\
  (forall k j : nat, (S k < Torch.rows X)%nat -> (j < c)%nat ->
     Torch.get Y k j = Torch.get X (S k) j) /\
  (forall k j : nat, (k < Torch.rows X)%nat -> (j < c)%nat ->
     nth (k * c + j) (Torch.flatten Y) 0
     = Torch.get (SI.batches it) (Z.to_nat i + k + 1) j).
Proof.
  intros Hinit it g Hnext i w Y c.
  assert (Hc : constructed it).
  { apply nexts_constructed, iter_constructed.
    eapply init_constructed, Hinit. }
  destruct (next_emits g Hc Hnext) as (Hcomp & HX & Hy & HwX & HwY).
  fold i in HX, Hy, HwX, HwY. fold w in HwX.
  rewrite <- HwX in HX, Hy, HwY. fold Y in Hy, HwY.
  destruct (emitted_window g Hc Hcomp) as [Hw1 Hw2].
  fold i in Hw1, Hw2. rewrite <- HwX in Hw1, Hw2.
  pose proof (c_line Hc) as Hi. fold i in Hi.
  pose proof (c_wf Hc) as Hwf.
  assert (HgetX : forall k j : nat, (k < Torch.rows X)%nat -> (j < c)%nat ->
            Torch.get X k j = Torch.get (SI.batches it) (Z.to_nat i + k) j).
  { intros k j Hk Hj. rewrite HX at 1.
    apply get_row_slice; try assumption; lia. }
  assert (HgetY : forall k j : nat, (k < Torch.rows X)%nat -> (j < c)%nat ->
            Torch.get Y k j
            = Torch.get (SI.batches it) (Z.to_nat i + k + 1) j).
  { intros k j Hk Hj. unfold Y.
    rewrite get_row_slice by (try assumption; lia).
    f_equal. lia. }
  split; [exact HwX|]. split; [exact HX|]. split; [exact Hy|].
  split; [lia|].
  split; [rewrite HX; reflexivity|]. split; [reflexivity|].
  split; [rewrite HX; apply row_slice_wf; try assumption; lia|].
  split; [apply row_slice_wf; try assumption; lia|].
  split; [|split].
  - intros k j Hk Hj. split; [apply HgetX|apply HgetY]; assumption.
  - intros k j Hk Hj. rewrite HgetY, HgetX by lia. f_equal. lia.
  - intros k j Hk Hj. rewrite <- HgetY by assumption. reflexivity.
Qed.

Lemma target_is_input_shifted_one_row_witness :
  let seq := [1; 2; 3; 4; 5; 6; 7; 8; 9; 10; 11; 12] in
  exists it0 it' g',
    SI.__init__ seq 2 2 None true = Py.Ok it0 /\
    SI.next (fst (SI.nexts 0 (SI.__iter__ it0) []))
            (snd (SI.nexts 0 (SI.__iter__ it0) []))
    = (Py.Ok (Torch.mkTensor2 2 2 [1; 7; 2; 8], Torch.T1 [2; 8; 3; 9]),
       it', g') /\
    Torch.mkTensor2 2 2 [1; 7; 2; 8]
    = Torch.row_slice (SI.batches it0) 0 (0 + 2) /\
    Torch.T1 [2; 8; 3; 9]
    = Torch.T1 (Torch.flatten (Torch.row_slice (SI.batches it0) 1 (1 + 2))).
Proof.
  intros seq. do 3 eexists.
  split; [reflexivity|]. split; [reflexivity|].
  destruct (@target_is_input_shifted_one_row (list Q) scripted seq 2 2 None
              true _ _ [] _ 0%nat _ _ eq_refl eq_refl)
    as (_ & HX & Hy & _).
  split; [exact HX|exact Hy].
Defined.

(** C9: in every batch that [next] emits: a length drawn at random is at
    least 5; the batch has as many rows as that length capped at
    [total_lines - 1 - curr_line], which is at least 1; and the last row the
    target reads, [curr_line + rows], is at most [total_lines - 1], so the
    target has all its rows. The cap can cut a drawn length down to a single
    row: 30 lines in one lane with base window 10, a first draw of 28 and a
    second of 10 give a second batch of one row. *)
Theorem emitted_batch_is_capped_not_empty :
  (forall (G : Type) (R : NumpyRandom G) (seq : list Z) (bptt lanes : Z)
          (rl : option bool) (ft : bool) (it0 it' : SI.t) (g0 g' : G)
          (n : nat) (X : Torch.Tensor2) (y : Torch.Tensor),
     SI.__init__ seq bptt lanes rl ft = Py.Ok it0 ->
     let it := fst (SI.nexts n (SI.__iter__ it0) g0) in
     let g := snd (SI.nexts n (SI.__iter__ it0) g0) in
     SI.next it g = (Py.Ok (X, y), it', g') ->
     let drawn := fst (SI.get_sequence_length it g) in
     let w := Z.of_nat (Torch.rows X) in
     (forall b, SI.random_length it = Some b -> 5 <= drawn) /\
     w = Z.min drawn (SI.total_lines it - 1 - SI.curr_line it) /\
     1 <= w /\
     SI.curr_line it + w <= SI.total_lines it - 1 /\
     Torch.rows (Torch.row_slice (SI.batches it) (SI.curr_line it + 1)
                   (SI.curr_line it + 1 + w)) = Torch.rows X)
  /\
  (exists it0 it' g' X y,
     SI.__init__ (List.repeat 7 30) 10 1 (Some true) true = Py.Ok it0 /\
     let s := SI.nexts 1 (SI.__iter__ it0) [0%Q; 18 # 5; 0%Q; 0%Q] in
     SI.next (fst s) (snd s) = (Py.Ok (X, y), it', g') /\
     fst (SI.get_sequence_length (fst s) (snd s)) = 10 /\
     SI.curr_line (fst s) = 28 /\
     Torch.rows X = 1%nat).
Proof.
  split.
  - intros G R seq bptt lanes rl ft it0 it' g0 g' n X y Hinit it g Hnext
           drawn w.
    assert (Hc : constructed it).
    { apply nexts_constructed, iter_constructed.
      eapply init_constructed, Hinit. }
    destruct (next_emits g Hc Hnext) as (Hcomp & _ & _ & HwX & HwY).
    destruct (emitted_window g Hc Hcomp) as [Hw1 Hw2].
    fold drawn in HwX, HwY, Hw1, Hw2. fold w in HwX.
    rewrite <- HwX in HwY, Hw1, Hw2.
    pose proof (c_lines Hc) as Hlines.
    split; [intros b Hb; apply (sampled_length_min it g Hb)|].
    subst w drawn.
    split; [exact HwX|]. split; [exact Hw1|]. split; [lia|].
    apply Nat2Z.inj. exact HwY.
  - do 5 eexists. split; [reflexivity|].
    cbv zeta. split; [vm_compute; reflexivity|].
    split; [vm_compute; reflexivity|].
    split; reflexivity.
Qed.

Lemma emitted_batch_is_capped_not_empty_witness :
  exists it0 it' g' X y,
    SI.__init__ (List.repeat 7 30) 10 1 (Some true) true = Py.Ok it0 /\
    let s := SI.nexts 1 (SI.__iter__ it0) [0%Q; 18 # 5; 0%Q; 0%Q] in
    SI.next (fst s) (snd s) = (Py.Ok (X, y), it', g') /\
    Z.of_nat (Torch.rows X)
    = Z.min (fst (SI.get_sequence_length (fst s) (snd s)))
            (SI.total_lines (fst s) - 1 - SI.curr_line (fst s)) /\
    1 <= Z.of_nat (Torch.rows X).
Proof.
  do 5 eexists. split; [reflexivity|]. cbv zeta.
  split; [vm_compute; reflexivity|].
  destruct (proj1 emitted_batch_is_capped_not_empty (list Q) scripted
              (List.repeat 7 30) 10 1 (Some true) true _ _
              [0%Q; 18 # 5; 0%Q; 0%Q] _ 1%nat _ _ eq_refl eq_refl)
    as (_ & Hw & H1 & _).
  split; [exact Hw|exact H1].
Defined.

(** ** Stepper *)

(** C6: [step] with [train = False] makes no mutating call (no gradient
    clearing, no backward pass, no optimizer update, no schedule advance)
    and leaves the optimizer and the schedule as they were; the model is as
    its own forward pass leaves it. With [train = True] the four calls are
    made, in that order. In both modes the value returned is the float
    [loss.item()] of the loss of the forward pass, not the loss tensor.
    A second call with [train = False] on the same batch again leaves the
    optimizer and the schedule, and returns the loss of a forward pass of
    the model as the first call left it. When the forward pass leaves the
    model as it was, the whole stepper is unchanged and the second call
    returns the same loss. *)
Theorem eval_step_leaves_stepper_unchanged (X Y F : Type)
    (K : Collaborators X Y F) (s : Stepper.t) (x : X) (y : Y) :
  let first := Stepper.step s x y false in
  let second := Stepper.step (snd (fst first)) x y false in
  (snd first = [] /\
   Stepper.optimizer (snd (fst first)) = Stepper.optimizer s /\
   Stepper.schedule (snd (fst first)) = Stepper.schedule s /\
   Stepper.model (snd (fst first))
     = snd (model_call false (Stepper.model s) x) /\
   snd (Stepper.step s x y true)
     = [ZeroGrad; Backward; OptimizerStep; ScheduleStep] /\
   (forall train : bool,
      fst (fst (Stepper.step s x y train))
      = item (loss_call (fst (model_call train (Stepper.model s) x)) y))) /\
  (snd second = [] /\
   Stepper.optimizer (snd (fst second)) = Stepper.optimizer s /\
   Stepper.schedule (snd (fst second)) = Stepper.schedule s /\
   fst (fst second)
   = item (loss_call
             (fst (model_call false
                     (snd (model_call false (Stepper.model s) x)) x)) y)) /\
  (snd (model_call false (Stepper.model s) x) = Stepper.model s ->
   snd (fst first) = s /\
   snd (fst second) = s /\
   snd second = [] /\
   fst (fst second) = fst (fst first)).
Proof.
  cbv zeta. unfold Stepper.step.
  destruct (model_call false (Stepper.model s) x) as [out m0] eqn:Heval.
  cbn [fst snd Stepper.model Stepper.optimizer Stepper.schedule].
  split; [|split].
  - repeat split.
    + destruct (model_call true (Stepper.model s) x) as [out' m0'].
      destruct (optimizer_step _ _) as [o3 m3].
      destruct (schedule_step _ o3) as [s4 o4]. reflexivity.
    + intros [|].
      * destruct (model_call true (Stepper.model s) x) as [out' m0'].
        destruct (optimizer_step _ _) as [o3 m3].
        destruct (schedule_step _ o3) as [s4 o4]. reflexivity.
      * rewrite Heval. reflexivity.
  - destruct (model_call false m0 x) as [out1 m1].
    cbn [fst snd Stepper.optimizer Stepper.schedule]. auto.
  - intros ->. destruct s as [m o sc]. cbn [Stepper.model] in *.
    cbn [Stepper.optimizer Stepper.schedule Stepper.model].
    rewrite Heval. cbn [fst snd]. auto.
Qed.

(** C6, counterexample: the same loss twice does not hold for every model,
    since [step] calls the model as it is and never restores it. For the
    model that counts its forward passes, two calls with [train = False] on
    the same batch make no mutating call and leave the optimizer and the
    schedule, and return the losses 0 and 1. *)
Lemma eval_step_twice_can_differ :
  let s := @Stepper.mk unit unit Q counting_forward 0 0 0 in
  let first := Stepper.step s tt tt false in
  let second := Stepper.step (snd (fst first)) tt tt false in
  snd first = [] /\
  snd second = [] /\
  Stepper.optimizer (snd (fst second)) = Stepper.optimizer s /\
  Stepper.schedule (snd (fst second)) = Stepper.schedule s /\
  fst (fst first) = 0%Q /\
  fst (fst second) = 1%Q /\
  fst (fst second) <> fst (fst first).
Proof.
  cbv zeta. repeat (split; [reflexivity|]). discriminate.
Qed.

(** ** Loop: the journal of a run *)

Section LoopFacts.
Context {X Y F C : Type} {P : PyFloat F} {K : Collaborators X Y F}.

Local Abbreviation world := (Loop.world C).
Local Abbreviation stopped w := (Loop.stop (Loop.self w)).

Lemma fire_journal (ev : event X Y F) (w : world) :
  Loop.journal (Loop.fire ev w)
  = Loop.journal w ++ [(ev, stopped (Loop.fire ev w))].
Proof.
  unfold Loop.fire. destruct (CallbackGroup.invoke ev (Loop.cb w)).
  reflexivity.
Qed.

Lemma fire_stop (ev : event X Y F) (w : world) :
  stopped w = true -> stopped (Loop.fire ev w) = true.
Proof.
  intros Hs. unfold Loop.fire.
  destruct (CallbackGroup.invoke ev (Loop.cb w)) as [cb' [|]]; simpl;
    [reflexivity|assumption].
Qed.

Lemma fire_stepper (ev : event X Y F) (w : world) :
  Loop.stepper (Loop.self (Loop.fire ev w)) = Loop.stepper (Loop.self w).
Proof.
  unfold Loop.fire. destruct (CallbackGroup.invoke ev (Loop.cb w)).
  reflexivity.
Qed.

Lemma fire_flagged (ev : event X Y F) (w : world) :
  flagged w -> flagged (Loop.fire ev w).
Proof.
  intros Hf ev' Hin. rewrite fire_journal in Hin.
  apply in_app_or in Hin as [Hin|[Heq|[]]].
  - apply fire_stop, (Hf ev'), Hin.
  - injection Heq as _ Hstop. exact Hstop.
Qed.

Lemma fires_fire (epoch : Z) (ev : event X Y F) (w : world) :
  epoch_of ev = Some epoch -> fires epoch [tag ev] w (Loop.fire ev w).
Proof.
  intros He. split; [|split].
  - exists [(ev, stopped (Loop.fire ev w))].
    split; [apply fire_journal|]. split; [|reflexivity].
    constructor; [exact He|constructor].
  - apply fire_flagged.
  - apply fire_stop.
Qed.

Lemma fires_refl (epoch : Z) (w w' : world) :
  Loop.journal w' = Loop.journal w -> stopped w' = stopped w ->
  fires epoch [] w w'.
Proof.
  intros Hj Hs. split; [|split].
  - exists []. rewrite app_nil_r. auto.
  - unfold flagged. rewrite Hj, Hs. auto.
  - rewrite Hs. auto.
Qed.

Lemma fires_trans (epoch : Z) (t1 t2 : list (hook * option Z * option string))
    (w w1 w2 : world) :
  fires epoch t1 w w1 -> fires epoch t2 w1 w2 -> fires epoch (t1 ++ t2) w w2.
Proof.
  intros [(J1 & Hj1 & Hall1 & Ht1) [Hf1 Hs1]]
         [(J2 & Hj2 & Hall2 & Ht2) [Hf2 Hs2]].
  split; [|split; auto].
  exists (J1 ++ J2). split; [rewrite Hj2, Hj1, app_assoc; reflexivity|].
  split; [apply Forall_app; auto|].
  unfold tags in *. rewrite map_app, Ht1, Ht2. reflexivity.
Qed.

Lemma epoch_tags_same_shape (epoch : Z) (ps ps' : list (Phase.t X Y F)) :
  same_shape ps ps' -> epoch_tags epoch ps = epoch_tags epoch ps'.
Proof.
  unfold same_shape, epoch_tags. intros Hs. f_equal.
  assert (Hmap : forall l : list (Phase.t X Y F),
            map (fun p => phase_tags epoch (Phase.name p)
                            (length (Phase.dataset p))) l
            = map (fun nd : string * list (X * Y) =>
                     phase_tags epoch (fst nd) (length (snd nd)))
                  (map (fun p => (Phase.name p, Phase.dataset p)) l)).
  { intros l. rewrite map_map. reflexivity. }
  rewrite !Hmap, Hs. reflexivity.
Qed.

(** One batch: its two events, and the step of the running loss. *)
Lemma run_batch_spec (a : F) (epoch : Z) (tr : bool) (p : Phase.t X Y F)
    (w : world) (xy : X * Y) :
  let st' := Loop.run_batch a epoch tr (p, w) xy in
  fires epoch [(BatchStart, Some epoch, Some (Phase.name p));
               (BatchEnd, Some epoch, Some (Phase.name p))] w (snd st') /\
  Phase.name (fst st') = Phase.name p /\
  Phase.dataset (fst st') = Phase.dataset p /\
  Phase.batch_num (fst st') = Phase.batch_num p + 1 /\
  Phase.avg_loss (fst st')
  = ema a (Phase.avg_loss p)
        (fst (fst (Stepper.step (Loop.stepper (Loop.self w))
                                (fst xy) (snd xy) tr))) /\
  Loop.alpha (Loop.self (snd st')) = Loop.alpha (Loop.self w).
Proof.
  destruct xy as [x y]. cbv zeta. cbn [fst snd]. unfold Loop.run_batch.
  set (p1 := Phase.mk (Phase.name p) (Phase.dataset p)
                      (Phase.batch_num p + 1) (Phase.avg_loss p)).
  set (w1 := Loop.fire (batch_start epoch p1) w).
  pose proof (fire_stepper (batch_start epoch p1) w) as Hst. fold w1 in Hst.
  rewrite Hst.
  destruct (Stepper.step (Loop.stepper (Loop.self w)) x y tr)
    as [[loss stepper'] calls].
  set (w2 := Loop.mk_world _ (Loop.cb w1) (Loop.journal w1)).
  set (p2 := Phase.mk _ _ _ _).
  cbn [fst snd].
  split; [|split; [|split; [|split; [|split]]]]; try reflexivity.
  - apply (@fires_trans epoch [(BatchStart, Some epoch, Some (Phase.name p))]
             [(BatchEnd, Some epoch, Some (Phase.name p))] w w1).
    + apply (@fires_fire epoch (batch_start epoch p1)). reflexivity.
    + apply (@fires_trans epoch [] [_] w1 w2).
      * apply fires_refl; reflexivity.
      * apply (@fires_fire epoch (batch_end epoch p2)). reflexivity.
  - unfold Loop.fire.
    destruct (CallbackGroup.invoke (batch_end epoch p2) (Loop.cb w2)).
    simpl. unfold w1, Loop.fire.
    destruct (CallbackGroup.invoke (batch_start epoch p1) (Loop.cb w)).
    reflexivity.
Qed.

(** [for x, y in phase.dataset]: two events for each batch. *)
Lemma run_batches_spec (a : F) (epoch : Z) (tr : bool) (l : list (X * Y)) :
  forall (p : Phase.t X Y F) (w : world),
  let st' := fold_left (Loop.run_batch a epoch tr) l (p, w) in
  fires epoch
    (concat (List.repeat [(BatchStart, Some epoch, Some (Phase.name p));
                          (BatchEnd, Some epoch, Some (Phase.name p))]
                         (length l))) w (snd st') /\
  Phase.name (fst st') = Phase.name p /\
  Phase.dataset (fst st') = Phase.dataset p /\
  Phase.batch_num (fst st') = Phase.batch_num p + Z.of_nat (length l).
Proof.
  induction l as [|xy l IH]; intros p w; cbv zeta.
  - simpl. split; [apply fires_refl; reflexivity|].
    repeat split. lia.
  - cbn [fold_left].
    destruct (run_batch_spec a epoch tr p w xy) as (Hf & Hn & Hd & Hb & _).
    destruct (Loop.run_batch a epoch tr (p, w) xy) as [p' w'].
    cbn [fst snd] in *.
    destruct (IH p' w') as (Hf' & Hn' & Hd' & Hb').
    rewrite Hn in Hf'.
    split; [|split; [congruence|split; [congruence|]]].
    + cbn [length List.repeat concat].
      exact (fires_trans Hf Hf').
    + rewrite Hb', Hb. cbn [length]. lia.
Qed.

(** The body of [for phase in phases]: a whole phase. *)
Lemma run_phase_spec (a : F) (epoch : Z) (p : Phase.t X Y F) (w : world) :
  let st' := Loop.run_phase a epoch p w in
  fires epoch (phase_tags epoch (Phase.name p) (length (Phase.dataset p)))
        w (snd st') /\
  Phase.name (fst st') = Phase.name p /\
  Phase.dataset (fst st') = Phase.dataset p.
Proof.
  cbv zeta. unfold Loop.run_phase.
  set (w1 := Loop.fire (epoch_start epoch p) w).
  destruct (run_batches_spec a epoch
              (String.eqb (Phase.name p) "train") (Phase.dataset p) p w1)
    as (Hf & Hn & Hd & _).
  destruct (fold_left _ (Phase.dataset p) (p, w1)) as [p' w'].
  cbn [fst snd] in *.
  split; [|split; assumption].
  unfold phase_tags.
  apply (@fires_trans epoch [(EpochStart, Some epoch, Some (Phase.name p))]
           _ w w1).
  - apply (@fires_fire epoch (epoch_start epoch p)). reflexivity.
  - apply (fires_trans Hf).
    rewrite <- Hn.
    apply (@fires_fire epoch (epoch_end epoch p')). reflexivity.
Qed.

(** [for phase in phases]: a whole epoch. *)
Lemma run_phases_spec (a : F) (epoch : Z) (ps : list (Phase.t X Y F)) :
  forall w : world,
  let st' := Loop.run_phases a epoch ps w in
  fires epoch (epoch_tags epoch ps) w (snd st') /\
  same_shape ps (fst st').
Proof.
  induction ps as [|p ps IH]; intros w; cbv zeta.
  - simpl. split; [apply fires_refl; reflexivity|reflexivity].
  - cbn [Loop.run_phases].
    destruct (run_phase_spec a epoch p w) as (Hf & Hn & Hd).
    destruct (Loop.run_phase a epoch p w) as [p' w1].
    cbn [fst snd] in *.
    destruct (IH w1) as (Hf' & Hsh).
    destruct (Loop.run_phases a epoch ps w1) as [ps' w2].
    cbn [fst snd] in *.
    split.
    + unfold epoch_tags. cbn [map concat]. exact (fires_trans Hf Hf').
    + unfold same_shape in *. cbn [map]. rewrite Hn, Hd, Hsh. reflexivity.
Qed.

Lemma filter_epoch_all (epoch : Z) (J : list (event X Y F * bool)) :
  Forall (fun entry => epoch_of (fst entry) = Some epoch) J ->
  filter (in_epoch epoch) J = J.
Proof.
  induction 1 as [|entry J He _ IH]; [reflexivity|].
  cbn [filter]. unfold in_epoch at 1. rewrite He, Z.eqb_refl, IH.
  reflexivity.
Qed.

Lemma filter_epoch_none (k : Z) (J : list (event X Y F * bool)) :
  Forall (fun entry => forall e, epoch_of (fst entry) = Some e -> e <> k) J ->
  filter (in_epoch k) J = [].
Proof.
  induction 1 as [|entry J He _ IH]; [reflexivity|].
  cbn [filter]. unfold in_epoch at 1.
  destruct (epoch_of (fst entry)) as [e|] eqn:Hep; [|exact IH].
  destruct (Z.eqb_spec e k) as [Heq|_]; [|exact IH].
  exfalso. exact (He e eq_refl Heq).
Qed.

Lemma run_epochs_stopped (a : F) (es : list Z)
    (st : list (Phase.t X Y F) * world) :
  stopped (snd st) = true -> Loop.run_epochs a es st = st.
Proof. intros Hs. destruct es; simpl; [|rewrite Hs]; reflexivity. Qed.

(** [for epoch in range(epochs)]: the journal grows by whole epochs; an
    epoch in which the flag is recorded as set is the last one. *)
Lemma run_epochs_spec (a : F) (es : list Z) :
  StronglySorted Z.lt es ->
  forall st : list (Phase.t X Y F) * world,
  flagged (snd st) ->
  exists J,
    Loop.journal (snd (Loop.run_epochs a es st)) = Loop.journal (snd st) ++ J /\
    flagged (snd (Loop.run_epochs a es st)) /\
    same_shape (fst st) (fst (Loop.run_epochs a es st)) /\
    Forall (fun entry => exists e, In e es /\ epoch_of (fst entry) = Some e) J /\
    (forall ev k, In (ev, true) J -> epoch_of ev = Some k ->
       tags (filter (in_epoch k) J) = epoch_tags k (fst st) /\
       Forall (fun entry => forall k', epoch_of (fst entry) = Some k' ->
                                       k' <= k) J).
Proof.
  induction 1 as [|e rest Hsorted IH Hlt]; intros st Hfl.
  - exists []. simpl. rewrite app_nil_r.
    split; [reflexivity|]. split; [assumption|]. split; [reflexivity|].
    split; [constructor|]. intros ev k [].
  - destruct (stopped (snd st)) eqn:Hstop.
    + rewrite run_epochs_stopped by assumption.
      exists []. rewrite app_nil_r.
      split; [reflexivity|]. split; [assumption|]. split; [reflexivity|].
      split; [constructor|]. intros ev k [].
    + cbn [Loop.run_epochs]. rewrite Hstop.
      destruct (run_phases_spec a e (fst st) (snd st))
        as ([(J1 & Hj1 & Hall1 & Ht1) [Hf1 _]] & Hsh1).
      set (st1 := Loop.run_phases a e (fst st) (snd st)) in *.
      specialize (Hf1 Hfl).
      destruct (IH st1 Hf1) as (J2 & Hj2 & Hf2 & Hsh2 & Hall2 & Hlast2).
      exists (J1 ++ J2).
      split; [rewrite Hj2, Hj1, app_assoc; reflexivity|].
      split; [assumption|].
      split; [unfold same_shape in *; congruence|].
      split.
      { apply Forall_app. split.
        - eapply Forall_impl; [|exact Hall1].
          intros entry He. exists e. split; [left; reflexivity|exact He].
        - eapply Forall_impl; [|exact Hall2].
          intros entry (e' & Hin & He). exists e'. split; [right|]; assumption. }
      intros ev k Hin Hk. apply in_app_or in Hin as [Hin|Hin].
      * (* the flag is recorded as set within epoch [e] *)
        assert (k = e) as ->.
        { rewrite Forall_forall in Hall1. specialize (Hall1 _ Hin).
          simpl in Hall1. congruence. }
        assert (Hs1 : stopped (snd st1) = true).
        { apply (Hf1 ev). rewrite Hj1. apply in_or_app. right. exact Hin. }
        rewrite (run_epochs_stopped a rest st1 Hs1) in Hj2.
        assert (J2 = []) as ->.
        { apply (app_inv_head (Loop.journal (snd st1))).
          rewrite app_nil_r. symmetry. exact Hj2. }
        rewrite app_nil_r. rewrite filter_epoch_all by assumption.
        split; [exact Ht1|].
        eapply Forall_impl; [|exact Hall1].
        intros entry He k' Hk'. simpl in He. rewrite He in Hk'.
        injection Hk' as <-. lia.
      * (* the flag is recorded as set within a later epoch *)
        assert (Hke : e < k).
        { rewrite Forall_forall in Hall2.
          destruct (Hall2 _ Hin) as (e' & Hin' & He'). simpl in He'.
          assert (e' = k) as -> by congruence.
          rewrite Forall_forall in Hlt. apply Hlt, Hin'. }
        destruct (Hlast2 ev k Hin Hk) as [Htags Hbound].
        rewrite filter_app, filter_epoch_none, app_nil_l.
        -- split.
           ++ rewrite Htags. symmetry.
              apply epoch_tags_same_shape, Hsh1.
           ++ apply Forall_app. split; [|exact Hbound].
              eapply Forall_impl; [|exact Hall1].
              intros entry He k' Hk'. simpl in He. rewrite He in Hk'.
              injection Hk' as <-. lia.
        -- eapply Forall_impl; [|exact Hall1].
           intros entry He e' He'. simpl in He. rewrite He in He'.
           injection He' as <-. lia.
Qed.

Lemma range_sorted_from (a m : nat) :
  StronglySorted Z.lt (map Z.of_nat (seq a m)).
Proof.
  revert a; induction m as [|m IH]; intros a; simpl; constructor.
  - apply IH.
  - apply Forall_forall. intros z Hz.
    apply in_map_iff in Hz as (i & <- & Hi). apply in_seq in Hi. lia.
Qed.

Lemma range_sorted (n : Z) : StronglySorted Z.lt (Loop.range n).
Proof. apply range_sorted_from. Qed.

Lemma in_range (n e : Z) : In e (Loop.range n) -> 0 <= e < n.
Proof.
  unfold Loop.range. intros Hin.
  apply in_map_iff in Hin as (i & <- & Hi). apply in_seq in Hi. lia.
Qed.

(** The journal of a run: the start of the training, whole epochs, the end
    of the training. *)
Lemma run_journal (self : Loop.t) (train valid : list (X * Y)) (n : Z)
    (callbacks : option (list (CallbackGroup.observer X Y F C))) :
  let w := snd (Loop.run self train valid n callbacks) in
  let ps := [Phase.__init__ "train" train; Phase.__init__ "valid" valid] in
  exists b0 b1 J,
    Loop.journal w = (training_start, b0) :: J ++ [(training_end, b1)] /\
    flagged w /\
    (Loop.stop self = true ->
     J = [] /\ fst (Loop.run self train valid n callbacks) = ps) /\
    (Loop.stop self = true -> stopped w = true) /\
    Forall (fun entry => exists e, 0 <= e < n /\ epoch_of (fst entry) = Some e)
           J /\
    (forall ev k, In (ev, true) J -> epoch_of ev = Some k ->
       tags (filter (in_epoch k) J) = epoch_tags k ps /\
       Forall (fun entry => forall k', epoch_of (fst entry) = Some k' ->
                                       k' <= k) J).
Proof.
  cbv zeta. unfold Loop.run.
  set (ps := [Phase.__init__ "train" train; Phase.__init__ "valid" valid]).
  set (w00 := Loop.mk_world self (CallbackGroup.__init__ callbacks) []).
  set (w0 := Loop.fire training_start w00).
  assert (Hfl00 : flagged w00) by (intros ev []).
  assert (Hfl0 : flagged w0) by (apply fire_flagged, Hfl00).
  destruct (@run_epochs_spec (Loop.alpha self) (Loop.range n)
              (range_sorted n) (ps, w0) Hfl0)
    as (J & Hj & Hfl & _ & Hall & Hlast).
  pose proof (run_epochs_stopped (Loop.alpha self) (Loop.range n) (ps, w0))
    as Hstopped.
  destruct (Loop.run_epochs (Loop.alpha self) (Loop.range n) (ps, w0))
    as [ps' w1].
  cbn [fst snd] in *.
  exists (stopped w0), (stopped (Loop.fire training_end w1)), J.
  split; [|split; [|split; [|split; [|split]]]].
  - rewrite fire_journal, Hj. unfold w0. rewrite fire_journal. reflexivity.
  - apply fire_flagged, Hfl.
  - intros Hs.
    assert (Hs0 : stopped w0 = true) by (apply fire_stop; exact Hs).
    specialize (Hstopped Hs0). injection Hstopped as -> ->.
    split; [|reflexivity].
    apply (app_inv_head (Loop.journal w0)). rewrite app_nil_r.
    symmetry. exact Hj.
  - intros Hs.
    assert (Hs0 : stopped w0 = true) by (apply fire_stop; exact Hs).
    specialize (Hstopped Hs0). injection Hstopped as -> ->.
    apply fire_stop, Hs0.
  - eapply Forall_impl; [|exact Hall].
    intros entry (e & Hin & He). exists e. split; [|exact He].
    apply in_range, Hin.
  - exact Hlast.
Qed.

(** C4: when the journal of a run records, at an event of epoch [k], that
    the [stop] flag is set, then the events of epoch [k] are those of a
    whole train phase followed by a whole valid phase, no event of a later
    epoch is in the journal, and the run ends with the training-end event
    and the flag set. The flag is read at the top of the epoch loop only. *)
Theorem stop_takes_effect_between_epochs (self : Loop.t)
    (train valid : list (X * Y)) (n : Z)
    (callbacks : option (list (CallbackGroup.observer X Y F C)))
    (ev : event X Y F) (k : Z) :
  let w := snd (Loop.run self train valid n callbacks) in
  In (ev, true) (Loop.journal w) ->
  epoch_of ev = Some k ->
  tags (filter (in_epoch k) (Loop.journal w))
  = phase_tags k "train" (length train) ++ phase_tags k "valid" (length valid)
  /\
  (forall entry k', In entry (Loop.journal w) ->
                    epoch_of (fst entry) = Some k' -> k' <= k) /\
  0 <= k < n /\
  (exists b J, Loop.journal w = J ++ [(training_end, b)]) /\
  Loop.stop (Loop.self w) = true.
Proof.
  intros w Hin Hk.
  destruct (run_journal self train valid n callbacks)
    as (b0 & b1 & J & Hj & Hfl & _ & _ & Hall & Hlast).
  fold w in Hj, Hfl. rewrite Hj in *.
  assert (HinJ : In (ev, true) J).
  { destruct Hin as [Heq|Hin]; [injection Heq as <- _; discriminate|].
    apply in_app_or in Hin as [Hin|[Heq|[]]]; [exact Hin|].
    injection Heq as <- _. discriminate. }
  destruct (Hlast ev k HinJ Hk) as [Htags Hbound].
  split; [|split; [|split; [|split]]].
  - cbn [filter]. unfold in_epoch at 1. cbn [fst epoch_of].
    rewrite filter_app. cbn [filter]. unfold in_epoch at 2.
    cbn [fst epoch_of]. rewrite app_nil_r, Htags.
    unfold epoch_tags. cbn [map concat Phase.__init__ Phase.name
                            Phase.dataset].
    rewrite app_nil_r. reflexivity.
  - intros entry k' Hentry Hk'.
    destruct Hentry as [<-|Hentry]; [discriminate|].
    apply in_app_or in Hentry as [Hentry|[<-|[]]]; [|discriminate].
    rewrite Forall_forall in Hbound. exact (Hbound entry Hentry k' Hk').
  - rewrite Forall_forall in Hall.
    destruct (Hall _ HinJ) as (e & He & Hev). simpl in Hev. congruence.
  - exists b1, ((training_start, b0) :: J). reflexivity.
  - apply (Hfl ev). rewrite Hj. exact Hin.
Qed.

(** C10: [stop] is false in a loop just constructed. A run never clears it:
    a journal entry that records the flag as set is followed by a set flag
    in the loop the run leaves. A run of a loop whose flag is set fires the
    training-start and training-end events and nothing else, leaves both
    phases as constructed, and leaves the flag set, so that the same holds
    of every later run. *)
Theorem stopped_loop_runs_no_epoch :
  (forall (stepper : Stepper.t) (alpha : option F),
     Loop.stop (Loop.__init__ stepper alpha) = false) /\
  (forall (self : Loop.t) (train valid : list (X * Y)) (n : Z)
          (callbacks : option (list (CallbackGroup.observer X Y F C)))
          (ev : event X Y F),
     let w := snd (Loop.run self train valid n callbacks) in
     In (ev, true) (Loop.journal w) -> Loop.stop (Loop.self w) = true) /\
  (forall (self : Loop.t) (train valid : list (X * Y)) (n : Z)
          (callbacks : option (list (CallbackGroup.observer X Y F C))),
     Loop.stop self = true ->
     let w := snd (Loop.run self train valid n callbacks) in
     tags (Loop.journal w)
     = [(TrainingStart, None, None); (TrainingEnd, None, None)] /\
     fst (Loop.run self train valid n callbacks)
     = [Phase.__init__ "train" train; Phase.__init__ "valid" valid] /\
     Loop.stop (Loop.self w) = true).
Proof.
  split; [reflexivity|]. split.
  - intros self train valid n callbacks ev w Hin.
    destruct (run_journal self train valid n callbacks)
      as (_ & _ & _ & _ & Hfl & _).
    exact (Hfl ev Hin).
  - intros self train valid n callbacks Hs w.
    destruct (run_journal self train valid n callbacks)
      as (b0 & b1 & J & Hj & _ & Hnone & Hkeep & _).
    destruct (Hnone Hs) as [-> Hps].
    split; [|split].
    + unfold w. rewrite Hj. reflexivity.
    + exact Hps.
    + exact (Hkeep Hs).
Qed.

End LoopFacts.

(** Four epochs over two train batches and one valid batch; the observer
    asks to stop at the end of the first train batch of epoch 1. *)
Lemma stop_takes_effect_between_epochs_witness :
  let w := snd (Loop.run (K := constant_loss 1%Q)
                  (Loop.__init__ (fresh_stepper 1%Q) None)
                  [(tt, tt); (tt, tt)] [(tt, tt)] 4
                  (Some [stop_in_epoch 1])) in
  let ev := fst (nth 13 (Loop.journal w) (training_start, false)) in
  In (ev, true) (Loop.journal w) /\
  epoch_of ev = Some 1 /\
  tags (filter (in_epoch 1) (Loop.journal w))
  = phase_tags 1 "train" 2 ++ phase_tags 1 "valid" 1 /\
  (forall entry k', In entry (Loop.journal w) ->
                    epoch_of (fst entry) = Some k' -> k' <= 1) /\
  Loop.stop (Loop.self w) = true.
Proof.
  intros w ev.
  assert (Hin : In (ev, true) (Loop.journal w)).
  { vm_compute. do 13 right. left. reflexivity. }
  assert (Hk : epoch_of ev = Some 1) by reflexivity.
  destruct (@stop_takes_effect_between_epochs unit unit Q unit exact_float
              (constant_loss 1%Q) (Loop.__init__ (fresh_stepper 1%Q) None)
              [(tt, tt); (tt, tt)] [(tt, tt)] 4 (Some [stop_in_epoch 1])
              ev 1 Hin Hk)
    as (Htags & Hbound & _ & _ & Hstop).
  repeat split; assumption.
Defined.

(** ** Loop: the running loss *)

Section RunningLoss.
Context {X Y F C : Type} {P : PyFloat F} {K : Collaborators X Y F}.

Lemma step_loss (s : Stepper.t) (x : X) (y : Y) (train : bool) :
  fst (fst (Stepper.step s x y train))
  = item (loss_call (fst (model_call train (Stepper.model s) x)) y).
Proof.
  unfold Stepper.step.
  destruct (model_call train (Stepper.model s) x) as [out m0].
  destruct train; [|reflexivity].
  destruct (optimizer_step _ _) as [o3 m3].
  destruct (schedule_step _ o3) as [s4 o4]. reflexivity.
Qed.

(** When every batch has the loss [c], a phase over [n] batches applies [n]
    steps of the running loss. *)
Lemma run_batches_avg_loss (c a : F) (epoch : Z) (tr : bool)
    (l : list (X * Y)) :
  (forall t : LossTensor, item t = c) ->
  forall (p : Phase.t X Y F) (w : Loop.world C),
  Phase.avg_loss (fst (fold_left (Loop.run_batch a epoch tr) l (p, w)))
  = Nat.iter (length l) (fun r => ema a r c) (Phase.avg_loss p).
Proof.
  intros Hc. induction l as [|xy l IH]; intros p w; [reflexivity|].
  cbn [fold_left length].
  destruct (run_batch_spec a epoch tr p w xy) as (_ & _ & _ & _ & Havg & _).
  destruct (Loop.run_batch a epoch tr (p, w) xy) as [p' w'].
  cbn [fst] in Havg. rewrite IH, Havg, step_loss, Hc.
  rewrite Nat.iter_succ_r. reflexivity.
Qed.

Lemma run_phase_avg_loss (c a : F) (epoch : Z) (p : Phase.t X Y F)
    (w : Loop.world C) :
  (forall t : LossTensor, item t = c) ->
  let p' := fst (Loop.run_phase a epoch p w) in
  Phase.avg_loss p'
  = Nat.iter (length (Phase.dataset p)) (fun r => ema a r c)
             (Phase.avg_loss p) /\
  Phase.name p' = Phase.name p /\
  Phase.batch_num p' = Phase.batch_num p + Z.of_nat (length (Phase.dataset p)).
Proof.
  intros Hc. cbv zeta. unfold Loop.run_phase.
  set (w1 := Loop.fire (epoch_start epoch p) w).
  pose proof (run_batches_avg_loss a epoch
                (String.eqb (Phase.name p) "train") (Phase.dataset p) Hc p w1)
    as Havg.
  destruct (run_batches_spec a epoch (String.eqb (Phase.name p) "train")
              (Phase.dataset p) p w1) as (_ & Hn & _ & Hb).
  destruct (fold_left _ (Phase.dataset p) (p, w1)) as [p' w'].
  cbn [fst] in *. auto.
Qed.

(** One epoch with no observer, from a loop just constructed: the phases it
    leaves are the two phases, each run once. *)
Lemma run_one_epoch (s : Stepper.t) (alpha : option F)
    (train valid : list (X * Y)) :
  exists (w0 w1 : Loop.world C),
    let a := Loop.alpha (Loop.__init__ s alpha) in
    fst (Loop.run (C := C) (Loop.__init__ s alpha) train valid 1 None)
    = [fst (Loop.run_phase a 0 (Phase.__init__ "train" train) w0);
       fst (Loop.run_phase a 0 (Phase.__init__ "valid" valid) w1)].
Proof.
  unfold Loop.run.
  change (Loop.range 1) with [0].
  set (w0 := Loop.fire training_start _).
  assert (Hs : Loop.stop (Loop.self w0) = false) by reflexivity.
  cbn [Loop.run_epochs fst snd]. rewrite Hs.
  cbn [Loop.run_phases].
  exists w0.
  destruct (Loop.run_phase _ 0 (Phase.__init__ "train" train) w0)
    as [pt w1].
  exists w1.
  destruct (Loop.run_phase _ 0 (Phase.__init__ "valid" valid) w1)
    as [pv w2].
  reflexivity.
Qed.

End RunningLoss.

(** In exact arithmetic, [n] steps on a constant loss [c] leave the running
    loss at [c + (r0 - c) * a^n]: it tends to [c] from any start [r0] when
    [|a| < 1]. *)
Lemma ema_closed_form (a c r0 : Q) (n : nat) :
  (Nat.iter n (fun r => ema a r c) r0 == c + (r0 - c) * a ^ Z.of_nat n)%Q.
Proof.
  induction n as [|n IH].
  - simpl. ring.
  - rewrite Nat2Z.inj_succ, <- Z.add_1_l.
    rewrite Qpower_plus' by lia.
    rewrite Nat.iter_succ. unfold ema at 1.
    cbn [fadd fmul fsub f1 exact_float].
    rewrite IH. change (a ^ 1)%Q with a. ring.
Qed.

(** C8: [alpha] defaults to 0.98. After each batch the running loss of the
    phase is [avg_loss*alpha + loss*(1 - alpha)], with [loss] the value the
    stepper returned for the batch. For a loss of 1.0 on each of 100 train
    batches, from a loop just constructed with the default [alpha], one epoch
    leaves the running loss of the train phase, 0.0 at its construction, at
    [1 - 0.98^100] in exact arithmetic, which is more than 0.85; computed in
    binary64 it is more than 0.85 as well. *)
Theorem running_loss_is_exponential_average :
  (forall (X Y F : Type) (P : PyFloat F) (K : Collaborators X Y F)
          (s : Stepper.t),
     Loop.alpha (Loop.__init__ s None) = f098) /\
  @f098 Q exact_float = (98 # 100)%Q /\
  (forall (X Y F C : Type) (P : PyFloat F) (K : Collaborators X Y F) (a : F)
          (epoch : Z) (is_training : bool) (p : Phase.t X Y F)
          (w : Loop.world C) (x : X) (y : Y),
     Phase.avg_loss (fst (Loop.run_batch a epoch is_training (p, w) (x, y)))
     = fadd (fmul (Phase.avg_loss p) a)
            (fmul (fst (fst (Stepper.step (Loop.stepper (Loop.self w)) x y
                                          is_training)))
                  (fsub f1 a))) /\
  (forall (X Y : Type) (K : Collaborators X Y Q) (s : Stepper.t)
          (train valid : list (X * Y)),
     (forall t : LossTensor, item t = 1%Q) ->
     length train = 100%nat ->
     exists pt pv,
       fst (Loop.run (C := unit) (Loop.__init__ s None) train valid 1 None)
       = [pt; pv] /\
       Phase.name pt = "train"%string /\
       Phase.batch_num pt = 100 /\
       (Phase.avg_loss pt == 1 - (98 # 100) ^ 100)%Q /\
       (85 # 100 < Phase.avg_loss pt)%Q) /\
  (forall (X Y : Type) (K : Collaborators X Y PrimFloat.float) (s : Stepper.t)
          (train valid : list (X * Y)),
     (forall t : LossTensor, item t = 1%float) ->
     length train = 100%nat ->
     exists pt pv,
       fst (Loop.run (C := unit) (Loop.__init__ s None) train valid 1 None)
       = [pt; pv] /\
       Phase.name pt = "train"%string /\
       PrimFloat.ltb 0x1.b333333333333p-1 (Phase.avg_loss pt) = true).
Proof.
  split; [reflexivity|]. split; [reflexivity|]. split; [|split].
  - intros X Y F C P K a epoch is_training p w x y.
    destruct (run_batch_spec a epoch is_training p w (x, y))
      as (_ & _ & _ & _ & Havg & _).
    exact Havg.
  - intros X Y K s train valid Hc Hlen.
    destruct (run_one_epoch (C := unit) s None train valid) as (w0 & w1 & Hrun).
    cbv zeta in Hrun. rewrite Hrun. do 2 eexists. split; [reflexivity|].
    destruct (run_phase_avg_loss (Loop.alpha (Loop.__init__ s None)) 0
                (Phase.__init__ "train" train) w0 Hc) as (Havg & Hn & Hb).
    rewrite Havg, Hn, Hb.
    cbn [Phase.__init__ Phase.dataset Phase.name Phase.batch_num
         Phase.avg_loss]. rewrite Hlen.
    split; [reflexivity|]. split; [reflexivity|].
    cbn [Loop.__init__ Loop.alpha].
    rewrite ema_closed_form. cbn [f0 f098 exact_float].
    change (Z.of_nat 100) with 100%Z.
    split; [ring|]. unfold Qlt. vm_compute. reflexivity.
  - intros X Y K s train valid Hc Hlen.
    destruct (run_one_epoch (C := unit) s None train valid) as (w0 & w1 & Hrun).
    cbv zeta in Hrun. rewrite Hrun. do 2 eexists. split; [reflexivity|].
    destruct (run_phase_avg_loss (Loop.alpha (Loop.__init__ s None)) 0
                (Phase.__init__ "train" train) w0 Hc) as (Havg & Hn & _).
    rewrite Havg, Hn.
    cbn [Phase.__init__ Phase.dataset Phase.name Phase.avg_loss].
    rewrite Hlen. split; [reflexivity|].
    vm_compute. reflexivity.
Qed.

(** ** SequenceIterator: the length of a window *)

(** C1 (what the code does at [random_length = False]): the guard of
    [get_sequence_length] is [random_length is None], so only [None] gives
    the base window at every step, with no draw. With [random_length = False]
    the guard fails and the length is drawn as with [True]: for
    [bptt = 10], a uniform draw of 0.5 and a normal draw of 3 give the
    length 5, and a uniform draw of 0.96 halves the base window before the
    normal draw. The claim asks for [bptt] there. *)
Theorem random_length_false_still_draws :
  (forall (G : Type) (R : NumpyRandom G) (it : SI.t) (g : G),
     SI.random_length it = None ->
     SI.get_sequence_length it g = (SI.bptt it, g)) /\
  (forall (G : Type) (R : NumpyRandom G) (it : SI.t) (g : G) (b : bool),
     SI.random_length it = Some b ->
     SI.get_sequence_length it g
     = SI.get_sequence_length
         (SI.mk (SI.bptt it) (SI.split_size it) (Some true)
                (SI.flatten_target it) (SI.batches it) (SI.curr_iter it)
                (SI.curr_line it) (SI.total_lines it) (SI.total_iters it))
         g) /\
  (exists it,
     SI.__init__ (List.repeat 7 60) 10 2 (Some false) true = Py.Ok it /\
     SI.random_length it = Some false /\
     SI.bptt it = 10 /\
     SI.get_sequence_length it [1 # 2; (-7) # 5]%Q = (5, []) /\
     SI.get_sequence_length it [96 # 100; 2]%Q = (15, []) /\
     fst (SI.get_sequence_length it [1 # 2; (-7) # 5]%Q) <> SI.bptt it).
Proof.
  split; [|split].
  - intros G R it g Hrl. unfold SI.get_sequence_length. rewrite Hrl.
    reflexivity.
  - intros G R it g b Hrl. unfold SI.get_sequence_length. rewrite Hrl.
    reflexivity.
  - eexists. split; [reflexivity|].
    split; [reflexivity|]. split; [reflexivity|].
    split; [vm_compute; reflexivity|]. split; [vm_compute; reflexivity|].
    vm_compute. discriminate.
Qed.

(** ** Examples *)

Lemma eval_step_leaves_stepper_unchanged_witness :
  let s := fresh_stepper 1%Q in
  snd (model_call false (Stepper.model s) tt) = Stepper.model s /\
  snd (fst (Stepper.step s tt tt false)) = s /\
  fst (fst (Stepper.step (snd (fst (Stepper.step s tt tt false))) tt tt false))
  = fst (fst (Stepper.step s tt tt false)).
Proof.
  intros s.
  assert (Hpure : snd (model_call false (Stepper.model s) tt)
                  = Stepper.model s) by reflexivity.
  destruct (@eval_step_leaves_stepper_unchanged unit unit Q
              (constant_loss 1%Q) s tt tt) as (_ & _ & Hsame).
  destruct (Hsame Hpure) as (Hs & _ & _ & Hloss).
  repeat split; assumption.
Defined.

Lemma running_loss_is_exponential_average_witness :
  exists pt pv,
    fst (Loop.run (C := unit) (Loop.__init__ (fresh_stepper 1%Q) None)
           (List.repeat (tt, tt) 100) [(tt, tt)] 1 None)
    = [pt; pv] /\
    Phase.name pt = "train"%string /\
    Phase.batch_num pt = 100 /\
    (Phase.avg_loss pt == 1 - (98 # 100) ^ 100)%Q /\
    (85 # 100 < Phase.avg_loss pt)%Q.
Proof.
  destruct running_loss_is_exponential_average as (_ & _ & _ & Hexact & _).
  apply (Hexact unit unit (constant_loss 1%Q) (fresh_stepper 1%Q)
           (List.repeat (tt, tt) 100) [(tt, tt)]).
  - intros t. reflexivity.
  - reflexivity.
Defined.

(** A first run of three epochs that an observer stops in epoch 0, then a
    second run of the loop it leaves, asked for five epochs. *)
Lemma stopped_loop_runs_no_epoch_witness :
  let first := Loop.run (K := constant_loss 1%Q)
                 (Loop.__init__ (fresh_stepper 1%Q) None)
                 [(tt, tt)] [(tt, tt)] 3 (Some [stop_in_epoch 0]) in
  let second := Loop.run (Loop.self (snd first))
                  [(tt, tt); (tt, tt)] [(tt, tt)] 5
                  (Some [stop_in_epoch 0]) in
  Loop.stop (Loop.self (snd first)) = true /\
  tags (Loop.journal (snd second))
  = [(TrainingStart, None, None); (TrainingEnd, None, None)] /\
  Loop.stop (Loop.self (snd second)) = true.
Proof.
  intros first second.
  destruct (@stopped_loop_runs_no_epoch unit unit Q unit exact_float
              (constant_loss 1%Q)) as (_ & Hset & Hnone).
  assert (Hstop : Loop.stop (Loop.self (snd first)) = true).
  { apply (Hset (Loop.__init__ (fresh_stepper 1%Q) None)
             [(tt, tt)] [(tt, tt)] 3 (Some [stop_in_epoch 0])
             (fst (nth 3 (Loop.journal (snd first))
                       (training_start, false)))).
    vm_compute. do 3 right. left. reflexivity. }
  split; [exact Hstop|].
  destruct (Hnone (Loop.self (snd first)) [(tt, tt); (tt, tt)] [(tt, tt)] 5
              (Some [stop_in_epoch 0]) Hstop) as (Htags & _ & Hkeep).
  split; assumption.
Defined.

(** * The rest of rnn/rnn_classify.py: properties *)

(** ** split_into and tokenize_in_parallel *)

Lemma firstn_min_length (A : Type) (m : nat) (l : list A) :
  firstn (Nat.min m (length l)) l = firstn m l.
Proof.
  destruct (Nat.le_ge_cases m (length l)) as [Hle|Hge].
  - rewrite Nat.min_l by assumption. reflexivity.
  - rewrite Nat.min_r by assumption.
    rewrite !firstn_all2 by lia. reflexivity.
Qed.

(** A slice of width [n] that starts inside the list. *)
Lemma slice_chunk (A : Type) (l : list A) (i n : Z) :
  0 <= i <= Py.len l -> 0 <= n ->
  Py.slice l i (i + n) = firstn (Z.to_nat n) (skipn (Z.to_nat i) l).
Proof.
  intros Hi Hn. unfold Py.slice, Py.slice_bound, Py.len in *.
  destruct (Z.ltb_spec i 0); [lia|].
  destruct (Z.ltb_spec (i + n) 0); [lia|].
  rewrite <- (firstn_min_length (Z.to_nat n)).
  rewrite length_skipn. f_equal; [lia|]. f_equal. lia.
Qed.

Lemma concat_chunks (A : Type) (m c : nat) :
  forall l : list A,
  (length l <= c * m)%nat ->
  concat (map (fun k => firstn m (skipn (k * m) l)) (seq 0 c)) = l.
Proof.
  induction c as [|c IH]; intros l Hlen.
  - destruct l; [reflexivity|simpl in Hlen; lia].
  - cbn [seq map concat]. rewrite <- seq_shift, map_map.
    cbn [Nat.mul skipn].
    rewrite (map_ext (fun k => firstn m (skipn (S k * m) l))
                     (fun k => firstn m (skipn (k * m) (skipn m l)))).
    + rewrite IH by (rewrite length_skipn; lia).
      apply firstn_skipn.
    + intros k. rewrite skipn_skipn. f_equal. f_equal. lia.
Qed.

(** The starts that [range(0, len, n)] gives for [n > 0], and the parts cut
    there. *)
Lemma split_into_chunks (A : Type) (arr : list A) (n : Z) :
  0 < n ->
  split_into arr n
  = Exc.Done (map (fun k => firstn (Z.to_nat n) (skipn (k * Z.to_nat n) arr))
                  (seq 0 (Z.to_nat ((Py.len arr + n - 1) / n)))).
Proof.
  intros Hn. unfold split_into, Exc.range.
  destruct (Z.eqb_spec n 0); [lia|].
  destruct (Z.ltb_spec 0 n); [|lia].
  cbn [Exc.bind]. f_equal. rewrite map_map.
  replace (Py.len arr - 0 + n - 1) with (Py.len arr + n - 1) by lia.
  apply map_ext_in. intros k Hk. apply in_seq in Hk.
  assert (Hlen : 0 <= Py.len arr) by (unfold Py.len; lia).
  assert (Hq : Z.of_nat k < (Py.len arr + n - 1) / n) by lia.
  assert (Hkn : Z.of_nat k * n < Py.len arr).
  { assert ((Py.len arr + n - 1) / n * n <= Py.len arr + n - 1)
      by (rewrite Z.mul_comm; apply Z.mul_div_le; lia).
    nia. }
  rewrite slice_chunk by lia.
  f_equal. f_equal. lia.
Qed.

Lemma split_into_negative (A : Type) (arr : list A) (n : Z) :
  n < 0 -> split_into arr n = Exc.Done [].
Proof.
  intros Hn. unfold split_into, Exc.range.
  destruct (Z.eqb_spec n 0); [lia|].
  destruct (Z.ltb_spec 0 n); [lia|].
  assert (Hlen : 0 <= Py.len arr) by (unfold Py.len; lia).
  assert (Hq : (0 - Py.len arr - n - 1) / - n <= 0).
  { apply Z.lt_succ_r. apply Z.div_lt_upper_bound; lia. }
  replace (Z.to_nat ((0 - Py.len arr - n - 1) / - n)) with 0%nat by lia.
  reflexivity.
Qed.

(** X1: [split_into(arr, n)] with [n = 0] raises [ValueError] (a zero step
    of [range]). With [n < 0] it returns the empty list, whatever [arr]
    holds: every item is dropped, and nothing is raised. *)
Theorem split_into_nonpositive (A : Type) (arr : list A) (n : Z) :
  (n = 0 -> split_into arr n = Exc.Fail Exc.ValueError) /\
  (n < 0 -> split_into arr n = Exc.Done [] /\
            (arr <> [] -> forall parts, split_into arr n = Exc.Done parts ->
                                        concat parts <> arr)).
Proof.
  split; intros Hn.
  - subst n. reflexivity.
  - split; [apply split_into_negative, Hn|].
    intros Harr parts Hparts.
    rewrite split_into_negative in Hparts by assumption.
    injection Hparts as <-. simpl. congruence.
Qed.

(** X2: for [n > 0], [split_into(arr, n)] returns parts that chain back to
    [arr] in order. There are [ceil(len(arr) / n)] of them, none is empty,
    none is longer than [n], and every part but the last has exactly [n]
    items. *)
Theorem split_into_partitions (A : Type) (arr : list A) (n : Z) :
  0 < n ->
  exists parts,
    split_into arr n = Exc.Done parts /\
    concat parts = arr /\
    Py.len parts = (Py.len arr + n - 1) / n /\
    Forall (fun part => 1 <= Py.len part <= n) parts /\
    (forall k : nat, (S k < length parts)%nat ->
                     Py.len (nth k parts []) = n).
Proof.
  intros Hn. rewrite split_into_chunks by assumption.
  assert (Hlen : 0 <= Py.len arr) by (unfold Py.len; lia).
  set (m := Z.to_nat n). set (c := Z.to_nat ((Py.len arr + n - 1) / n)).
  assert (Hc : Z.of_nat c = (Py.len arr + n - 1) / n).
  { unfold c. apply Z2Nat.id. apply Z.div_pos; lia. }
  assert (Hlo : Z.of_nat c * n <= Py.len arr + n - 1).
  { rewrite Hc, Z.mul_comm. apply Z.mul_div_le. lia. }
  assert (Hhi : Py.len arr + n - 1 < (Z.of_nat c + 1) * n).
  { rewrite Hc.
    pose proof (Z.mod_pos_bound (Py.len arr + n - 1) n Hn).
    pose proof (Z.div_mod (Py.len arr + n - 1) n). nia. }
  assert (Hpart : forall k, (k < c)%nat ->
            Py.len (firstn m (skipn (k * m) arr))
            = Z.min n (Py.len arr - Z.of_nat k * n)).
  { intros k Hk. unfold Py.len in *.
    rewrite length_firstn, length_skipn. unfold m. nia. }
  eexists. split; [reflexivity|]. split; [|split; [|split]].
  - apply concat_chunks. unfold Py.len, m in *. nia.
  - unfold Py.len. rewrite length_map, length_seq. exact Hc.
  - apply Forall_forall. intros part Hin.
    apply in_map_iff in Hin as (k & <- & Hk). apply in_seq in Hk.
    rewrite Hpart by lia. nia.
  - intros k Hk. rewrite length_map, length_seq in Hk.
    rewrite (nth_indep _ [] (firstn m (skipn (0 * m) arr)))
      by (rewrite length_map, length_seq; lia).
    rewrite (map_nth (fun k => firstn m (skipn (k * m) arr))).
    rewrite seq_nth by lia. cbn [Nat.add].
    rewrite Hpart by lia. nia.
Qed.

Lemma split_into_partitions_witness :
  exists parts,
    split_into [1; 2; 3; 4; 5; 6; 7] 3 = Exc.Done parts /\
    concat parts = [1; 2; 3; 4; 5; 6; 7] /\
    Py.len parts = 3 /\
    Forall (fun part => 1 <= Py.len part <= 3) parts /\
    (forall k : nat, (S k < length parts)%nat -> Py.len (nth k parts []) = 3).
Proof.
  apply (@split_into_partitions Z [1; 2; 3; 4; 5; 6; 7] 3). lia.
Defined.

(** X3: [tokenize_in_parallel] returns what [tokenize] returns on the whole
    list, the texts in their order, whenever [cpu_count()] is at least 1, and
    it hands the pool at most [cpu_count()] parts. A count of 0 raises
    [ZeroDivisionError], a negative one [ValueError]. *)
Theorem tokenize_in_parallel_is_tokenize (tok : SpacyTokenizer.t)
    (n_workers : Z) (texts : list string) :
  (1 <= n_workers ->
   tokenize_in_parallel tok n_workers texts = Exc.Done (tokenize tok texts) /\
   exists parts,
     split_into texts (Py.len texts / n_workers + 1) = Exc.Done parts /\
     Py.len parts <= n_workers) /\
  (n_workers = 0 ->
   tokenize_in_parallel tok n_workers texts = Exc.Fail Exc.ZeroDivisionError) /\
  (n_workers < 0 ->
   tokenize_in_parallel tok n_workers texts = Exc.Fail Exc.ValueError).
Proof.
  assert (Hlen : 0 <= Py.len texts) by (unfold Py.len; lia).
  unfold tokenize_in_parallel, Exc.floordiv.
  split; [|split]; intros Hn.
  - destruct (Z.eqb_spec n_workers 0); [lia|]. cbn [Exc.bind].
    assert (Hq : 0 <= Py.len texts / n_workers) by (apply Z.div_pos; lia).
    set (s := Py.len texts / n_workers + 1) in *.
    assert (Hlt : Py.len texts < s * n_workers).
    { unfold s.
      pose proof (Z.mod_pos_bound (Py.len texts) n_workers).
      pose proof (Z.div_mod (Py.len texts) n_workers). nia. }
    assert (Hcount : (Py.len texts + s - 1) / s <= n_workers).
    { apply Z.lt_succ_r. apply Z.div_lt_upper_bound; [lia|]. nia. }
    assert (Hcount0 : 0 <= (Py.len texts + s - 1) / s)
      by (apply Z.div_pos; lia).
    rewrite split_into_chunks by lia. cbn [Exc.bind].
    destruct (Z.ltb_spec n_workers 1); [lia|].
    split.
    + unfold tokenize. rewrite <- concat_map. f_equal. f_equal.
      apply concat_chunks.
      assert (Hmul : s * ((Py.len texts + s - 1) / s) >= Py.len texts).
      { pose proof (Z.mod_pos_bound (Py.len texts + s - 1) s).
        pose proof (Z.div_mod (Py.len texts + s - 1) s). nia. }
      unfold Py.len in *. nia.
    + eexists. split; [reflexivity|].
      unfold Py.len at 1. rewrite length_map, length_seq. lia.
  - subst n_workers. reflexivity.
  - destruct (Z.eqb_spec n_workers 0); [lia|]. cbn [Exc.bind].
    destruct (Z.ltb_spec n_workers 1); [|lia].
    set (s := Py.len texts / n_workers + 1).
    destruct (Z.lt_trichotomy s 0) as [Hs|[Hs|Hs]].
    + rewrite split_into_negative by assumption. reflexivity.
    + rewrite Hs. reflexivity.
    + rewrite split_into_chunks by assumption. reflexivity.
Qed.

Lemma tokenize_in_parallel_is_tokenize_witness :
  let tok := SpacyTokenizer.__init__ (fun text => [text]) None in
  tokenize_in_parallel tok 2 ["a"; "b"; "c"]%string
  = Exc.Done (tokenize tok ["a"; "b"; "c"]%string).
Proof.
  intros tok.
  apply (proj1 (tokenize_in_parallel_is_tokenize tok 2
                  ["a"; "b"; "c"]%string)).
  lia.
Defined.

(** ** Dictionaries *)

Lemma dict_get_set (V : Type) (d : Dict.t V) (k k' : string) (v : V) :
  Dict.get (Dict.set k v d) k'
  = if String.eqb k k' then Some v else Dict.get d k'.
Proof.
  induction d as [|[k0 v0] d IH]; simpl.
  - reflexivity.
  - destruct (String.eqb_spec k0 k) as [->|Hk0]; simpl.
    + destruct (String.eqb_spec k k'); reflexivity.
    + rewrite IH.
      destruct (String.eqb_spec k0 k') as [->|_];
        destruct (String.eqb_spec k k') as [->|_];
        try reflexivity; congruence.
Qed.

Lemma dict_keys_set (V : Type) (d : Dict.t V) (k : string) (v : V) :
  map fst (Dict.set k v d)
  = if existsb (String.eqb k) (map fst d) then map fst d
    else map fst d ++ [k].
Proof.
  induction d as [|[k0 v0] d IH]; simpl.
  - reflexivity.
  - rewrite (String.eqb_sym k k0).
    destruct (String.eqb_spec k0 k) as [->|Hk0]; simpl.
    + reflexivity.
    + rewrite IH. destruct (existsb _ _); reflexivity.
Qed.

Lemma existsb_eqb_in (k : string) (l : list string) :
  existsb (String.eqb k) l = true <-> In k l.
Proof.
  rewrite existsb_exists. split.
  - intros (x & Hin & Heq). apply String.eqb_eq in Heq. subst. assumption.
  - intros Hin. exists k. split; [assumption|apply String.eqb_refl].
Qed.

Lemma dict_get_none (V : Type) (d : Dict.t V) (k : string) :
  Dict.get d k = None <-> ~ In k (map fst d).
Proof.
  induction d as [|[k0 v0] d IH]; simpl.
  - tauto.
  - destruct (String.eqb_spec k0 k) as [->|Hk0].
    + split; [discriminate|]. intros Hn. exfalso. apply Hn. left. reflexivity.
    + rewrite IH. tauto.
Qed.

Lemma answer_set (d : Dict.t Z) (k k' : string) (v : Z) :
  answer (Dict.set k v d) k' = if String.eqb k k' then v else answer d k'.
Proof.
  unfold answer. rewrite dict_get_set.
  destruct (String.eqb k k'); reflexivity.
Qed.

(** ** enumerate and id_of *)

Lemma combine_app_same (A B : Type) (a a' : list A) (b b' : list B) :
  length a = length b ->
  combine (a ++ a') (b ++ b') = combine a b ++ combine a' b'.
Proof.
  revert b; induction a as [|x a IH]; intros [|y b] Hlen;
    simpl in *; try discriminate; [reflexivity|].
  rewrite IH by congruence. reflexivity.
Qed.

Lemma enumerate_snoc (A : Type) (l : list A) (x : A) :
  enumerate (l ++ [x]) = enumerate l ++ [(Py.len l, x)].
Proof.
  unfold enumerate, Py.len.
  rewrite length_app, Nat.add_comm. cbn [length Nat.add].
  rewrite seq_S, map_app. cbn [map Nat.add].
  rewrite combine_app_same by (rewrite length_map, length_seq; reflexivity).
  reflexivity.
Qed.

Lemma enumerate_values (A : Type) (l : list A) :
  map snd (enumerate l) = l.
Proof.
  induction l as [|x l IH] using rev_ind; [reflexivity|].
  rewrite enumerate_snoc, map_app, IH. reflexivity.
Qed.

Lemma id_of_snoc (itos : list string) (x token : string) :
  id_of (itos ++ [x]) token
  = if String.eqb x token then Py.len itos else id_of itos token.
Proof.
  unfold id_of. rewrite enumerate_snoc, fold_left_app. reflexivity.
Qed.

(** [id_of] is the last place of a token that is in the list, and 0 for a
    token that is not. *)
Lemma id_of_spec (itos : list string) (token : string) :
  (In token itos ->
   0 <= id_of itos token < Py.len itos /\
   nth_error itos (Z.to_nat (id_of itos token)) = Some token /\
   forall k : nat, (Z.to_nat (id_of itos token) < k)%nat ->
                   nth_error itos k <> Some token) /\
  (~ In token itos -> id_of itos token = 0).
Proof.
  induction itos as [|x itos IH] using rev_ind.
  - split; [intros []|reflexivity].
  - rewrite id_of_snoc. unfold Py.len in *. rewrite length_app.
    cbn [length].
    destruct (String.eqb_spec x token) as [->|Hx].
    + split; [intros _|intros Hn; exfalso; apply Hn, in_or_app; simpl; auto].
      rewrite Nat2Z.id. split; [lia|]. split.
      * rewrite nth_error_app2 by lia. rewrite Nat.sub_diag. reflexivity.
      * intros k Hk Hnth.
        assert (Hlt : (k < length (itos ++ [token]))%nat)
          by (apply nth_error_Some; congruence).
        rewrite length_app in Hlt. simpl in Hlt. lia.
    + destruct IH as [IHin IHout]. split.
      * intros Hin. apply in_app_or in Hin as [Hin|[Heq|[]]]; [|congruence].
        destruct (IHin Hin) as (Hr & Hnth & Hlast).
        split; [lia|]. split.
        -- rewrite nth_error_app1 by lia. exact Hnth.
        -- intros k Hk Hk'.
           destruct (Nat.lt_ge_cases k (length itos)) as [Hlt|Hge].
           ++ rewrite nth_error_app1 in Hk' by assumption.
              exact (Hlast k Hk Hk').
           ++ rewrite nth_error_app2 in Hk' by assumption.
              destruct (k - length itos)%nat as [|j]; simpl in Hk'.
              ** congruence.
              ** destruct j; discriminate.
      * intros Hn. apply IHout. intros Hin. apply Hn, in_or_app. auto.
Qed.

(** Without duplicates, a token's id is its place. *)
Lemma id_of_nth (itos : list string) (k : nat) (token : string) :
  NoDup itos -> nth_error itos k = Some token ->
  id_of itos token = Z.of_nat k.
Proof.
  intros Hnd Hk.
  assert (Hin : In token itos) by (eapply nth_error_In; eassumption).
  destruct (proj1 (id_of_spec itos token) Hin) as (Hr & Hnth & _).
  assert (Hlt : (k < length itos)%nat) by (apply nth_error_Some; congruence).
  rewrite NoDup_nth_error in Hnd.
  specialize (Hnd k (Z.to_nat (id_of itos token)) Hlt).
  rewrite Hk, Hnth in Hnd. specialize (Hnd eq_refl). lia.
Qed.

(** ** Vocab: the ids of tokens *)

Lemma fold_tracks (token : string) (E : list (Z * string)) :
  forall (d : Dict.t Z) (acc : Z),
  answer d token = acc ->
  answer (fold_left (fun d kv => Dict.set (snd kv) (fst kv) d) E d) token
  = fold_left (fun acc kv => if String.eqb (snd kv) token then fst kv
                             else acc) E acc.
Proof.
  induction E as [|[i x] E IH]; intros d acc Hacc; simpl; [assumption|].
  apply IH. rewrite answer_set, Hacc. reflexivity.
Qed.

Lemma init_tracks (itos : list string) : tracks (Vocab.__init__ itos).
Proof. intros token. apply fold_tracks. reflexivity. Qed.

Lemma lookup_spec (v : Vocab.t) (token : string) :
  tracks v ->
  fst (Vocab.lookup v token) = id_of (Vocab.itos v) token /\
  tracks (snd (Vocab.lookup v token)) /\
  Vocab.itos (snd (Vocab.lookup v token)) = Vocab.itos v /\
  Vocab.size (snd (Vocab.lookup v token)) = Vocab.size v.
Proof.
  intros Ht. unfold Vocab.lookup.
  pose proof (Ht token) as Htok. unfold answer in Htok.
  destruct (Dict.get (Vocab.stoi v) token) as [i|] eqn:Hget; simpl.
  - auto.
  - split; [assumption|]. split; [|auto].
    intros t. cbn [Vocab.stoi Vocab.itos]. rewrite answer_set.
    destruct (String.eqb_spec token t) as [<-|_]; [assumption|apply Ht].
Qed.

Lemma numericalize_text_spec (text : list string) :
  forall v : Vocab.t,
  tracks v ->
  fst (Vocab.numericalize_text v text) = map (id_of (Vocab.itos v)) text /\
  tracks (snd (Vocab.numericalize_text v text)) /\
  Vocab.itos (snd (Vocab.numericalize_text v text)) = Vocab.itos v /\
  Vocab.size (snd (Vocab.numericalize_text v text)) = Vocab.size v.
Proof.
  induction text as [|token text IH]; intros v Ht; simpl; [auto|].
  destruct (lookup_spec token Ht) as (Hi & Ht1 & Hitos1 & Hsize1).
  destruct (Vocab.lookup v token) as [i v1]. cbn [fst snd] in *.
  destruct (IH v1 Ht1) as (Hids & Ht2 & Hitos2 & Hsize2).
  destruct (Vocab.numericalize_text v1 text) as [ids v2].
  cbn [fst snd] in *. subst i ids.
  rewrite Hitos1. repeat split; congruence.
Qed.

Lemma numericalize_spec (texts : list (list string)) :
  forall v : Vocab.t,
  tracks v ->
  fst (Vocab.numericalize v texts)
  = map (map (id_of (Vocab.itos v))) texts /\
  tracks (snd (Vocab.numericalize v texts)) /\
  Vocab.itos (snd (Vocab.numericalize v texts)) = Vocab.itos v /\
  Vocab.size (snd (Vocab.numericalize v texts)) = Vocab.size v.
Proof.
  induction texts as [|text texts IH]; intros v Ht; simpl; [auto|].
  destruct (numericalize_text_spec text Ht) as (Hi & Ht1 & Hitos1 & Hsize1).
  destruct (Vocab.numericalize_text v text) as [ids v1].
  cbn [fst snd] in *.
  destruct (IH v1 Ht1) as (Hids & Ht2 & Hitos2 & Hsize2).
  destruct (Vocab.numericalize v1 texts) as [arrays v2].
  cbn [fst snd] in *. subst ids arrays.
  rewrite Hitos1. repeat split; congruence.
Qed.

Lemma for_each_done (A B : Type) (f : A -> Exc.result B) (g : A -> B)
    (l : list A) :
  (forall x, In x l -> f x = Exc.Done (g x)) ->
  Exc.for_each f l = Exc.Done (map g l).
Proof.
  induction l as [|x l IH]; intros Hf; simpl; [reflexivity|].
  rewrite (Hf x) by (left; reflexivity). cbn [Exc.bind].
  rewrite IH by (intros y Hy; apply Hf; right; assumption).
  reflexivity.
Qed.

(** When [f] raises nothing but [e], one raising item is enough. *)
Lemma for_each_fail (A B : Type) (f : A -> Exc.result B) (e : Exc.t)
    (l : list A) :
  (forall x e', f x = Exc.Fail e' -> e' = e) ->
  Exists (fun x => f x = Exc.Fail e) l ->
  Exc.for_each f l = Exc.Fail e.
Proof.
  intros Honly. induction 1 as [x l Hx|x l _ IH]; simpl.
  - rewrite Hx. reflexivity.
  - destruct (f x) as [y|e'] eqn:Hfx; cbn [Exc.bind].
    + rewrite IH. reflexivity.
    + f_equal. eapply Honly, Hfx.
Qed.

Lemma getitem_cases (A : Type) (l : list A) (i : Z) :
  (0 <= i < Py.len l ->
   exists x, Exc.getitem l i = Exc.Done x /\
             nth_error l (Z.to_nat i) = Some x) /\
  (- Py.len l <= i < 0 -> Exc.getitem l i = Exc.getitem l (i + Py.len l)) /\
  (i < - Py.len l \/ Py.len l <= i -> Exc.getitem l i = Exc.Fail Exc.IndexError) /\
  (forall e, Exc.getitem l i = Exc.Fail e -> e = Exc.IndexError).
Proof.
  unfold Exc.getitem, Py.len. split; [|split; [|split]].
  - intros Hi. destruct (Z.ltb_spec i 0); [lia|].
    destruct (Z.ltb_spec i 0); [lia|].
    destruct (nth_error l (Z.to_nat i)) as [x|] eqn:Hnth.
    + exists x. auto.
    + apply nth_error_None in Hnth. lia.
  - intros Hi. destruct (Z.ltb_spec i 0); [|lia].
    destruct (Z.ltb_spec (i + Z.of_nat (length l)) 0); [lia|].
    destruct (Z.ltb_spec (i + Z.of_nat (length l)) 0); [lia|].
    reflexivity.
  - intros Hi. destruct (Z.ltb_spec i 0).
    + destruct (Z.ltb_spec (i + Z.of_nat (length l)) 0); [reflexivity|].
      destruct Hi as [Hi|Hi]; lia.
    + destruct (Z.ltb_spec i 0); [lia|].
      destruct (nth_error l (Z.to_nat i)) as [x|] eqn:Hnth; [|reflexivity].
      assert (Z.to_nat i < length l)%nat by (apply nth_error_Some; congruence).
      destruct Hi as [Hi|Hi]; lia.
  - intros e.
    destruct (_ <? 0); [intros [= <-]; reflexivity|].
    destruct (nth_error _ _); [discriminate|intros [= <-]; reflexivity].
Qed.

(** X4: [numericalize] gives every token of every text the id [id_of itos
    token]: for a token of the vocabulary the last place at which [itos]
    holds it, a place below [size]; for any other token 0. The keys that
    the [defaultdict] enters on the way change no id: [itos] and [size] stay,
    and a later call gives the ids that a first call would give. *)
Theorem numericalize_gives_places (itos : list string)
    (texts later : list (list string)) :
  let first := Vocab.numericalize (Vocab.__init__ itos) texts in
  fst first = map (map (id_of itos)) texts /\
  Vocab.itos (snd first) = itos /\
  Vocab.size (snd first) = Py.len itos /\
  fst (Vocab.numericalize (snd first) later)
  = fst (Vocab.numericalize (Vocab.__init__ itos) later) /\
  (forall token,
     (In token itos ->
      0 <= id_of itos token < Py.len itos /\
      nth_error itos (Z.to_nat (id_of itos token)) = Some token /\
      forall k : nat, (Z.to_nat (id_of itos token) < k)%nat ->
                      nth_error itos k <> Some token) /\
     (~ In token itos -> id_of itos token = 0)).
Proof.
  intros first.
  destruct (numericalize_spec texts (init_tracks itos))
    as (Hids & Htr & Hitos & Hsize).
  fold first in Hids, Htr, Hitos, Hsize.
  destruct (numericalize_spec later Htr) as (Hlater & _).
  destruct (numericalize_spec later (init_tracks itos)) as (Hlater' & _).
  split; [exact Hids|]. split; [exact Hitos|]. split; [exact Hsize|].
  split; [rewrite Hlater, Hlater', Hitos; reflexivity|].
  intros token. apply id_of_spec.
Qed.

(** X5: the words that [textify] joins for the ids of a text are the
    tokens of the text, each token that is not in the vocabulary replaced
    by [itos[0]]. Over an empty vocabulary every id is 0 and [textify] of a
    text that is not empty raises [IndexError]. *)
Theorem textify_of_numericalize (itos text : list string) :
  let ids := fst (Vocab.numericalize_text (Vocab.__init__ itos) text) in
  let v := snd (Vocab.numericalize_text (Vocab.__init__ itos) text) in
  (itos <> [] ->
   Vocab.textify v ids
   = Exc.Done (String.concat " "
                 (map (fun token => if in_dec string_dec token itos
                                    then token else hd ""%string itos)
                      text))) /\
  (itos = [] -> text <> [] -> Vocab.textify v ids = Exc.Fail Exc.IndexError).
Proof.
  intros ids v.
  destruct (numericalize_text_spec text (init_tracks itos))
    as (Hids & _ & Hitos & _).
  fold ids in Hids. fold v in Hitos.
  cbn [Vocab.__init__ Vocab.itos] in Hids.
  unfold Vocab.textify. rewrite Hitos, Hids. split.
  - intros Hne.
    rewrite (@for_each_done Z string (Exc.getitem itos)
               (fun id => nth (Z.to_nat id) itos ""%string)).
    + cbn [Exc.bind]. rewrite map_map. f_equal. f_equal.
      apply map_ext. intros token.
      destruct (in_dec string_dec token itos) as [Hin|Hout].
      * destruct (proj1 (id_of_spec itos token) Hin) as (_ & Hnth & _).
        apply nth_error_nth. exact Hnth.
      * rewrite (proj2 (id_of_spec itos token) Hout).
        destruct itos; [congruence|reflexivity].
    + intros id Hin. apply in_map_iff in Hin as (token & <- & _).
      assert (Hr : 0 <= id_of itos token < Py.len itos).
      { destruct (in_dec string_dec token itos) as [Hin|Hout].
        - apply (proj1 (id_of_spec itos token) Hin).
        - rewrite (proj2 (id_of_spec itos token) Hout).
          destruct itos; [congruence|]. unfold Py.len. simpl. lia. }
      destruct (proj1 (getitem_cases itos (id_of itos token)) Hr)
        as (x & Hget & Hnth).
      rewrite Hget. f_equal. symmetry. apply nth_error_nth. exact Hnth.
  - intros -> Htext. destruct text as [|token text]; [congruence|].
    reflexivity.
Qed.

(** X6: over a vocabulary without duplicates, ids and tokens are in one to
    one correspondence: the tokens that [itos] holds at ids within
    [0 .. size - 1] are numericalized back to the same ids. *)
Theorem ids_round_trip (itos : list string) (ids : list Z) :
  NoDup itos ->
  Forall (fun id => 0 <= id < Py.len itos) ids ->
  exists words,
    Exc.for_each (Exc.getitem itos) ids = Exc.Done words /\
    fst (Vocab.numericalize_text (Vocab.__init__ itos) words) = ids.
Proof.
  intros Hnd Hids. rewrite Forall_forall in Hids.
  exists (map (fun id => nth (Z.to_nat id) itos ""%string) ids).
  assert (Hget : forall id, In id ids ->
            Exc.getitem itos id = Exc.Done (nth (Z.to_nat id) itos ""%string) /\
            nth_error itos (Z.to_nat id)
            = Some (nth (Z.to_nat id) itos ""%string)).
  { intros id Hin.
    destruct (proj1 (getitem_cases itos id) (Hids id Hin)) as (x & Hx & Hnth).
    rewrite Hx, Hnth. rewrite (nth_error_nth _ _ _ Hnth). auto. }
  split.
  - apply for_each_done. intros id Hin. apply Hget, Hin.
  - destruct (numericalize_text_spec
                (map (fun id => nth (Z.to_nat id) itos ""%string) ids)
                (init_tracks itos)) as (Hnum & _).
    rewrite Hnum. cbn [Vocab.__init__ Vocab.itos]. rewrite map_map.
    rewrite <- (map_id ids) at 2. apply map_ext_in. intros id Hin.
    rewrite (id_of_nth (Z.to_nat id) Hnd (proj2 (Hget id Hin))).
    specialize (Hids id Hin). lia.
Qed.

Lemma ids_round_trip_witness :
  exists words,
    Exc.for_each (Exc.getitem ["xxunk"; "xxpad"; "the"]%string) [2; 0; 2]
    = Exc.Done words /\
    fst (Vocab.numericalize_text
           (Vocab.__init__ ["xxunk"; "xxpad"; "the"]%string) words)
    = [2; 0; 2].
Proof.
  apply (@ids_round_trip ["xxunk"; "xxpad"; "the"]%string [2; 0; 2]).
  - repeat constructor; simpl; intuition discriminate.
  - repeat constructor; unfold Py.len; simpl; lia.
Defined.

(** X7: [textify] raises [IndexError] exactly when some id is outside
    [-len(itos) .. len(itos) - 1]; an id in [-len(itos) .. -1] counts from
    the end of [itos], so it names the token of the id [len(itos)] above
    it. *)
Theorem textify_index_error (v : Vocab.t) (ids : list Z) :
  let n := Py.len (Vocab.itos v) in
  (Exists (fun id => id < - n \/ n <= id) ids <->
   Vocab.textify v ids = Exc.Fail Exc.IndexError) /\
  (Forall (fun id => - n <= id < n) ids <->
   exists text, Vocab.textify v ids = Exc.Done text) /\
  (forall id, - n <= id < 0 ->
              Vocab.textify v [id] = Vocab.textify v [id + n]).
Proof.
  intros n. unfold Vocab.textify.
  assert (Hin : forall id, - n <= id < n ->
            exists x, Exc.getitem (Vocab.itos v) id = Exc.Done x).
  { intros id Hid. destruct (Z_lt_ge_dec id 0) as [Hneg|Hpos].
    - rewrite (proj1 (proj2 (getitem_cases (Vocab.itos v) id))) by (fold n; lia).
      destruct (proj1 (getitem_cases (Vocab.itos v) (id + n)))
        as (x & Hx & _); [fold n; lia|]. exists x. exact Hx.
    - destruct (proj1 (getitem_cases (Vocab.itos v) id))
        as (x & Hx & _); [fold n; lia|]. exists x. exact Hx. }
  assert (Hout : forall id, id < - n \/ n <= id ->
            Exc.getitem (Vocab.itos v) id = Exc.Fail Exc.IndexError).
  { intros id Hid. apply getitem_cases. exact Hid. }
  assert (Hdec : Forall (fun id => - n <= id < n) ids \/
                 Exists (fun id => id < - n \/ n <= id) ids).
  { induction ids as [|id ids IH]; [left; constructor|].
    destruct (Z_lt_ge_dec id (- n)); [right; left; lia|].
    destruct (Z_lt_ge_dec id n); [|right; left; lia].
    destruct IH as [IH|IH]; [left; constructor; [lia|assumption]|].
    right. right. exact IH. }
  assert (Hdone : Forall (fun id => - n <= id < n) ids ->
            exists text,
              Exc.bind (Exc.for_each (Exc.getitem (Vocab.itos v)) ids)
                (fun words => Exc.Done (String.concat " " words))
              = Exc.Done text).
  { intros Hall.
    assert (Hws : exists words,
              Exc.for_each (Exc.getitem (Vocab.itos v)) ids = Exc.Done words).
    { clear Hdec.
      induction Hall as [|id ids Hid Hrest IH]; [exists []; reflexivity|].
      destruct (Hin id Hid) as [x Hx]. destruct IH as [ws Hws].
      exists (x :: ws). simpl. rewrite Hx. cbn [Exc.bind]. rewrite Hws.
      reflexivity. }
    destruct Hws as (ws & ->). eexists. reflexivity. }
  assert (Hfail : Exists (fun id => id < - n \/ n <= id) ids ->
            Exc.bind (Exc.for_each (Exc.getitem (Vocab.itos v)) ids)
              (fun words => Exc.Done (String.concat " " words))
            = Exc.Fail Exc.IndexError).
  { intros Hex.
    rewrite (@for_each_fail Z string (Exc.getitem (Vocab.itos v))
               Exc.IndexError); [reflexivity| |].
    - intros x e. apply getitem_cases.
    - eapply Exists_impl; [|exact Hex]. intros id Hid. apply Hout, Hid. }
  split; [|split].
  - split; [exact Hfail|]. intros Hf.
    destruct Hdec as [Hall|Hex]; [|assumption].
    destruct (Hdone Hall) as (text & Ht). congruence.
  - split; [exact Hdone|]. intros (text & Ht).
    destruct Hdec as [Hall|Hex]; [assumption|].
    rewrite (Hfail Hex) in Ht. discriminate.
  - intros id Hid. cbn [Exc.for_each].
    rewrite (proj1 (proj2 (getitem_cases (Vocab.itos v) id)))
      by (fold n; lia).
    reflexivity.
Qed.

(** ** Counter *)

Lemma dict_in_get (V : Type) (d : Dict.t V) (k : string) (v : V) :
  NoDup (map fst d) -> (In (k, v) d <-> Dict.get d k = Some v).
Proof.
  induction d as [|[k0 v0] d IH]; simpl; intros Hnd.
  - split; [intros []|discriminate].
  - inversion Hnd as [|? ? Hout Hnd']; subst.
    destruct (String.eqb_spec k0 k) as [->|Hk0].
    + split.
      * intros [[= <-]|Hin]; [reflexivity|].
        exfalso. apply Hout. apply (in_map fst) in Hin. exact Hin.
      * intros [= <-]. left. reflexivity.
    + rewrite <- (IH Hnd'). split; [|auto].
      intros [Heq|Hin]; [|assumption].
      injection Heq as Hk Hv. congruence.
Qed.

Lemma counter_fold (items : list string) :
  forall d : Dict.t Z,
  NoDup (map fst d) ->
  let d' := fold_left (fun d x => Dict.set x (match Dict.get d x with
                                              | Some c => c + 1
                                              | None => 1
                                              end) d) items d in
  NoDup (map fst d') /\
  (forall t, answer d' t
             = answer d t + Z.of_nat (count_occ string_dec items t)) /\
  (forall t, In t (map fst d') <-> In t (map fst d) \/ In t items).
Proof.
  induction items as [|x items IH]; intros d Hnd; cbn [fold_left].
  - split; [assumption|]. split; [intros t; simpl; lia|]. simpl. tauto.
  - set (d1 := Dict.set x _ d).
    assert (Hkeys : map fst d1
                    = if existsb (String.eqb x) (map fst d) then map fst d
                      else map fst d ++ [x]) by apply dict_keys_set.
    assert (Hnd1 : NoDup (map fst d1)).
    { rewrite Hkeys. destruct (existsb _ _) eqn:Hex; [assumption|].
      apply NoDup_app; [assumption|repeat constructor; intros []|].
      intros t Hin [<-|[]].
      apply existsb_eqb_in in Hin. congruence. }
    assert (Hans1 : forall t, answer d1 t
                              = if String.eqb x t then answer d x + 1
                                else answer d t).
    { intros t. unfold d1. rewrite answer_set. unfold answer.
      destruct (Dict.get d x); reflexivity. }
    assert (Hin1 : forall t, In t (map fst d1) <-> In t (map fst d) \/ t = x).
    { intros t. rewrite Hkeys. destruct (existsb _ _) eqn:Hex.
      - apply existsb_eqb_in in Hex. split; [auto|].
        intros [H| ->]; assumption.
      - rewrite in_app_iff. simpl. intuition. }
    destruct (IH d1 Hnd1) as (Hnd' & Hans' & Hin').
    split; [assumption|]. split.
    + intros t. rewrite Hans', Hans1. cbn [count_occ].
      destruct (String.eqb_spec x t) as [->|Hx].
      * destruct (string_dec t t); [lia|congruence].
      * destruct (string_dec x t); [congruence|lia].
    + intros t. rewrite Hin', Hin1. simpl. intuition.
Qed.

(** A [Counter] holds each item that occurs, once, with the number of its
    occurrences. *)
Lemma counter_spec (items : list string) :
  NoDup (map fst (Counter items)) /\
  (forall t c, In (t, c) (Counter items) <->
               In t items /\ c = Z.of_nat (count_occ string_dec items t)).
Proof.
  destruct (@counter_fold items [] (NoDup_nil _)) as (Hnd & Hans & Hin).
  fold (Counter items) in Hnd, Hans, Hin.
  split; [assumption|]. intros t c.
  rewrite (@dict_in_get Z (Counter items) t c Hnd). specialize (Hans t). specialize (Hin t).
  unfold answer in Hans. simpl in Hans, Hin.
  destruct (Dict.get (Counter items) t) as [c'|] eqn:Hget.
  - assert (Hk : In t (map fst (Counter items))).
    { destruct (in_dec string_dec t (map fst (Counter items))) as [H|H];
        [assumption|]. apply dict_get_none in H. congruence. }
    split.
    + intros [= <-]. split; [tauto|assumption].
    + intros [_ ->]. congruence.
  - apply dict_get_none in Hget. split; [discriminate|].
    intros [Ht _]. tauto.
Qed.

(** ** Sorting by count *)

Lemma insert_in (x y : string * Z) (l : list (string * Z)) :
  In y (insert_by_count x l) <-> y = x \/ In y l.
Proof.
  induction l as [|z l IH]; simpl.
  - intuition.
  - destruct (snd z <=? snd x); simpl; [intuition|].
    rewrite IH. intuition.
Qed.

Lemma insert_length (x : string * Z) (l : list (string * Z)) :
  length (insert_by_count x l) = S (length l).
Proof.
  induction l as [|z l IH]; simpl; [reflexivity|].
  destruct (snd z <=? snd x); simpl; [reflexivity|]. rewrite IH. reflexivity.
Qed.

Lemma insert_keys_nodup (x : string * Z) (l : list (string * Z)) :
  ~ In (fst x) (map fst l) -> NoDup (map fst l) ->
  NoDup (map fst (insert_by_count x l)).
Proof.
  induction l as [|z l IH]; simpl; intros Hout Hnd.
  - repeat constructor. intros [].
  - destruct (snd z <=? snd x); simpl.
    + constructor; assumption.
    + inversion Hnd as [|? ? Hz Hnd']; subst. constructor.
      * intros Hin. apply in_map_iff in Hin as (y & Hy & Hin).
        apply insert_in in Hin as [->|Hin].
        -- apply Hout. left. symmetry. exact Hy.
        -- apply Hz. rewrite <- Hy. apply in_map. exact Hin.
      * apply IH; [|assumption]. intros Hin. apply Hout. right. exact Hin.
Qed.

Lemma insert_sorted (x : string * Z) (l : list (string * Z)) :
  Sorted by_count l -> Sorted by_count (insert_by_count x l).
Proof.
  induction 1 as [|z l Hs IH Hhd]; simpl.
  - repeat constructor.
  - destruct (Z.leb_spec (snd z) (snd x)) as [Hle|Hgt].
    + constructor; [constructor; assumption|].
      constructor. exact Hle.
    + constructor; [exact IH|].
      destruct l as [|w l]; simpl.
      * constructor. unfold by_count. lia.
      * destruct (Z.leb_spec (snd w) (snd x)).
        -- constructor. unfold by_count. lia.
        -- inversion Hhd; subst. constructor. assumption.
Qed.

Lemma sorted_by_count_spec (l : list (string * Z)) :
  (forall y, In y (sorted_by_count l) <-> In y l) /\
  length (sorted_by_count l) = length l /\
  (NoDup (map fst l) -> NoDup (map fst (sorted_by_count l))) /\
  StronglySorted by_count (sorted_by_count l).
Proof.
  assert (Htrans : Relations_1.Transitive by_count).
  { intros a b c Hab Hbc. unfold by_count in *. lia. }
  induction l as [|x l (Hin & Hlen & Hnd & Hs)]; cbn [sorted_by_count fold_right].
  - split; [tauto|]. split; [reflexivity|]. split; [auto|constructor].
  - fold (sorted_by_count l).
    split; [|split; [|split]].
    + intros y. rewrite insert_in, Hin. simpl. intuition.
    + rewrite insert_length, Hlen. reflexivity.
    + simpl. intros Hnd'. inversion Hnd' as [|? ? Hx Hnd'']; subst.
      apply insert_keys_nodup; [|auto].
      intros Hk. apply Hx. apply in_map_iff in Hk as (y & Hy & Hk).
      apply Hin in Hk. rewrite <- Hy. apply in_map. exact Hk.
    + apply Sorted_StronglySorted; [exact Htrans|].
      apply insert_sorted. apply StronglySorted_Sorted. exact Hs.
Qed.

(** ** Sublists *)

Lemma in_firstn (A : Type) (n : nat) (l : list A) (x : A) :
  In x (firstn n l) -> In x l.
Proof.
  intros Hin. rewrite <- (firstn_skipn n l). apply in_or_app. auto.
Qed.

Lemma nodup_firstn (A : Type) (n : nat) (l : list A) :
  NoDup l -> NoDup (firstn n l).
Proof.
  intros Hnd. rewrite <- (firstn_skipn n l) in Hnd.
  apply NoDup_app_remove_r in Hnd. exact Hnd.
Qed.

Lemma nodup_keys_filter (V : Type) (keep : string * V -> bool)
    (items : Dict.t V) :
  NoDup (map fst items) -> NoDup (map fst (filter keep items)).
Proof.
  induction items as [|kv items IH]; intros Hkeys; [constructor|].
  cbn [map] in Hkeys. apply NoDup_cons_iff in Hkeys as [Hfresh Hrest].
  cbn [filter]. destruct (keep kv); [|exact (IH Hrest)].
  cbn [map]. apply NoDup_cons; [|exact (IH Hrest)].
  rewrite in_map_iff. intros (kv' & Hkey & Hin).
  apply filter_In in Hin. apply Hfresh. rewrite <- Hkey.
  apply in_map, Hin.
Qed.

Lemma sorted_firstn (A : Type) (R : A -> A -> Prop) (n : nat) (l : list A) :
  StronglySorted R l -> StronglySorted R (firstn n l).
Proof.
  intros Hs. revert n. induction Hs as [|x l Hs IH Hall]; intros [|n]; simpl;
    try constructor.
  - apply IH.
  - apply Forall_forall. intros y Hy. rewrite Forall_forall in Hall.
    apply Hall. eapply in_firstn, Hy.
Qed.

Lemma sorted_filter (A : Type) (R : A -> A -> Prop) (p : A -> bool)
    (l : list A) :
  StronglySorted R l -> StronglySorted R (filter p l).
Proof.
  induction 1 as [|x l Hs IH Hall]; simpl; [constructor|].
  destruct (p x); [|assumption]. constructor; [assumption|].
  apply Forall_forall. intros y Hy. rewrite Forall_forall in Hall.
  apply Hall. apply filter_In in Hy. tauto.
Qed.

(** In a sorted list every item among the [n] first is related to every
    item after them. *)
Lemma sorted_firstn_skipn (A : Type) (R : A -> A -> Prop) (l : list A) :
  StronglySorted R l ->
  forall (n : nat) (x y : A),
  In x (firstn n l) -> In y (skipn n l) -> R x y.
Proof.
  induction 1 as [|z l Hs IH Hall]; intros [|n] x y Hx Hy; simpl in *;
    try contradiction.
  destruct Hx as [<-|Hx].
  - rewrite Forall_forall in Hall. apply Hall.
    rewrite <- (firstn_skipn n l). apply in_or_app. auto.
  - eapply IH; eassumption.
Qed.

Lemma filter_all (A : Type) (p : A -> bool) (l : list A) :
  (forall x, In x l -> p x = true) -> filter p l = l.
Proof.
  induction l as [|x l IH]; simpl; intros Hp; [reflexivity|].
  rewrite (Hp x) by auto. rewrite IH by auto. reflexivity.
Qed.

(** ** remove_first *)

Lemma remove_first_absent (x : string) (l : list string) :
  ~ In x l -> remove_first x l = l.
Proof.
  induction l as [|y l IH]; simpl; intros Hout; [reflexivity|].
  destruct (String.eqb_spec y x) as [->|_]; [tauto|].
  rewrite IH by tauto. reflexivity.
Qed.

Lemma remove_first_in (x t : string) (l : list string) :
  In t (remove_first x l) -> In t l.
Proof.
  induction l as [|y l IH]; simpl; [auto|].
  destruct (String.eqb y x); simpl; intuition.
Qed.

Lemma remove_first_nodup (x : string) (l : list string) :
  NoDup l ->
  NoDup (remove_first x l) /\
  (forall t, In t (remove_first x l) <-> In t l /\ t <> x).
Proof.
  induction 1 as [|y l Hy Hnd (IHnd & IHin)]; simpl.
  - split; [constructor|]. tauto.
  - destruct (String.eqb_spec y x) as [->|Hyx].
    + split; [assumption|]. intros t. split.
      * intros Hin. split; [auto|]. intros ->. contradiction.
      * intros [[<-|Hin] Hne]; [congruence|assumption].
    + split.
      * constructor; [|assumption]. rewrite IHin. tauto.
      * intros t. simpl. rewrite IHin. split.
        -- intros [<-|[Hin Hne]]; auto.
        -- intros [[<-|Hin] Hne]; auto.
Qed.

Lemma remove_first_length (x : string) (l : list string) :
  (length l <= S (length (remove_first x l)))%nat /\
  (length (remove_first x l) <= length l)%nat.
Proof.
  induction l as [|y l IH]; simpl; [lia|].
  destruct (String.eqb y x); simpl; lia.
Qed.

Lemma remove_first_sorted (R : string -> string -> Prop) (x : string)
    (l : list string) :
  StronglySorted R l -> StronglySorted R (remove_first x l).
Proof.
  induction 1 as [|y l Hs IH Hall]; simpl; [constructor|].
  destruct (String.eqb y x); [assumption|]. constructor; [assumption|].
  apply Forall_forall. intros t Ht. rewrite Forall_forall in Hall.
  apply Hall. eapply remove_first_in, Ht.
Qed.

(** ** make_vocab *)

Section MakeVocab.
Variable tokens : list (list string).
Variables min_freq max_vocab : Z.

Let corpus := concat tokens.
Let S := sorted_by_count (Counter corpus).
Let mc := most_common (Counter corpus) max_vocab.
Let kept := filter (fun tc : string * Z => min_freq <? snd tc) mc.

Lemma sorted_counter_item (y : string * Z) :
  In y S -> In (fst y) corpus /\ snd y = occurrences tokens (fst y).
Proof.
  intros Hin. apply (sorted_by_count_spec (Counter corpus)) in Hin.
  destruct y as [t c]. apply counter_spec in Hin. exact Hin.
Qed.

Lemma in_sorted_counter (t : string) :
  In t corpus -> In (t, occurrences tokens t) S.
Proof.
  intros Hin. apply (sorted_by_count_spec (Counter corpus)).
  apply counter_spec. split; [assumption|reflexivity].
Qed.

Lemma kept_in_most_common (y : string * Z) : In y kept -> In y S.
Proof.
  intros Hin. apply filter_In in Hin as [Hin _].
  unfold mc, most_common in Hin. eapply in_firstn, Hin.
Qed.

(** The frequent tokens: each once, each occurring more than [min_freq]
    times, by decreasing number of occurrences, [max_vocab] at most. *)
Lemma frequent_spec :
  NoDup (frequent tokens min_freq max_vocab) /\
  (forall t, In t (frequent tokens min_freq max_vocab) ->
             In t corpus /\ min_freq < occurrences tokens t) /\
  StronglySorted (fun a b => occurrences tokens b <= occurrences tokens a)
                 (frequent tokens min_freq max_vocab) /\
  Py.len (frequent tokens min_freq max_vocab) <= Z.max 0 max_vocab.
Proof.
  destruct (sorted_by_count_spec (Counter corpus)) as (_ & _ & Hnd & Hs).
  specialize (Hnd (proj1 (counter_spec corpus))). fold S in Hnd, Hs.
  change (frequent tokens min_freq max_vocab) with (map fst kept).
  split; [|split; [|split]].
  - apply nodup_keys_filter. unfold mc, most_common. fold S.
    rewrite <- firstn_map. apply nodup_firstn. exact Hnd.
  - intros t Hin. apply in_map_iff in Hin as (y & <- & Hy).
    destruct (@sorted_counter_item y (@kept_in_most_common y Hy)) as [Hc Hocc].
    split; [assumption|]. apply filter_In in Hy as [_ Hy].
    apply Z.ltb_lt in Hy. lia.
  - assert (Hk : StronglySorted by_count kept).
    { apply sorted_filter. unfold mc, most_common. apply sorted_firstn, Hs. }
    assert (Hocc : forall y, In y kept ->
                             snd y = occurrences tokens (fst y)).
    { intros y Hy. apply sorted_counter_item. apply kept_in_most_common. exact Hy. }
    induction Hk as [|y l Hk IH Hall]; simpl; constructor.
    + apply IH. intros z Hz. apply Hocc. right. exact Hz.
    + apply Forall_forall. intros t Ht.
      apply in_map_iff in Ht as (z & <- & Hz).
      rewrite Forall_forall in Hall. specialize (Hall z Hz).
      unfold by_count in Hall.
      rewrite <- (Hocc y) by (left; reflexivity).
      rewrite <- (Hocc z) by (right; assumption). exact Hall.
  - unfold Py.len. rewrite length_map.
    pose proof (filter_length_le (fun tc : string * Z => min_freq <? snd tc) mc).
    assert (length mc <= Z.to_nat max_vocab)%nat
      by (unfold mc, most_common; apply firstn_le_length).
    fold kept in H. lia.
Qed.

(** A token of the texts that occurs more than [min_freq] times and is not
    kept was cut by [max_vocab]: [max_vocab] tokens are kept, each of them
    at least as frequent. *)
Lemma frequent_top (t : string) :
  In t corpus -> min_freq < occurrences tokens t ->
  ~ In t (frequent tokens min_freq max_vocab) ->
  Py.len (frequent tokens min_freq max_vocab) = Z.max 0 max_vocab /\
  forall u, In u (frequent tokens min_freq max_vocab) ->
            occurrences tokens t <= occurrences tokens u.
Proof.
  intros Hin Hfreq Hout.
  destruct (sorted_by_count_spec (Counter corpus)) as (_ & _ & _ & Hs).
  fold S in Hs.
  change (frequent tokens min_freq max_vocab) with (map fst kept) in *.
  set (n := Z.to_nat max_vocab).
  assert (Hmc : mc = firstn n S) by reflexivity.
  pose proof (@in_sorted_counter t Hin) as HtS.
  assert (Hnot : ~ In (t, occurrences tokens t) mc).
  { intros Hmcin. apply Hout.
    apply (in_map fst) with (x := (t, occurrences tokens t)).
    apply filter_In. split; [assumption|]. apply Z.ltb_lt. exact Hfreq. }
  assert (Hskip : In (t, occurrences tokens t) (skipn n S)).
  { rewrite <- (firstn_skipn n S) in HtS.
    apply in_app_or in HtS as [H|H]; [|assumption].
    rewrite <- Hmc in H. contradiction. }
  assert (Hge : forall y, In y mc -> occurrences tokens t <= snd y).
  { intros y Hy. rewrite Hmc in Hy.
    exact (sorted_firstn_skipn Hs n y (t, occurrences tokens t) Hy Hskip). }
  assert (Hall : kept = mc).
  { apply filter_all. intros y Hy. apply Z.ltb_lt.
    specialize (Hge y Hy). lia. }
  split.
  - unfold Py.len. rewrite length_map, Hall, Hmc.
    assert (n < length S)%nat.
    { destruct (Nat.lt_ge_cases n (length S)) as [H|H]; [assumption|].
      rewrite skipn_all2 in Hskip by assumption. contradiction. }
    rewrite length_firstn. unfold n in *. lia.
  - intros u Hu. apply in_map_iff in Hu as (y & <- & Hy).
    rewrite <- (proj2 (@sorted_counter_item y (@kept_in_most_common y Hy))).
    apply Hge. rewrite <- Hall. exact Hy.
Qed.

End MakeVocab.

Lemma make_vocab_itos (tokens : list (list string)) (min_freq max_vocab : Z)
    (pad unknown : string) :
  pad <> unknown ->
  Vocab.itos (Vocab.make_vocab tokens min_freq max_vocab pad unknown)
  = unknown :: pad
    :: remove_first unknown (frequent tokens min_freq max_vocab).
Proof.
  intros Hne. unfold Vocab.make_vocab. cbn [Vocab.__init__ Vocab.itos].
  fold (frequent tokens min_freq max_vocab).
  cbn [existsb remove_first].
  destruct (String.eqb_spec unknown pad) as [Heq|_]; [congruence|].
  destruct (String.eqb_spec pad unknown) as [Heq|_]; [congruence|].
  cbn [orb].
  destruct (existsb (String.eqb unknown) (frequent tokens min_freq max_vocab))
    eqn:Hex; [reflexivity|].
  rewrite remove_first_absent; [reflexivity|].
  intros Hin. apply existsb_eqb_in in Hin. congruence.
Qed.

(** X8: for [pad <> unknown], [make_vocab] builds the vocabulary
    [unknown, pad, body], where [body] holds no token twice and not
    [unknown], at most [max_vocab] tokens, each a token of the texts that
    occurs more than [min_freq] times, by decreasing number of occurrences.
    A token of the texts other than [unknown] that occurs more than
    [min_freq] times and is not in [body] was cut by [max_vocab]: [body] then
    holds at least [max_vocab - 1] tokens, each at least as frequent. *)
Theorem make_vocab_keeps_frequent_tokens (tokens : list (list string))
    (min_freq max_vocab : Z) (pad unknown : string) :
  pad <> unknown ->
  let v := Vocab.make_vocab tokens min_freq max_vocab pad unknown in
  exists body,
    Vocab.itos v = unknown :: pad :: body /\
    Vocab.size v = 2 + Py.len body /\
    NoDup body /\
    ~ In unknown body /\
    Py.len body <= Z.max 0 max_vocab /\
    (forall t, In t body ->
               In t (concat tokens) /\ min_freq < occurrences tokens t) /\
    StronglySorted (fun a b => occurrences tokens b <= occurrences tokens a)
                   body /\
    (forall t, In t (concat tokens) -> t <> unknown ->
               min_freq < occurrences tokens t -> ~ In t body ->
               Z.max 0 max_vocab - 1 <= Py.len body /\
               forall u, In u body ->
                         occurrences tokens t <= occurrences tokens u).
Proof.
  intros Hne v.
  destruct (frequent_spec tokens min_freq max_vocab)
    as (Hnd & Hfreq & Hsorted & Hlen).
  destruct (remove_first_nodup unknown Hnd) as (Hnd' & Hin').
  pose proof (remove_first_length unknown (frequent tokens min_freq max_vocab))
    as [Hlo Hhi].
  exists (remove_first unknown (frequent tokens min_freq max_vocab)).
  split; [apply make_vocab_itos, Hne|].
  split.
  { change (Vocab.size v) with (Py.len (Vocab.itos v)). unfold v.
    rewrite make_vocab_itos by assumption. unfold Py.len. cbn [length]. lia. }
  split; [exact Hnd'|].
  split; [rewrite Hin'; tauto|].
  split; [unfold Py.len in *; lia|].
  split; [intros t Ht; apply Hfreq; apply Hin' in Ht; tauto|].
  split; [apply remove_first_sorted, Hsorted|].
  intros t Hcorpus Htu Hocc Hout.
  assert (Hout' : ~ In t (frequent tokens min_freq max_vocab)).
  { intros Hin. apply Hout. apply Hin'. tauto. }
  destruct (@frequent_top tokens min_freq max_vocab t Hcorpus Hocc Hout')
    as (Hfull & Htop).
  split; [unfold Py.len in *; lia|].
  intros u Hu. apply Htop. apply Hin' in Hu. tauto.
Qed.

Lemma make_vocab_keeps_frequent_tokens_witness :
  let tokens := [["a"; "b"; "a"]; ["a"; "c"; "b"; "xxunk"; "xxunk"]]%string in
  exists body,
    Vocab.itos (Vocab.make_vocab tokens 1 10 PAD UNK) = UNK :: PAD :: body /\
    body = ["a"; "b"]%string /\
    NoDup body /\
    ~ In UNK body.
Proof.
  intros tokens.
  destruct (@make_vocab_keeps_frequent_tokens tokens 1 10 PAD UNK)
    as (body & Hitos & _ & Hnd & Hunk & _).
  - discriminate.
  - exists body. split; [exact Hitos|].
    split; [|split; assumption].
    vm_compute in Hitos. injection Hitos as <-. reflexivity.
Defined.

(** X9: in a vocabulary that [make_vocab] builds for [pad <> unknown],
    [unknown] has the id 0, and so has every token that is not in the
    vocabulary. When [pad] is not among the frequent tokens kept, no token
    is in the vocabulary twice and [pad] has the id 1. When it is, [pad] is
    in the vocabulary twice, its id is that of its later place, and no token
    gets the id 1. *)
Theorem make_vocab_special_ids (tokens : list (list string))
    (min_freq max_vocab : Z) (pad unknown : string) :
  pad <> unknown ->
  let v := Vocab.make_vocab tokens min_freq max_vocab pad unknown in
  let body := remove_first unknown (frequent tokens min_freq max_vocab) in
  Vocab.itos v = unknown :: pad :: body /\
  fst (Vocab.lookup v unknown) = 0 /\
  (forall t, ~ In t (Vocab.itos v) -> fst (Vocab.lookup v t) = 0) /\
  (~ In pad body -> NoDup (Vocab.itos v) /\ fst (Vocab.lookup v pad) = 1) /\
  (In pad body ->
   2 <= fst (Vocab.lookup v pad) /\
   forall t, fst (Vocab.lookup v t) <> 1).
Proof.
  intros Hne v body.
  pose proof (make_vocab_itos tokens min_freq max_vocab Hne) as Hitos.
  fold v body in Hitos.
  destruct (frequent_spec tokens min_freq max_vocab) as (Hnd & _).
  destruct (remove_first_nodup unknown Hnd) as (Hnd' & Hin').
  fold body in Hnd', Hin'.
  assert (Hunk : ~ In unknown body) by (rewrite Hin'; tauto).
  assert (Htr : tracks v) by apply init_tracks.
  assert (Hid : forall t, fst (Vocab.lookup v t) = id_of (Vocab.itos v) t).
  { intros t. apply lookup_spec, Htr. }
  split; [exact Hitos|].
  assert (Hleast : forall t k, nth_error (Vocab.itos v) k = Some t ->
                               Z.of_nat k <= id_of (Vocab.itos v) t).
  { intros t k Hk.
    assert (Hin : In t (Vocab.itos v)) by (eapply nth_error_In; eassumption).
    destruct (proj1 (id_of_spec (Vocab.itos v) t) Hin) as (Hr & _ & Hlast).
    destruct (Z_le_gt_dec (Z.of_nat k) (id_of (Vocab.itos v) t)) as [|Hgt];
      [assumption|].
    exfalso. apply (Hlast k); [lia|assumption]. }
  assert (Hat : forall t, In t (Vocab.itos v) ->
                  nth_error (Vocab.itos v) (Z.to_nat (id_of (Vocab.itos v) t))
                  = Some t /\ 0 <= id_of (Vocab.itos v) t).
  { intros t Hin.
    destruct (proj1 (id_of_spec (Vocab.itos v) t) Hin) as (Hr & Hnth & _).
    split; [assumption|lia]. }
  split; [|split; [|split]].
  - rewrite Hid.
    destruct (Hat unknown) as [Hnth H0]; [rewrite Hitos; left; reflexivity|].
    remember (Z.to_nat (id_of (Vocab.itos v) unknown)) as k eqn:Hk.
    rewrite Hitos in Hnth.
    destruct k as [|[|k]]; simpl in Hnth.
    + lia.
    + congruence.
    + exfalso. apply Hunk. eapply nth_error_In, Hnth.
  - intros t Hout. rewrite Hid. apply id_of_spec, Hout.
  - intros Hpad.
    assert (Hnodup : NoDup (Vocab.itos v)).
    { rewrite Hitos. constructor.
      - intros [Heq|Hin]; [congruence|contradiction].
      - constructor; assumption. }
    split; [assumption|]. rewrite Hid.
    apply (@id_of_nth (Vocab.itos v) 1 pad Hnodup).
    rewrite Hitos. reflexivity.
  - intros Hpad.
    apply In_nth_error in Hpad as (j & Hj).
    assert (Hpad2 : 2 <= id_of (Vocab.itos v) pad).
    { pose proof (Hleast pad (S (S j))) as Hl. rewrite Hitos in Hl.
      specialize (Hl Hj). rewrite <- Hitos in Hl. lia. }
    split; [rewrite Hid; exact Hpad2|].
    intros t. rewrite Hid. intros H1.
    destruct (in_dec string_dec t (Vocab.itos v)) as [Hin|Hout].
    + destruct (Hat t Hin) as [Hnth _]. rewrite H1 in Hnth.
      rewrite Hitos in Hnth at 1.
      simpl in Hnth. injection Hnth as <-. lia.
    + rewrite (proj2 (id_of_spec (Vocab.itos v) t) Hout) in H1. lia.
Qed.

Lemma make_vocab_special_ids_witness :
  let tokens := [["a"; "xxpad"; "a"]; ["xxpad"; "b"]]%string in
  let v := Vocab.make_vocab tokens 1 10 PAD UNK in
  Vocab.itos v = [UNK; PAD; "a"; PAD]%string /\
  fst (Vocab.lookup v UNK) = 0 /\
  2 <= fst (Vocab.lookup v PAD) /\
  (forall t, fst (Vocab.lookup v t) <> 1).
Proof.
  intros tokens v.
  destruct (@make_vocab_special_ids tokens 1 10 PAD UNK)
    as (Hitos & Hunk & _ & _ & Hdup).
  - discriminate.
  - fold v in Hitos, Hunk, Hdup.
    destruct Hdup as [Hpad Hone].
    + vm_compute. right. left. reflexivity.
    + repeat split; assumption.
Defined.

(** * More of SequenceIterator *)

(** X10: the constructor raises [ZeroDivisionError] for [split_size = 0],
    [RuntimeError] (from [view]) for a negative [split_size], and
    [ZeroDivisionError] for [bptt = 0] with a positive [split_size]; in every
    other case it returns an iterator, with both cursors at 0. *)
Theorem construction_outcomes (seq : list Z) (bptt lanes : Z)
    (rl : option bool) (ft : bool) :
  (lanes = 0 ->
   SI.__init__ seq bptt lanes rl ft = Py.Raise Py.ZeroDivisionError) /\
  (lanes < 0 ->
   SI.__init__ seq bptt lanes rl ft = Py.Raise Py.RuntimeError) /\
  (0 < lanes -> bptt = 0 ->
   SI.__init__ seq bptt lanes rl ft = Py.Raise Py.ZeroDivisionError) /\
  (0 < lanes -> bptt <> 0 ->
   exists it,
     SI.__init__ seq bptt lanes rl ft = Py.Ok it /\
     SI.curr_line it = 0 /\ SI.curr_iter it = 0 /\
     SI.bptt it = bptt /\ SI.split_size it = lanes /\
     SI.random_length it = rl /\ SI.flatten_target it = ft /\
     SI.total_iters it = Py.len seq / lanes / bptt - 1).
Proof.
  rewrite init_cases.
  destruct (Z.eqb_spec lanes 0) as [Hl0|Hl0];
    destruct (Z.ltb_spec lanes 0) as [Hneg|Hpos];
    destruct (Z.eqb_spec bptt 0) as [Hb0|Hb0];
    repeat split; intros; try lia; try reflexivity;
    eexists; repeat split.
Qed.

(** The item of a lane matrix, in the sequence. *)
Lemma lane_matrix_item (seq : list Z) (lanes : Z) (i j : nat) :
  0 < lanes ->
  (i < Z.to_nat (Py.len seq / lanes))%nat -> (j < Z.to_nat lanes)%nat ->
  Torch.get (lane_matrix seq lanes) i j
  = nth (j * Z.to_nat (Py.len seq / lanes) + i) seq 0.
Proof.
  intros Hl Hi Hj.
  assert (Hlen : 0 <= Py.len seq) by (unfold Py.len; lia).
  destruct (lines_bounds Hlen Hl) as [Hq Hql].
  unfold lane_matrix. rewrite get_t by (simpl; assumption).
  unfold Torch.get. cbn [Torch.cols Torch.data].
  rewrite nth_firstn.
  destruct (Nat.ltb_spec (j * Z.to_nat (Py.len seq / lanes) + i)
              (Z.to_nat (Py.len seq / lanes * lanes))) as [_|Hge];
    [reflexivity|nia].
Qed.

(** X11: a lane is a run of consecutive tokens: with [n = len(seq) //
    split_size] lines, item [(i, j)] of the matrix is token [j*n + i] of the
    sequence, so lane [j] holds the tokens [j*n .. j*n + n - 1] in order. *)
Theorem lanes_are_consecutive_tokens (seq : list Z) (bptt lanes : Z)
    (rl : option bool) (ft : bool) (it : SI.t) (i j : nat) :
  SI.__init__ seq bptt lanes rl ft = Py.Ok it ->
  (Z.of_nat i < SI.total_lines it) -> (Z.of_nat j < lanes) ->
  Torch.get (SI.batches it) i j
  = nth (j * Z.to_nat (SI.total_lines it) + i) seq 0 /\
  (j * Z.to_nat (SI.total_lines it) + i < length seq)%nat.
Proof.
  intros Hinit Hi Hj.
  apply init_inversion in Hinit as (Hl & Hb & ->).
  cbn [SI.batches SI.total_lines] in *.
  assert (Hlen : 0 <= Py.len seq) by (unfold Py.len; lia).
  destruct (lines_bounds Hlen Hl) as [Hq Hql].
  split; [apply lane_matrix_item; lia|].
  unfold Py.len in *. nia.
Qed.

Lemma lanes_are_consecutive_tokens_witness :
  exists it,
    SI.__init__ [10; 11; 12; 13; 14; 15; 16] 2 2 None true = Py.Ok it /\
    Torch.get (SI.batches it) 1 1 = 14.
Proof.
  eexists. split; [reflexivity|].
  exact (proj1 (@lanes_are_consecutive_tokens [10; 11; 12; 13; 14; 15; 16]
                  2 2 None true _ 1%nat 1%nat eq_refl eq_refl eq_refl)).
Defined.

(** [next] and [__iter__]: the cursors apart, the iterator stays as it is. *)
Lemma iter_after_next (G : Type) (R : NumpyRandom G) (it : SI.t) (g : G) :
  SI.__iter__ (snd (fst (SI.next it g))) = SI.__iter__ it.
Proof.
  unfold SI.next. destruct (SI.completed it); [reflexivity|].
  destruct (SI.get_sequence_length it g). reflexivity.
Qed.

Lemma iter_after_nexts (G : Type) (R : NumpyRandom G) (n : nat) :
  forall (it : SI.t) (g : G),
  SI.__iter__ (fst (SI.nexts n it g)) = SI.__iter__ it.
Proof.
  induction n as [|n IH]; intros it g; [reflexivity|].
  cbn [SI.nexts]. pose proof (iter_after_next R it g) as Hn.
  destruct (SI.next it g) as [[r it'] g']. cbn [fst snd] in Hn.
  rewrite IH. exact Hn.
Qed.

Lemma fields_of_iter (it it' : SI.t) :
  SI.__iter__ it' = SI.__iter__ it ->
  SI.batches it' = SI.batches it /\
  SI.total_lines it' = SI.total_lines it /\
  SI.total_iters it' = SI.total_iters it /\
  SI.bptt it' = SI.bptt it /\
  SI.random_length it' = SI.random_length it /\
  SI.flatten_target it' = SI.flatten_target it.
Proof.
  unfold SI.__iter__. intros [= H1 H2 H3 H4 H5 H6 H7]. auto 10.
Qed.

(** X12: the target is the next token. In a batch that [next] emits, with
    the cursor at row [i] and [n] lines in a lane, item [(k, j)] of the input
    is token [j*n + i + k] of the sequence, and item [(k, j)] of the target,
    flattened or not, is token [j*n + i + k + 1], the one that follows it. *)
Theorem target_is_next_token (G : Type) (R : NumpyRandom G)
    (seq : list Z) (bptt lanes : Z) (rl : option bool) (ft : bool)
    (it0 it' : SI.t) (g0 g' : G) (n : nat) (X : Torch.Tensor2)
    (y : Torch.Tensor) (k j : nat) :
  SI.__init__ seq bptt lanes rl ft = Py.Ok it0 ->
  let it := fst (SI.nexts n (SI.__iter__ it0) g0) in
  let g := snd (SI.nexts n (SI.__iter__ it0) g0) in
  SI.next it g = (Py.Ok (X, y), it', g') ->
  (k < Torch.rows X)%nat -> (j < Torch.cols X)%nat ->
  let p := (j * Z.to_nat (SI.total_lines it)
            + Z.to_nat (SI.curr_line it) + k)%nat in
  Torch.get X k j = nth p seq 0 /\
  target_item y (Torch.cols X) k j = nth (S p) seq 0 /\
  (S p < length seq)%nat.
Proof.
  intros Hinit it g Hnext Hk Hj p.
  pose proof (init_constructed _ _ _ _ _ Hinit) as Hc0.
  assert (Hc : constructed it).
  { apply nexts_constructed, iter_constructed, Hc0. }
  pose proof (iter_after_nexts R n (SI.__iter__ it0) g0) as Hiter.
  fold it in Hiter.
  destruct (fields_of_iter Hiter) as (Hb & Hlines & _).
  cbn [SI.__iter__ SI.batches SI.total_lines] in Hb, Hlines.
  subst p. clearbody it g.
  destruct (next_emits g Hc Hnext) as (Hcomp & HX & Hy & HwX & HwY).
  destruct (emitted_window g Hc Hcomp) as [Hw1 Hw2].
  rewrite <- HwX in Hw1, Hw2, HX, Hy, HwY.
  pose proof (c_line Hc) as Hi. pose proof (c_wf Hc) as Hwf.
  pose proof (c_lines Hc) as Hrows.
  apply init_inversion in Hinit as (Hl & Hbp & Hit0).
  assert (Hlen : 0 <= Py.len seq) by (unfold Py.len; lia).
  destruct (lines_bounds Hlen Hl) as [Hq Hql].
  assert (HT : SI.total_lines it = Py.len seq / lanes)
    by (rewrite Hlines, Hit0; reflexivity).
  assert (HM : SI.batches it = lane_matrix seq lanes)
    by (rewrite Hb, Hit0; reflexivity).
  assert (Hcols : Torch.cols X = Z.to_nat lanes).
  { rewrite HX. cbn [Torch.row_slice Torch.cols].
    rewrite HM, lane_matrix_cols. reflexivity. }
  assert (HgX : Torch.get X k j
                = Torch.get (SI.batches it) (Z.to_nat (SI.curr_line it) + k) j).
  { rewrite HX at 1. apply get_row_slice; try assumption; try lia.
    rewrite HM, lane_matrix_cols. lia. }
  set (Y := Torch.row_slice (SI.batches it) (SI.curr_line it + 1)
              (SI.curr_line it + 1 + Z.of_nat (Torch.rows X))) in *.
  assert (HgY : Torch.get Y k j
                = Torch.get (SI.batches it)
                    (Z.to_nat (SI.curr_line it + 1) + k) j).
  { unfold Y. apply get_row_slice; try assumption; try lia.
    rewrite HM, lane_matrix_cols. lia. }
  assert (Hty : target_item y (Torch.cols X) k j = Torch.get Y k j).
  { rewrite Hy. destruct (SI.flatten_target it); [|reflexivity].
    unfold target_item, Torch.flatten, Torch.get.
    replace (Torch.cols Y) with (Torch.cols X); [reflexivity|].
    rewrite HX. reflexivity. }
  rewrite Hty, HgX, HgY, HM. rewrite HT.
  rewrite !lane_matrix_item by lia.
  split; [f_equal; lia|]. split; [f_equal; lia|].
  unfold Py.len in *. nia.
Qed.

Lemma target_is_next_token_witness :
  let seq := [10; 11; 12; 13; 14; 15; 16; 17; 18; 19; 20; 21] in
  exists it0 X y it' g',
    SI.__init__ seq 2 2 None true = Py.Ok it0 /\
    SI.next (fst (SI.nexts 1 (SI.__iter__ it0) []))
            (snd (SI.nexts 1 (SI.__iter__ it0) []))
    = (Py.Ok (X, y), it', g') /\
    Torch.get X 1 1 = nth 9 seq 0 /\
    target_item y (Torch.cols X) 1 1 = nth 10 seq 0.
Proof.
  intros seq. do 5 eexists. split; [reflexivity|]. split; [reflexivity|].
  destruct (@target_is_next_token (list Q) scripted seq 2 2 None true
              _ _ [] _ 1%nat _ _ 1%nat 1%nat eq_refl eq_refl)
    as (HX & Hy & _); [simpl; lia|simpl; lia|].
  split; [exact HX|exact Hy].
Defined.

(** X13: a pass starts over. After any number of calls of [next], a new
    pass over the iterator is the pass that the iterator gives when it is
    fresh, for the same draws: the same batches, in the same order. *)
Theorem pass_starts_over (G : Type) (R : NumpyRandom G) (it : SI.t)
    (g0 g : G) (n : nat) :
  SI.traverse (fst (SI.nexts n it g0)) g = SI.traverse it g /\
  SI.curr_line (SI.__iter__ (fst (SI.nexts n it g0))) = 0 /\
  SI.curr_iter (SI.__iter__ (fst (SI.nexts n it g0))) = 0.
Proof.
  pose proof (iter_after_nexts R n it g0) as Hiter.
  destruct (fields_of_iter Hiter) as (_ & _ & Hiters & _).
  unfold SI.traverse. rewrite Hiter, Hiters. auto.
Qed.

(** ** The rows of a pass *)

Lemma firstn_add_skipn (A : Type) (x y : nat) :
  forall l : list A,
  firstn x l ++ firstn y (skipn x l) = firstn (x + y) l.
Proof.
  induction x as [|x IH]; intros [|a l]; simpl;
    try rewrite firstn_nil; try reflexivity.
  rewrite IH. reflexivity.
Qed.

(** Two slices of rows that meet make one slice. *)
Lemma row_slice_app (m : Torch.Tensor2) (a b c : Z) :
  0 <= a <= b -> b <= c -> c <= Z.of_nat (Torch.rows m) ->
  Torch.data (Torch.row_slice m a b) ++ Torch.data (Torch.row_slice m b c)
  = Torch.data (Torch.row_slice m a c).
Proof.
  intros Hab Hbc Hc. unfold Torch.row_slice. cbn [Torch.data].
  rewrite !slice_bound_inside by lia.
  set (k := Torch.cols m).
  replace (Z.to_nat b * k)%nat
    with ((Z.to_nat b - Z.to_nat a) * k + Z.to_nat a * k)%nat by nia.
  rewrite <- skipn_skipn, firstn_add_skipn. f_equal. nia.
Qed.

Lemma row_slice_empty (m : Torch.Tensor2) (a : Z) :
  Torch.data (Torch.row_slice m a a) = [].
Proof.
  unfold Torch.row_slice. cbn [Torch.data]. rewrite Nat.sub_diag.
  reflexivity.
Qed.

Section Coverage.
Context {G : Type} {R : NumpyRandom G}.

(** The batches that [drain] collects from an iterator: their inputs are
    the rows that follow the cursor, in order, up to a row before the last. *)
Lemma drain_rows (fuel : nat) :
  forall (it it' : SI.t) (g g' : G) (bs : list (Torch.Tensor2 * Torch.Tensor)),
  constructed it ->
  SI.drain fuel it g = (Some bs, it', g') ->
  0 <= input_height bs /\
  (bs <> [] -> SI.completed it = false /\
               SI.curr_line it + input_height bs <= SI.total_lines it - 1) /\
  Forall (fun b => 1 <= Z.of_nat (Torch.rows (fst b))) bs /\
  input_rows bs
  = Torch.data (Torch.row_slice (SI.batches it) (SI.curr_line it)
                  (SI.curr_line it + input_height bs)).
Proof.
  induction fuel as [|fuel IH]; intros it it' g g' bs Hc Hdrain.
  - cbn [SI.drain] in Hdrain.
    destruct (SI.next it g) as [[[b|e] it1] g1]; [discriminate|].
    injection Hdrain as <- _ _. cbn [input_height fold_right input_rows map concat].
    rewrite Z.add_0_r, row_slice_empty.
    split; [lia|]. split; [congruence|]. split; [constructor|reflexivity].
  - cbn [SI.drain] in Hdrain.
    destruct (SI.completed it) eqn:Hcomp.
    + rewrite next_stop in Hdrain by assumption.
      injection Hdrain as <- _ _.
      cbn [input_height fold_right input_rows map concat].
      rewrite Z.add_0_r, row_slice_empty.
      split; [lia|]. split; [congruence|]. split; [constructor|reflexivity].
    + pose proof (next_constructed g Hc) as Hc1.
      rewrite next_emit in * by assumption. cbn [fst snd] in Hc1.
      set (s := fst (SI.get_sequence_length it g)) in *.
      set (it1 := SI.advance it s) in *.
      set (g1 := snd (SI.get_sequence_length it g)) in *.
      destruct (SI.drain fuel it1 g1) as [[r it2] g2] eqn:Hrest.
      destruct r as [bs'|]; [|discriminate].
      cbn [option_map] in Hdrain. injection Hdrain as <- _ _.
      destruct (IH it1 it2 g1 g2 bs' Hc1 Hrest) as (Hh & Hne & Hall & Hrows).
      destruct (emitted_window g Hc Hcomp) as [Hw1 Hw2]. fold s in Hw1, Hw2.
      pose proof (c_line Hc) as Hi. pose proof (c_wf Hc) as Hwf.
      pose proof (c_lines Hc) as Hlines.
      set (w := Z.min s (SI.total_lines it - 1 - SI.curr_line it)) in *.
      assert (HX : Z.of_nat (Torch.rows (fst (SI.get_batch it s))) = w).
      { unfold SI.get_batch. cbn [fst]. fold w.
        rewrite row_slice_rows by lia. lia. }
      cbn [input_height fold_right input_rows map concat].
      fold (input_height bs'). fold (input_rows bs').
      rewrite HX.
      assert (Hdata : Torch.data (fst (SI.get_batch it s))
                      = Torch.data (Torch.row_slice (SI.batches it)
                                      (SI.curr_line it) (SI.curr_line it + w)))
        by reflexivity.
      rewrite Hdata, Hrows.
      change (SI.batches it1) with (SI.batches it).
      change (SI.curr_line it1) with (SI.curr_line it + s).
      change (SI.total_lines it1) with (SI.total_lines it) in Hne.
      change (SI.curr_line it1) with (SI.curr_line it + s) in Hne.
      split; [lia|].
      destruct bs' as [|b' bs'].
      * cbn [input_height fold_right]. rewrite !Z.add_0_r, row_slice_empty,
          app_nil_r.
        split; [intros _; split; [reflexivity|lia]|].
        split; [constructor; [lia|constructor]|reflexivity].
      * destruct Hne as [Hcomp1 Hbound]; [discriminate|].
        apply completed_false_iff in Hcomp1 as [Hline1 _].
        change (SI.total_lines it1) with (SI.total_lines it) in Hline1.
        change (SI.curr_line it1) with (SI.curr_line it + s) in Hline1.
        assert (Hws : w = s) by (unfold w; lia).
        rewrite Hws in *.
        split; [intros _; split; [reflexivity|lia]|].
        split; [constructor; [lia|assumption]|].
        rewrite row_slice_app by lia. f_equal. f_equal. lia.
Qed.

End Coverage.

(** X14: the inputs of one pass are the rows of the matrix from row 0 on,
    each once and in order: chained, they are [matrix[0 : h]] for the number
    [h] of rows over all the batches of the pass. No batch is empty, and the
    last row of the matrix is never a row of an input. *)
Theorem pass_reads_consecutive_rows (G : Type) (R : NumpyRandom G)
    (seq : list Z) (bptt lanes : Z) (rl : option bool) (ft : bool)
    (it : SI.t) (g : G) :
  SI.__init__ seq bptt lanes rl ft = Py.Ok it ->
  exists bs it_end g_end,
    SI.traverse it g = (Some bs, it_end, g_end) /\
    input_rows bs
    = Torch.data (Torch.row_slice (SI.batches it) 0 (input_height bs)) /\
    Forall (fun b => 1 <= Z.of_nat (Torch.rows (fst b))) bs /\
    0 <= input_height bs /\
    (bs <> [] -> input_height bs <= SI.total_lines it - 1).
Proof.
  intros Hinit.
  pose proof (init_constructed _ _ _ _ _ Hinit) as Hc.
  destruct (traverse_ends g Hc) as (bs & Hbs & _ & _).
  destruct (SI.traverse it g) as [[r it_end] g_end] eqn:Htr.
  cbn [fst] in Hbs. subst r.
  exists bs, it_end, g_end. split; [reflexivity|].
  unfold SI.traverse in Htr.
  destruct (@drain_rows G R _ _ _ _ _ _ (iter_constructed Hc) Htr)
    as (Hh & Hne & Hall & Hrows).
  cbn [SI.__iter__ SI.curr_line SI.batches SI.total_lines] in Hne, Hrows.
  split; [exact Hrows|]. split; [exact Hall|]. split; [exact Hh|].
  intros Hbs. destruct (Hne Hbs) as [_ Hb]. lia.
Qed.

Lemma pass_reads_consecutive_rows_witness :
  exists it bs it_end g_end,
    SI.__init__ (List.repeat 7 30) 10 1 (Some true) true = Py.Ok it /\
    SI.traverse it [0%Q; 18 # 5; 0%Q; 0%Q] = (Some bs, it_end, g_end) /\
    input_rows bs
    = Torch.data (Torch.row_slice (SI.batches it) 0 (input_height bs)) /\
    input_height bs = 29.
Proof.
  eexists.
  destruct (@pass_reads_consecutive_rows (list Q) scripted (List.repeat 7 30)
              10 1 (Some true) true _ [0%Q; 18 # 5; 0%Q; 0%Q] eq_refl)
    as (bs & it_end & g_end & Htr & Hrows & _).
  exists bs, it_end, g_end.
  split; [reflexivity|]. split; [exact Htr|]. split; [exact Hrows|].
  vm_compute in Htr. injection Htr as <- _ _. reflexivity.
Defined.

(** ** Passes with a fixed window *)

Section FixedWindow.
Context {G : Type} {R : NumpyRandom G}.

Lemma drain_fixed (fuel : nat) :
  forall (it : SI.t) (g : G),
  constructed it ->
  SI.random_length it = None ->
  SI.curr_line it = SI.curr_iter it * SI.bptt it ->
  Z.of_nat fuel = Z.max 0 (SI.total_iters it - SI.curr_iter it) ->
  exists bs it',
    SI.drain fuel it g = (Some bs, it', g) /\
    length bs = fuel /\
    (fuel <> 0%nat -> 0 < SI.bptt it) /\
    forall (k : nat) (d : Torch.Tensor2 * Torch.Tensor),
      (k < fuel)%nat ->
      fst (nth k bs d)
      = Torch.row_slice (SI.batches it)
          ((SI.curr_iter it + Z.of_nat k) * SI.bptt it)
          ((SI.curr_iter it + Z.of_nat k) * SI.bptt it + SI.bptt it) /\
      Z.of_nat (Torch.rows (fst (nth k bs d))) = SI.bptt it.
Proof.
  induction fuel as [|fuel IH]; intros it g Hc Hrl Hline Hfuel.
  - assert (Hcomp : SI.completed it = true)
      by (apply completed_true_iff; right; lia).
    exists [], it. cbn [SI.drain]. rewrite next_stop by assumption.
    split; [reflexivity|]. split; [reflexivity|]. split; [congruence|].
    intros k d Hk. lia.
  - assert (Hiter : SI.curr_iter it < SI.total_iters it) by lia.
    pose proof (bptt_positive Hc Hiter) as Hb.
    pose proof (c_iters Hc) as Hiters. pose proof (c_iter Hc) as Hci.
    pose proof (c_lines Hc) as Hlines. pose proof (c_wf Hc) as Hwf.
    assert (Hq : SI.total_lines it / SI.bptt it * SI.bptt it
                 <= SI.total_lines it).
    { rewrite Z.mul_comm. apply Z.mul_div_le. exact Hb. }
    assert (Hroom : SI.curr_line it + 2 * SI.bptt it <= SI.total_lines it)
      by nia.
    assert (Hcomp : SI.completed it = false)
      by (apply completed_false_iff; split; lia).
    assert (Hs : SI.get_sequence_length it g = (SI.bptt it, g))
      by (unfold SI.get_sequence_length; rewrite Hrl; reflexivity).
    pose proof (next_constructed g Hc) as Hc1.
    cbn [SI.drain]. rewrite next_emit in * by assumption.
    rewrite Hs in *. cbn [fst snd] in *.
    set (it1 := SI.advance it (SI.bptt it)) in *.
    destruct (IH it1 g Hc1) as (bs' & it' & Hdrain & Hlen & _ & Hnth).
    + exact Hrl.
    + unfold it1. cbn [SI.advance SI.curr_line SI.curr_iter SI.bptt]. lia.
    + unfold it1. cbn [SI.advance SI.curr_iter SI.total_iters]. lia.
    + rewrite Hdrain. cbn [option_map].
      exists (SI.get_batch it (SI.bptt it) :: bs'), it'.
      split; [reflexivity|]. split; [simpl; congruence|].
      split; [intros _; exact Hb|].
      assert (Hw : Z.min (SI.bptt it)
                     (SI.total_lines it - 1 - SI.curr_line it) = SI.bptt it)
        by lia.
      intros [|k] d Hk; cbn [nth].
      * unfold SI.get_batch. cbn [fst]. rewrite Hw, Z.add_0_r, <- Hline.
        split; [reflexivity|]. rewrite row_slice_rows by lia. lia.
      * destruct (Hnth k d) as [Hx Hr]; [lia|].
        unfold it1 in Hx, Hr.
        cbn [SI.advance SI.curr_iter SI.bptt SI.batches] in Hx, Hr.
        split; [rewrite Hx; f_equal; lia|exact Hr].
Qed.

End FixedWindow.

(** X15: with [random_length = None] a pass draws nothing and emits exactly
    [max(0, total_lines // bptt - 1)] batches, batch [k] with the input
    [matrix[k*bptt : (k+1)*bptt]], of [bptt] rows: no batch is cut short.
    When the pass emits a batch, the rows from
    [(total_lines // bptt - 1) * bptt] on, at least [bptt] of them, are in
    no input. *)
Theorem fixed_window_pass (G : Type) (R : NumpyRandom G)
    (seq : list Z) (bptt lanes : Z) (ft : bool) (it : SI.t) (g : G) :
  SI.__init__ seq bptt lanes None ft = Py.Ok it ->
  exists bs it_end,
    SI.traverse it g = (Some bs, it_end, g) /\
    Py.len bs = Z.max 0 (SI.total_lines it / bptt - 1) /\
    (forall (k : nat) (d : Torch.Tensor2 * Torch.Tensor),
       (k < length bs)%nat ->
       fst (nth k bs d)
       = Torch.row_slice (SI.batches it) (Z.of_nat k * bptt)
           (Z.of_nat k * bptt + bptt) /\
       Z.of_nat (Torch.rows (fst (nth k bs d))) = bptt) /\
    (bs <> [] -> 0 < bptt /\ Py.len bs * bptt + bptt <= SI.total_lines it).
Proof.
  intros Hinit.
  pose proof (init_constructed _ _ _ _ _ Hinit) as Hc.
  pose proof (iter_constructed Hc) as Hc'.
  apply init_inversion in Hinit as (Hl & Hb & Hit).
  assert (Hbp : SI.bptt it = bptt) by (rewrite Hit; reflexivity).
  assert (Hrl : SI.random_length it = None) by (rewrite Hit; reflexivity).
  assert (Hiters : SI.total_iters it = SI.total_lines it / bptt - 1)
    by (rewrite Hit; reflexivity).
  assert (HT : 0 <= SI.total_lines it)
    by (rewrite (c_lines Hc); lia).
  destruct (@drain_fixed G R (Z.to_nat (SI.total_iters it)) (SI.__iter__ it) g
              Hc') as (bs & it_end & Hdrain & Hlen & Hpos & Hnth).
  - exact Hrl.
  - reflexivity.
  - cbn [SI.__iter__ SI.total_iters SI.curr_iter]. lia.
  - exists bs, it_end. split; [exact Hdrain|].
    cbn [SI.__iter__ SI.bptt SI.batches SI.curr_iter] in Hpos, Hnth.
    rewrite Hbp in Hpos, Hnth.
    split; [unfold Py.len; lia|]. split.
    + intros k d Hk. rewrite Hlen in Hk.
      destruct (Hnth k d Hk) as [Hx Hr].
      rewrite Z.add_0_l in Hx. split; assumption.
    + intros Hne.
      assert (Hfuel : Z.to_nat (SI.total_iters it) <> 0%nat).
      { intros H0. rewrite H0 in Hlen. destruct bs; [congruence|discriminate]. }
      specialize (Hpos Hfuel). split; [assumption|].
      assert (Hq : SI.total_lines it / bptt * bptt <= SI.total_lines it).
      { rewrite Z.mul_comm. apply Z.mul_div_le. exact Hpos. }
      unfold Py.len. nia.
Qed.

Lemma fixed_window_pass_witness :
  exists it bs it_end,
    SI.__init__ (List.repeat 7 70) 10 2 None true = Py.Ok it /\
    SI.traverse it [] = (Some bs, it_end, []) /\
    Py.len bs = 2.
Proof.
  eexists.
  destruct (@fixed_window_pass (list Q) scripted (List.repeat 7 70) 10 2 true
              _ [] eq_refl) as (bs & it_end & Htr & Hlen & _).
  exists bs, it_end. split; [reflexivity|]. split; [exact Htr|exact Hlen].
Defined.

(** * More of the training loop *)

Section QuietRuns.
Context {X Y F C : Type} {P : PyFloat F} {K : Collaborators X Y F}.

Lemma invoke_quiet (ev : event X Y F) (cbs : CallbackGroup.t X Y F C) :
  quiet cbs ->
  snd (CallbackGroup.invoke ev cbs) = false /\
  quiet (fst (CallbackGroup.invoke ev cbs)).
Proof.
  induction 1 as [|o cbs Ho Hq (IHs & IHq)]; simpl.
  - split; [reflexivity|constructor].
  - destruct (CallbackGroup.invoke ev cbs) as [rest' s']. cbn [fst snd] in *.
    destruct (CallbackGroup.handler o ev (CallbackGroup.state o))
      as [[c' s]|] eqn:Hh; cbn [fst snd].
    + rewrite (Ho _ _ _ _ Hh), IHs. split; [reflexivity|].
      constructor; [exact Ho|exact IHq].
    + rewrite IHs. split; [reflexivity|]. constructor; assumption.
Qed.

Lemma fire_calm (ev : event X Y F) (w : Loop.world C) :
  calm w -> calm (Loop.fire ev w).
Proof.
  intros [Hq Hs]. unfold Loop.fire.
  destruct (invoke_quiet ev Hq) as [Hsig Hq'].
  destruct (CallbackGroup.invoke ev (Loop.cb w)) as [cb' signal].
  cbn [fst snd] in *. subst signal. split; assumption.
Qed.

Lemma run_batch_calm (a : F) (epoch : Z) (tr : bool) (p : Phase.t X Y F)
    (w : Loop.world C) (xy : X * Y) :
  calm w -> calm (snd (Loop.run_batch a epoch tr (p, w) xy)).
Proof.
  intros Hcalm. destruct xy as [x y]. unfold Loop.run_batch.
  set (w1 := Loop.fire _ w).
  assert (Hc1 : calm w1) by (apply fire_calm, Hcalm).
  destruct (Stepper.step (Loop.stepper (Loop.self w1)) x y tr)
    as [[loss stepper'] calls].
  cbn [snd]. apply fire_calm. exact Hc1.
Qed.

Lemma run_batches_calm (a : F) (epoch : Z) (tr : bool) (l : list (X * Y)) :
  forall (p : Phase.t X Y F) (w : Loop.world C),
  calm w -> calm (snd (fold_left (Loop.run_batch a epoch tr) l (p, w))).
Proof.
  induction l as [|xy l IH]; intros p w Hcalm; [exact Hcalm|].
  cbn [fold_left]. pose proof (run_batch_calm a epoch tr p xy Hcalm) as Hc1.
  destruct (Loop.run_batch a epoch tr (p, w) xy) as [p' w'].
  apply IH. exact Hc1.
Qed.

Lemma run_phase_calm (a : F) (epoch : Z) (p : Phase.t X Y F)
    (w : Loop.world C) :
  calm w ->
  calm (snd (Loop.run_phase a epoch p w)) /\
  Phase.batch_num (fst (Loop.run_phase a epoch p w))
  = Phase.batch_num p + Py.len (Phase.dataset p).
Proof.
  intros Hcalm. unfold Loop.run_phase.
  set (w1 := Loop.fire (epoch_start epoch p) w).
  assert (Hc1 : calm w1) by (apply fire_calm, Hcalm).
  pose proof (run_batches_calm a epoch (String.eqb (Phase.name p) "train")
                (Phase.dataset p) p Hc1) as Hc2.
  destruct (run_batches_spec a epoch (String.eqb (Phase.name p) "train")
              (Phase.dataset p) p w1) as (_ & _ & _ & Hb).
  destruct (fold_left _ (Phase.dataset p) (p, w1)) as [p' w'].
  cbn [fst snd] in *. split; [apply fire_calm, Hc2|exact Hb].
Qed.

(** One whole epoch of a calm loop: it stays calm, and every phase has
    counted its batches. *)
Lemma run_phases_calm (a : F) (epoch : Z) (ps : list (Phase.t X Y F)) :
  forall w : Loop.world C,
  calm w ->
  calm (snd (Loop.run_phases a epoch ps w)) /\
  map Phase.batch_num (fst (Loop.run_phases a epoch ps w))
  = map (fun p => Phase.batch_num p + Py.len (Phase.dataset p)) ps.
Proof.
  induction ps as [|p ps IH]; intros w Hcalm; [split; [assumption|reflexivity]|].
  cbn [Loop.run_phases].
  destruct (run_phase_calm a epoch p Hcalm) as [Hc1 Hb].
  destruct (Loop.run_phase a epoch p w) as [p' w1]. cbn [fst snd] in *.
  destruct (IH w1 Hc1) as [Hc2 Hbs].
  destruct (Loop.run_phases a epoch ps w1) as [ps' w2]. cbn [fst snd] in *.
  split; [assumption|]. cbn [map]. rewrite Hb, Hbs. reflexivity.
Qed.

(** All the epochs of a calm loop run. *)
Lemma run_epochs_calm (a : F) (es : list Z) :
  forall st : list (Phase.t X Y F) * Loop.world C,
  calm (snd st) ->
  let st' := Loop.run_epochs a es st in
  calm (snd st') /\
  same_shape (fst st) (fst st') /\
  map Phase.batch_num (fst st')
  = map (fun p => Phase.batch_num p
                  + Py.len es * Py.len (Phase.dataset p)) (fst st) /\
  exists J,
    Loop.journal (snd st') = Loop.journal (snd st) ++ J /\
    tags J = concat (map (fun e => epoch_tags e (fst st)) es).
Proof.
  induction es as [|e es IH]; intros st Hcalm; cbv zeta.
  - cbn [Loop.run_epochs]. split; [assumption|]. split; [reflexivity|].
    split.
    + apply map_ext. intros p. unfold Py.len. cbn [length]. lia.
    + exists []. rewrite app_nil_r. split; reflexivity.
  - cbn [Loop.run_epochs]. rewrite (proj2 Hcalm).
    destruct (run_phases_calm a e (fst st) Hcalm) as [Hc1 Hb1].
    destruct (run_phases_spec a e (fst st) (snd st))
      as ([(J1 & Hj1 & _ & Ht1) _] & Hsh1).
    set (st1 := Loop.run_phases a e (fst st) (snd st)) in *.
    destruct (IH st1 Hc1) as (Hc2 & Hsh2 & Hb2 & J2 & Hj2 & Ht2).
    split; [assumption|].
    split; [unfold same_shape in *; congruence|].
    split.
    + rewrite Hb2.
      assert (Hds : map (fun p : Phase.t X Y F => Py.len (Phase.dataset p))
                        (fst st1)
                    = map (fun p => Py.len (Phase.dataset p)) (fst st)).
      { unfold same_shape in Hsh1.
        apply (f_equal (map (fun nd : string * list (X * Y) =>
                               Py.len (snd nd)))) in Hsh1.
        rewrite !map_map in Hsh1. cbn [snd] in Hsh1. symmetry. exact Hsh1. }
      revert Hb1 Hds. generalize (fst st1) (fst st).
      induction l as [|p1 l1 IHl]; intros [|p0 l0] Hb Hd;
        try discriminate; [reflexivity|].
      cbn [map] in *. injection Hb as Hb Hbl. injection Hd as Hd Hdl.
      rewrite (IHl l0 Hbl Hdl), Hb, Hd. f_equal.
      unfold Py.len. cbn [length]. nia.
    + exists (J1 ++ J2).
      split; [rewrite Hj2, Hj1, app_assoc; reflexivity|].
      unfold tags in *. rewrite map_app, Ht1, Ht2. cbn [map concat].
      f_equal. f_equal. apply map_ext. intros e'.
      symmetry. apply epoch_tags_same_shape, Hsh1.
Qed.

End QuietRuns.

Lemma range_length (n : Z) : Py.len (Loop.range n) = Z.max 0 n.
Proof. unfold Py.len, Loop.range. rewrite length_map, length_seq. lia. Qed.

(** X16: when the loop's [stop] flag is not set and no observer ever
    returns a stop signal, [run] runs every epoch of [range(epochs)]: it
    fires training-start, then for each epoch in turn a whole train phase and
    a whole valid phase, then training-end. Each phase has counted
    [max(0, epochs) * len(dataset)] batches, and the flag is still not set. *)
Theorem quiet_run_runs_every_epoch (X Y F C : Type) (P : PyFloat F)
    (K : Collaborators X Y F) (self : Loop.t) (train valid : list (X * Y))
    (n : Z) (callbacks : option (list (CallbackGroup.observer X Y F C))) :
  Loop.stop self = false ->
  quiet (CallbackGroup.__init__ callbacks) ->
  let st := Loop.run self train valid n callbacks in
  tags (Loop.journal (snd st))
  = (TrainingStart, None, None)
    :: epochs_tags (Loop.range n) (length train) (length valid)
    ++ [(TrainingEnd, None, None)] /\
  map Phase.name (fst st) = ["train"; "valid"]%string /\
  map Phase.batch_num (fst st)
  = [Z.max 0 n * Py.len train; Z.max 0 n * Py.len valid] /\
  Loop.stop (Loop.self (snd st)) = false.
Proof.
  intros Hstop Hquiet. cbv zeta. unfold Loop.run.
  set (ps := [Phase.__init__ "train" train; Phase.__init__ "valid" valid]).
  set (w00 := Loop.mk_world self (CallbackGroup.__init__ callbacks) []).
  assert (Hc00 : calm w00) by (split; assumption).
  set (w0 := Loop.fire training_start w00).
  assert (Hc0 : calm w0) by (apply fire_calm, Hc00).
  destruct (@run_epochs_calm X Y F C P K (Loop.alpha self) (Loop.range n)
              (ps, w0) Hc0) as (Hc1 & Hsh & Hb & J & Hj & Ht).
  destruct (Loop.run_epochs (Loop.alpha self) (Loop.range n) (ps, w0))
    as [ps' w1].
  cbn [fst snd] in *.
  pose proof (fire_calm training_end Hc1) as Hc2.
  split; [|split; [|split]].
  - rewrite fire_journal, Hj. unfold w0. rewrite fire_journal.
    unfold tags in *. cbn [app map]. rewrite !map_app, Ht.
    unfold w00. cbn [Loop.journal map app]. f_equal. f_equal.
    unfold epochs_tags. f_equal. apply map_ext. intros e.
    unfold epoch_tags, ps. cbn [map concat Phase.__init__ Phase.name
                                Phase.dataset].
    rewrite app_nil_r. reflexivity.
  - unfold same_shape in Hsh.
    apply (f_equal (map (fun nd : string * list (X * Y) => fst nd))) in Hsh.
    rewrite !map_map in Hsh. cbn [fst] in Hsh.
    change (map Phase.name ps' = map Phase.name ps). symmetry. exact Hsh.
  - rewrite Hb. unfold ps. cbn [map Phase.__init__ Phase.batch_num
                                Phase.dataset].
    rewrite range_length. reflexivity.
  - exact (proj2 Hc2).
Qed.

Lemma quiet_run_runs_every_epoch_witness :
  let st := Loop.run (K := constant_loss 1%Q) (C := unit)
              (Loop.__init__ (fresh_stepper 1%Q) None)
              [(tt, tt); (tt, tt)] [(tt, tt)] 2 None in
  map Phase.batch_num (fst st) = [4; 2] /\
  Loop.stop (Loop.self (snd st)) = false.
Proof.
  intros st.
  destruct (@quiet_run_runs_every_epoch unit unit Q unit exact_float
              (constant_loss 1%Q) (Loop.__init__ (fresh_stepper 1%Q) None)
              [(tt, tt); (tt, tt)] [(tt, tt)] 2 None)
    as (_ & _ & Hb & Hs).
  - reflexivity.
  - constructor.
  - split; [exact Hb|exact Hs].
Defined.

(** ** What a phase does to the stepper *)

Section Frames.
Context {X Y F C : Type} {P : PyFloat F} {K : Collaborators X Y F}.








End Frames.


(** ** The running loss over a whole run *)

Lemma Forall2_chain (A : Type) (R S T : A -> A -> Prop) :
  (forall x y z, R x y -> S y z -> T x z) ->
  forall l1 l2 l3, Forall2 R l1 l2 -> Forall2 S l2 l3 -> Forall2 T l1 l3.
Proof.
  intros Hc l1 l2 l3 H12. revert l3.
  induction H12 as [|x y l1 l2 Hxy _ IH]; intros l3 H23;
    inversion H23; subst; constructor; eauto.
Qed.

Section CarriedLoss.
Context {X Y F C : Type} {P : PyFloat F} {K : Collaborators X Y F}.
Variables (a c : F).
Hypothesis constant : forall t : LossTensor, item t = c.

Lemma run_phases_averaged (epoch : Z) (ps : list (Phase.t X Y F)) :
  forall w : Loop.world C,
  Forall2 (fun p p' => averaged a c (length (Phase.dataset p)) p p')
          ps (fst (Loop.run_phases a epoch ps w)).
Proof.
  induction ps as [|p ps IH]; intros w; [constructor|].
  cbn [Loop.run_phases].
  destruct (run_phase_avg_loss a epoch p w constant) as (Havg & Hn & _).
  destruct (run_phase_spec a epoch p w) as (_ & _ & Hd).
  destruct (Loop.run_phase a epoch p w) as [p' w1]. cbn [fst snd] in *.
  pose proof (IH w1) as Hrest.
  destruct (Loop.run_phases a epoch ps w1) as [ps' w2]. cbn [fst] in *.
  constructor; [|exact Hrest]. split; [|split]; assumption.
Qed.

Lemma run_epochs_averaged (es : list Z) :
  forall st : list (Phase.t X Y F) * Loop.world C,
  calm (snd st) ->
  Forall2 (fun p p' =>
             averaged a c (length es * length (Phase.dataset p)) p p')
          (fst st) (fst (Loop.run_epochs a es st)).
Proof.
  induction es as [|e es IH]; intros st Hcalm.
  - cbn [Loop.run_epochs length Nat.mul].
    induction (fst st) as [|p ps IHps]; constructor; [|exact IHps].
    split; [|split]; reflexivity.
  - cbn [Loop.run_epochs]. rewrite (proj2 Hcalm).
    pose proof (run_phases_averaged e (fst st) (snd st)) as H1.
    destruct (run_phases_calm a e (fst st) Hcalm) as [Hc1 _].
    pose proof (IH (Loop.run_phases a e (fst st) (snd st)) Hc1) as H2.
    apply (fun Hx => @Forall2_chain _ _ _ _ Hx _ _ _ H1 H2).
    intros p p1 p2 (Hn1 & Hd1 & Ha1) (Hn2 & Hd2 & Ha2).
    split; [congruence|]. split; [congruence|].
    rewrite Ha2, Ha1, Hd1, <- Nat.iter_add. f_equal.
    cbn [length]. lia.
Qed.

End CarriedLoss.

(** X19: the running loss of a phase is not reset when an epoch starts.
    When every batch has the loss [c], the flag is not set and no observer
    returns a stop signal, the running loss that [run] leaves in a phase is
    the initial 0.0 updated [epochs * len(dataset)] times by
    [r*alpha + c*(1 - alpha)]. *)
Theorem running_loss_carries_over_epochs (X Y F C : Type) (P : PyFloat F)
    (K : Collaborators X Y F) (c : F) (self : Loop.t)
    (train valid : list (X * Y)) (n : Z)
    (callbacks : option (list (CallbackGroup.observer X Y F C))) :
  (forall t : LossTensor, item t = c) ->
  Loop.stop self = false ->
  quiet (CallbackGroup.__init__ callbacks) ->
  map Phase.avg_loss (fst (Loop.run self train valid n callbacks))
  = [Nat.iter (Z.to_nat n * length train)
              (fun r => ema (Loop.alpha self) r c) f0;
     Nat.iter (Z.to_nat n * length valid)
              (fun r => ema (Loop.alpha self) r c) f0].
Proof.
  intros Hc Hstop Hquiet. unfold Loop.run.
  set (ps := [Phase.__init__ "train" train; Phase.__init__ "valid" valid]).
  set (w00 := Loop.mk_world self (CallbackGroup.__init__ callbacks) []).
  assert (Hc00 : calm w00) by (split; assumption).
  set (w0 := Loop.fire training_start w00).
  assert (Hc0 : calm w0) by (apply fire_calm, Hc00).
  pose proof (@run_epochs_averaged X Y F C P K (Loop.alpha self) c Hc
                (Loop.range n) (ps, w0) Hc0) as H.
  destruct (Loop.run_epochs (Loop.alpha self) (Loop.range n) (ps, w0))
    as [ps' w1].
  cbn [fst snd] in *.
  assert (Hlen : length (Loop.range n) = Z.to_nat n).
  { unfold Loop.range. rewrite length_map, length_seq. reflexivity. }
  rewrite Hlen in H. unfold ps in H.
  inversion H as [|pt pt' l1 l1' (_ & _ & Ht) Hrest]; subst.
  inversion Hrest as [|pv pv' l2 l2' (_ & _ & Hv) Hnil]; subst.
  inversion Hnil; subst.
  cbn [map]. rewrite Ht, Hv. reflexivity.
Qed.

Lemma running_loss_carries_over_epochs_witness :
  map Phase.avg_loss
      (fst (Loop.run (K := constant_loss 1%Q) (C := unit)
              (Loop.__init__ (fresh_stepper 1%Q) None)
              [(tt, tt); (tt, tt)] [(tt, tt)] 3 None))
  = [Nat.iter 6 (fun r => ema (98 # 100)%Q r 1%Q) 0%Q;
     Nat.iter 3 (fun r => ema (98 # 100)%Q r 1%Q) 0%Q].
Proof.
  apply (@running_loss_carries_over_epochs unit unit Q unit exact_float
           (constant_loss 1%Q) 1%Q).
  - intros t. reflexivity.
  - reflexivity.
  - constructor.
Defined.

(** ** ImdbDataset *)

Lemma getitem_in_range (A : Type) (l : list A) (i : nat) (d : A) :
  (i < length l)%nat -> Exc.getitem l (Z.of_nat i) = Exc.Done (nth i l d).
Proof.
  intros Hi.
  destruct (proj1 (getitem_cases l (Z.of_nat i))) as (x & Hget & Hnth).
  - unfold Py.len. lia.
  - rewrite Hget. rewrite Nat2Z.id in Hnth.
    rewrite (nth_error_nth _ _ d Hnth). reflexivity.
Qed.

Lemma nth_constant (A B : Type) (c : B) (l : list A) (i : nat) :
  (i < length l)%nat -> nth i (map (fun _ => c) l) c = c.
Proof.
  revert i. induction l as [|x l IH]; intros [|i] Hi; simpl in *;
    try lia; [reflexivity|]. apply IH. lia.
Qed.

Lemma fold_extend (A : Type) (arrays : list (list A)) :
  forall seq, fold_left (fun seq arr => seq ++ arr) arrays seq
              = seq ++ concat arrays.
Proof.
  induction arrays as [|arr arrays IH]; intros seq; simpl.
  - rewrite app_nil_r. reflexivity.
  - rewrite IH, app_assoc. reflexivity.
Qed.

Lemma concat_cases (arrays : list (list Z)) :
  Sequences.concat arrays
  = match arrays with
    | [] => Exc.Fail Exc.IndexError
    | _ :: _ => Exc.Done (concat arrays)
    end.
Proof.
  unfold Sequences.concat. destruct arrays as [|arr arrays]; [reflexivity|].
  cbn [Exc.getitem Z.ltb Z.compare Z.to_nat nth_error Exc.bind].
  rewrite fold_extend. reflexivity.
Qed.

Section Datasets.
Context {Path : Type} {FS : FileSystem Path}.

Local Abbreviation subfolder root train :=
  (joinpath root (if train : bool then "train" else "test")%string).

(** The texts that the constructor reads. *)
Lemma labelled_texts_eq (sub : Path) :
  ImdbDataset.labelled_texts sub
  = (read_txt (joinpath sub "neg") ++ read_txt (joinpath sub "pos"),
     map (fun _ => 0) (read_txt (joinpath sub "neg"))
     ++ map (fun _ => 1) (read_txt (joinpath sub "pos"))).
Proof. reflexivity. Qed.

Lemma plain_texts_eq (sub : Path) :
  ImdbDataset.plain_texts sub
  = read_txt (joinpath sub "neg") ++ read_txt (joinpath sub "pos")
    ++ read_txt (joinpath sub "unsup").
Proof.
  unfold ImdbDataset.plain_texts, CLASSES. cbn [fold_left app].
  rewrite <- app_assoc. reflexivity.
Qed.

(** The dataset that the constructor returns when the tokenizer returns
    [tokens] and the vocabulary is [v]. *)
Lemma init_done (root : Path) (train supervised : bool)
    (tokenizer : option (list string -> Exc.result (list (list string))))
    (vocab : option Vocab.t)
    (make_vocab : option (list (list string) -> Vocab.t))
    (tokens : list (list string)) (v : Vocab.t) :
  let sub := subfolder root train in
  let tl := if supervised then ImdbDataset.labelled_texts sub
            else (ImdbDataset.plain_texts sub, []) in
  ImdbDataset.tokenizer_or_default tokenizer (fst tl) = Exc.Done tokens ->
  match make_vocab with Some f => Some (f tokens) | None => vocab end
  = Some v ->
  tracks v ->
  let data := map (map (id_of (Vocab.itos v))) tokens in
  exists v',
    ImdbDataset.__init__ root train supervised tokenizer vocab make_vocab
    = Exc.Done
        (ImdbDataset.mk root train supervised
           (if supervised && train then Some (snd tl) else None)
           (if supervised && negb train then Some (snd tl) else None)
           v'
           (if train then Some data else None)
           (if train then None else Some data)) /\
    Vocab.itos v' = Vocab.itos v /\
    Vocab.size v' = Vocab.size v /\
    tracks v'.
Proof.
  intros sub tl Htok Hv Ht data.
  destruct (numericalize_spec tokens Ht) as (Hids & Ht' & Hitos & Hsize).
  exists (snd (Vocab.numericalize v tokens)).
  split; [|split; [|split]]; try assumption.
  unfold ImdbDataset.__init__.
  assert (Hsome : match vocab, make_vocab with
                  | None, None => false
                  | _, _ => true
                  end = true).
  { destruct vocab, make_vocab; try reflexivity. discriminate. }
  rewrite Hsome. fold sub. subst tl.
  destruct supervised.
  - destruct (ImdbDataset.labelled_texts sub) as [texts labels].
    cbn [fst snd] in *. rewrite Htok. cbn [Exc.bind]. rewrite Hv.
    cbn [attr Exc.bind].
    destruct (Vocab.numericalize v tokens) as [num v'].
    cbn [fst snd] in *. subst num. reflexivity.
  - cbn [fst snd] in *. rewrite Htok. cbn [Exc.bind]. rewrite Hv.
    cbn [attr Exc.bind].
    destruct (Vocab.numericalize v tokens) as [num v'].
    cbn [fst snd] in *. subst num. reflexivity.
Qed.

End Datasets.

(** X20: a supervised dataset, built with a tokenizer that returns one
    token list for each text, holds the reviews of the [neg] folder, then
    those of the [pos] folder, and nothing of [unsup]: its length is the
    number of these files, item [i] is the array of the vocabulary's ids of
    the tokens of text [i] with the label 0 for a [neg] review and 1 for a
    [pos] review, a negative index counts from the end, and an index out of
    range raises [IndexError]. *)
Theorem supervised_items_carry_their_class (Path : Type)
    (FS : FileSystem Path) (root : Path) (train : bool)
    (tokenizer : option (list string -> Exc.result (list (list string))))
    (vocab : option Vocab.t)
    (make_vocab : option (list (list string) -> Vocab.t))
    (tokens : list (list string)) (v : Vocab.t) :
  let sub := joinpath root (if train then "train" else "test")%string in
  let neg := read_txt (joinpath sub "neg") in
  let pos := read_txt (joinpath sub "pos") in
  ImdbDataset.tokenizer_or_default tokenizer (neg ++ pos) = Exc.Done tokens ->
  length tokens = length (neg ++ pos) ->
  match make_vocab with Some f => Some (f tokens) | None => vocab end
  = Some v ->
  tracks v ->
  exists ds,
    ImdbDataset.__init__ root train true tokenizer vocab make_vocab
    = Exc.Done ds /\
    Vocab.itos (ImdbDataset.vocab ds) = Vocab.itos v /\
    ImdbDataset.__len__ ds = Exc.Done (Py.len neg + Py.len pos) /\
    (forall i : nat, (i < length neg + length pos)%nat ->
       ImdbDataset.__getitem__ ds (Z.of_nat i)
       = Exc.Done (ImdbDataset.Labelled
                     (map (id_of (Vocab.itos v)) (nth i tokens []))
                     (if (i <? length neg)%nat then 0 else 1))) /\
    (forall i : Z, - (Py.len neg + Py.len pos) <= i < 0 ->
       ImdbDataset.__getitem__ ds i
       = ImdbDataset.__getitem__ ds (i + (Py.len neg + Py.len pos))) /\
    (forall i : Z, i < - (Py.len neg + Py.len pos)
                   \/ Py.len neg + Py.len pos <= i ->
       ImdbDataset.__getitem__ ds i = Exc.Fail Exc.IndexError).
Proof.
  intros sub neg pos Htok Hlen Hv Ht.
  destruct (@init_done Path FS root train true tokenizer vocab make_vocab
              tokens v Htok Hv Ht) as (v' & Hinit & Hitos & _ & _).
  rewrite labelled_texts_eq in Hinit. cbn [snd andb] in Hinit.
  fold sub neg pos in Hinit.
  set (data := map (map (id_of (Vocab.itos v))) tokens) in *.
  set (labels := map (fun _ => 0) neg ++ map (fun _ => 1) pos) in *.
  assert (Hdata : length data = (length neg + length pos)%nat).
  { unfold data. rewrite length_map, Hlen, length_app. reflexivity. }
  assert (Hlabels : length labels = (length neg + length pos)%nat).
  { unfold labels. rewrite length_app, !length_map. reflexivity. }
  assert (Hget : forall i,
             ImdbDataset.__getitem__
               (ImdbDataset.mk root train true
                  (if train then Some labels else None)
                  (if negb train then Some labels else None) v'
                  (if train then Some data else None)
                  (if train then None else Some data)) i
             = Exc.bind (Exc.getitem data i) (fun ids =>
               Exc.bind (Exc.getitem labels i) (fun label =>
               Exc.Done (ImdbDataset.Labelled ids label)))).
  { intros i. unfold ImdbDataset.__getitem__. destruct train; reflexivity. }
  eexists. split; [exact Hinit|].
  split; [exact Hitos|]. split; [|split; [|split]].
  - unfold ImdbDataset.__len__. cbn [ImdbDataset.train ImdbDataset.train_data
                                     ImdbDataset.test_data].
    destruct train; cbn [attr Exc.bind]; unfold Py.len; rewrite Hdata;
      f_equal; lia.
  - intros i Hi. rewrite Hget.
    rewrite (getitem_in_range data [] ) by lia.
    rewrite (getitem_in_range labels 0) by lia. cbn [Exc.bind].
    f_equal. f_equal.
    + unfold data. change (@nil Z) with (map (id_of (Vocab.itos v)) []).
      apply map_nth.
    + unfold labels. destruct (Nat.ltb_spec i (length neg)) as [Hn|Hn].
      * rewrite app_nth1 by (rewrite length_map; exact Hn).
        apply nth_constant. exact Hn.
      * rewrite app_nth2 by (rewrite length_map; exact Hn).
        rewrite length_map.
        rewrite (nth_indep _ 0 1) by (rewrite length_map; lia).
        apply nth_constant. lia.
  - intros i Hi. rewrite !Hget.
    destruct (getitem_cases data i) as (_ & Hd & _).
    destruct (getitem_cases labels i) as (_ & Hl & _).
    unfold Py.len in *. rewrite Hd, Hl by lia.
    rewrite Hdata, Hlabels, Nat2Z.inj_add. reflexivity.
  - intros i Hi. rewrite Hget.
    destruct (getitem_cases data i) as (_ & _ & Hd & _).
    unfold Py.len in *. rewrite Hd by lia. reflexivity.
Qed.

Lemma supervised_items_carry_their_class_witness :
  exists ds,
    ImdbDataset.__init__ ["data"%string] true true None None
      (Some (fun tokens => Vocab.make_vocab tokens 0 100 PAD UNK))
    = Exc.Done ds /\
    ImdbDataset.__len__ ds = Exc.Done 3 /\
    ImdbDataset.__getitem__ ds (-1)
    = Exc.Done (ImdbDataset.Labelled [8; 4; 4; 2] 1).
Proof.
  destruct (@supervised_items_carry_their_class (list string) four_reviews
              ["data"%string] true None None
              (Some (fun tokens => Vocab.make_vocab tokens 0 100 PAD UNK))
              (map chars ["bad"; "dull"; "good"]%string)
              (Vocab.make_vocab (map chars ["bad"; "dull"; "good"]%string)
                                0 100 PAD UNK))
    as (ds & Hinit & _ & Hlen & Hitem & Hwrap & _).
  - reflexivity.
  - reflexivity.
  - reflexivity.
  - apply init_tracks.
  - exists ds. split; [exact Hinit|]. split; [exact Hlen|].
    rewrite (Hwrap (-1)) by (vm_compute; split; [discriminate|reflexivity]).
    exact (Hitem 2%nat ltac:(vm_compute; lia)).
Defined.

(** X21: a dataset that is not supervised holds the reviews of the [neg],
    [pos] and [unsup] folders, in this order, without labels: its length is
    the number of token lists, item [i] is the array of the vocabulary's ids
    of the tokens of text [i] alone, a negative index counts from the end,
    and an index out of range raises [IndexError]. The vocabulary it keeps
    has the words of the one it was built with. *)
Theorem unsupervised_items_are_plain (Path : Type) (FS : FileSystem Path)
    (root : Path) (train : bool)
    (tokenizer : option (list string -> Exc.result (list (list string))))
    (vocab : option Vocab.t)
    (make_vocab : option (list (list string) -> Vocab.t))
    (tokens : list (list string)) (v : Vocab.t) :
  let sub := joinpath root (if train then "train" else "test")%string in
  let texts := read_txt (joinpath sub "neg") ++ read_txt (joinpath sub "pos")
               ++ read_txt (joinpath sub "unsup") in
  ImdbDataset.tokenizer_or_default tokenizer texts = Exc.Done tokens ->
  match make_vocab with Some f => Some (f tokens) | None => vocab end
  = Some v ->
  tracks v ->
  exists ds,
    ImdbDataset.__init__ root train false tokenizer vocab make_vocab
    = Exc.Done ds /\
    Vocab.itos (ImdbDataset.vocab ds) = Vocab.itos v /\
    ImdbDataset.__len__ ds = Exc.Done (Py.len tokens) /\
    (forall i : nat, (i < length tokens)%nat ->
       ImdbDataset.__getitem__ ds (Z.of_nat i)
       = Exc.Done (ImdbDataset.Plain
                     (map (id_of (Vocab.itos v)) (nth i tokens [])))) /\
    (forall i : Z, - Py.len tokens <= i < 0 ->
       ImdbDataset.__getitem__ ds i
       = ImdbDataset.__getitem__ ds (i + Py.len tokens)) /\
    (forall i : Z, i < - Py.len tokens \/ Py.len tokens <= i ->
       ImdbDataset.__getitem__ ds i = Exc.Fail Exc.IndexError).
Proof.
  intros sub texts Htok Hv Ht.
  pose proof (@init_done Path FS root train false tokenizer vocab make_vocab
                tokens v) as Hdone.
  cbv zeta in Hdone. cbn [fst snd andb] in Hdone.
  rewrite plain_texts_eq in Hdone.
  destruct (Hdone Htok Hv Ht) as (v' & Hinit & Hitos & _ & _).
  set (data := map (map (id_of (Vocab.itos v))) tokens) in *.
  assert (Hdata : length data = length tokens).
  { unfold data. apply length_map. }
  assert (Hget : forall i,
             ImdbDataset.__getitem__
               (ImdbDataset.mk root train false None None v'
                  (if train then Some data else None)
                  (if train then None else Some data)) i
             = Exc.bind (Exc.getitem data i) (fun ids =>
               Exc.Done (ImdbDataset.Plain ids))).
  { intros i. unfold ImdbDataset.__getitem__. destruct train; reflexivity. }
  eexists. split; [exact Hinit|].
  split; [exact Hitos|]. split; [|split; [|split]].
  - unfold ImdbDataset.__len__. cbn [ImdbDataset.train ImdbDataset.train_data
                                     ImdbDataset.test_data].
    destruct train; cbn [attr Exc.bind]; unfold Py.len; rewrite Hdata;
      reflexivity.
  - intros i Hi. rewrite Hget.
    rewrite (getitem_in_range data []) by lia. cbn [Exc.bind].
    f_equal. f_equal.
    unfold data. change (@nil Z) with (map (id_of (Vocab.itos v)) []).
    apply map_nth.
  - intros i Hi. rewrite !Hget.
    destruct (getitem_cases data i) as (_ & Hd & _).
    unfold Py.len in *. rewrite Hd by lia. rewrite Hdata. reflexivity.
  - intros i Hi. rewrite Hget.
    destruct (getitem_cases data i) as (_ & _ & Hd & _).
    unfold Py.len in *. rewrite Hd by lia. reflexivity.
Qed.

Lemma unsupervised_items_are_plain_witness :
  exists ds,
    ImdbDataset.__init__ ["data"%string] true false None None
      (Some (fun tokens => Vocab.make_vocab tokens 0 100 PAD UNK))
    = Exc.Done ds /\
    ImdbDataset.__len__ ds = Exc.Done 4 /\
    ImdbDataset.__getitem__ ds 3 = Exc.Done (ImdbDataset.Plain [3; 2; 2]).
Proof.
  destruct (@unsupervised_items_are_plain (list string) four_reviews
              ["data"%string] true None None
              (Some (fun tokens => Vocab.make_vocab tokens 0 100 PAD UNK))
              (map chars ["bad"; "dull"; "good"; "odd"]%string)
              (Vocab.make_vocab
                 (map chars ["bad"; "dull"; "good"; "odd"]%string)
                 0 100 PAD UNK))
    as (ds & Hinit & _ & Hlen & Hitem & _).
  - reflexivity.
  - reflexivity.
  - apply init_tracks.
  - exists ds. split; [exact Hinit|]. split; [exact Hlen|].
    exact (Hitem 3%nat ltac:(vm_compute; lia)).
Defined.

(** X22: [to_sequence] chains the arrays of a dataset into one sequence:
    the ids of all the tokens of all its texts, in the order of the texts.
    For a dataset without any text it raises [IndexError]; texts that are
    all empty give the empty sequence. *)
Theorem corpus_is_one_sequence (Path : Type) (FS : FileSystem Path)
    (root : Path) (train supervised : bool)
    (tokenizer : option (list string -> Exc.result (list (list string))))
    (vocab : option Vocab.t)
    (make_vocab : option (list (list string) -> Vocab.t))
    (tokens : list (list string)) (v : Vocab.t) :
  let sub := joinpath root (if train then "train" else "test")%string in
  let texts := if supervised then fst (ImdbDataset.labelled_texts sub)
               else ImdbDataset.plain_texts sub in
  ImdbDataset.tokenizer_or_default tokenizer texts = Exc.Done tokens ->
  match make_vocab with Some f => Some (f tokens) | None => vocab end
  = Some v ->
  tracks v ->
  exists ds,
    ImdbDataset.__init__ root train supervised tokenizer vocab make_vocab
    = Exc.Done ds /\
    Sequences.to_sequence ds
    = match tokens with
      | [] => Exc.Fail Exc.IndexError
      | _ :: _ => Exc.Done (map (id_of (Vocab.itos v)) (concat tokens))
      end.
Proof.
  intros sub texts Htok Hv Ht.
  assert (Htok' : ImdbDataset.tokenizer_or_default tokenizer
                    (fst (if supervised then ImdbDataset.labelled_texts sub
                          else (ImdbDataset.plain_texts sub, [])))
                  = Exc.Done tokens).
  { subst texts. destruct supervised; exact Htok. }
  destruct (@init_done Path FS root train supervised tokenizer vocab
              make_vocab tokens v Htok' Hv Ht) as (v' & Hinit & _).
  eexists. split; [exact Hinit|].
  unfold Sequences.to_sequence.
  cbn [ImdbDataset.train ImdbDataset.train_data ImdbDataset.test_data].
  assert (Hattr : (if train
                   then (if train
                         then Some (map (map (id_of (Vocab.itos v))) tokens)
                         else None)
                   else (if train then None
                         else Some (map (map (id_of (Vocab.itos v))) tokens)))
                  = Some (map (map (id_of (Vocab.itos v))) tokens)).
  { destruct train; reflexivity. }
  rewrite Hattr. cbn [attr Exc.bind]. rewrite concat_cases.
  destruct tokens as [|text tokens]; [reflexivity|].
  cbn [map]. rewrite <- map_cons, <- concat_map. reflexivity.
Qed.

Lemma corpus_is_one_sequence_witness :
  exists ds,
    ImdbDataset.__init__ ["data"%string] true true None None
      (Some (fun tokens => Vocab.make_vocab tokens 0 100 PAD UNK))
    = Exc.Done ds /\
    Sequences.to_sequence ds = Exc.Done [5; 6; 2; 2; 7; 3; 3; 8; 4; 4; 2].
Proof.
  destruct (@corpus_is_one_sequence (list string) four_reviews
              ["data"%string] true true None None
              (Some (fun tokens => Vocab.make_vocab tokens 0 100 PAD UNK))
              (map chars ["bad"; "dull"; "good"]%string)
              (Vocab.make_vocab (map chars ["bad"; "dull"; "good"]%string)
                                0 100 PAD UNK))
    as (ds & Hinit & Hseq).
  - reflexivity.
  - reflexivity.
  - apply init_tracks.
  - exists ds. split; [exact Hinit|exact Hseq].
Defined.
